(** * Sequential renaming of image files: a model of [rename_to_sequential.py]

    The development embeds [ImageRenamer] (validation, the directory walk and
    the per-directory rename loop with its temporary-name detour) over a
    path-keyed model of the filesystem, and proves the properties the
    specification states about it. *)

From Stdlib Require Import ZArith String Ascii Lia.
From Stdlib Require Import Decimal DecimalString DecimalFacts DecimalPos DecimalN.
From stdpp Require Import gmap strings list fin_maps.

Open Scope string_scope.

(** ** Python string primitives *)

Module PyStr.

(** [s[n:]] *)
Fixpoint drop (n : nat) (s : string) : string :=
  match n, s with
  | O, _ => s
  | S _, EmptyString => EmptyString
  | S n', String _ s' => drop n' s'
  end.

(** [s[:n]] *)
Fixpoint take (n : nat) (s : string) : string :=
  match n, s with
  | O, _ => EmptyString
  | S _, EmptyString => EmptyString
  | S n', String a s' => String a (take n' s')
  end.

(** [s.rfind(c)] for a one-character needle: the highest index holding [c],
    or [-1]. *)
Fixpoint rfind (c : ascii) (s : string) : Z :=
  match s with
  | EmptyString => (-1)%Z
  | String a s' =>
      let r := rfind c s' in
      if (0 <=? r)%Z then (r + 1)%Z
      else if Ascii.eqb a c then 0%Z else (-1)%Z
  end.

(** [s.startswith(p)] *)
Definition startswith (p s : string) : bool := String.prefix p s.

Fixpoint rev_acc (s acc : string) : string :=
  match s with
  | EmptyString => acc
  | String a s' => rev_acc s' (String a acc)
  end.

Definition rev (s : string) : string := rev_acc s EmptyString.

(** [s.endswith(p)] *)
Definition endswith (p s : string) : bool := String.prefix (rev p) (rev s).

(** [s.endswith(ps)] for a tuple of suffixes. *)
Definition endswith_any (ps : list string) (s : string) : bool :=
  existsb (fun p => endswith p s) ps.

(** [c * n] *)
Fixpoint repeat (c : ascii) (n : nat) : string :=
  match n with
  | O => EmptyString
  | S n' => String c (repeat c n')
  end.

(** [c in s] *)
Fixpoint contains (c : ascii) (s : string) : bool :=
  match s with
  | EmptyString => false
  | String a s' => Ascii.eqb a c || contains c s'
  end.

End PyStr.

(** ** [os.path] *)

Module OsPath.

Definition sep : ascii := "/"%char.
Definition extsep : ascii := "."%char.

(** [posixpath.join(a, b)] with one component [b]. *)
Definition join (a b : string) : string :=
  if PyStr.startswith "/" b then b
  else if String.eqb a "" || PyStr.endswith "/" a then a ++ b
  else a ++ "/" ++ b.

(** The [while] loop of [genericpath._splitext]: starting at [filenameIndex],
    [n] characters are inspected; [true] as soon as one is not a dot. *)
Fixpoint has_non_dot (p : string) (filenameIndex n : nat) : bool :=
  match n with
  | O => false
  | S n' =>
      match String.get filenameIndex p with
      | Some c =>
          if Ascii.eqb c extsep then has_non_dot p (S filenameIndex) n'
          else true
      | None => true
      end
  end.

(** [os.path.splitext(p)]: the extension is split at the last dot of the last
    path component, leading dots of that component not counting. *)
Definition splitext (p : string) : string * string :=
  let sepIndex := PyStr.rfind sep p in
  let dotIndex := PyStr.rfind extsep p in
  if (sepIndex <? dotIndex)%Z then
    if has_non_dot p (Z.to_nat (sepIndex + 1)) (Z.to_nat (dotIndex - (sepIndex + 1)))
    then (PyStr.take (Z.to_nat dotIndex) p, PyStr.drop (Z.to_nat dotIndex) p)
    else (p, "")
  else (p, "").

End OsPath.

(** ** Integer formatting: [f'{j:0{digit}}'] *)

(** [str(n)] for a natural number. *)
Definition str_of_N (n : N) : string := NilZero.string_of_uint (N.to_uint n).

(** [str(j)] *)
Definition str_of_Z (j : Z) : string :=
  if (j <? 0)%Z then "-" ++ str_of_N (Z.abs_N j) else str_of_N (Z.abs_N j).

(** The format specification [0{digit}] applied to an integer: the sign comes
    first, then zeros up to the width, then the digits; nothing is cut when
    the digits alone are wider. *)
Definition format_zero_padded (j : Z) (digit : Z) : string :=
  let sign := if (j <? 0)%Z then "-" else "" in
  let digits := str_of_N (Z.abs_N j) in
  let n_padding := (Z.to_nat digit - (String.length sign + String.length digits))%nat in
  sign ++ PyStr.repeat "0" n_padding ++ digits.

(** [str.zfill(width)]: left fill with zeros, after a leading sign. The
    specification words [pad] as zero-filling the decimal representation. *)
Definition zfill (s : string) (width : nat) : string :=
  let n := (width - String.length s)%nat in
  match s with
  | String c s' =>
      if Ascii.eqb c "-" || Ascii.eqb c "+" then String c (PyStr.repeat "0" n ++ s')
      else PyStr.repeat "0" n ++ s
  | EmptyString => PyStr.repeat "0" n
  end.

Definition pad (i : Z) (d : Z) : string := zfill (str_of_Z i) (Z.to_nat d).

(** Line 137: [f'{j:0{self.digit}}{extension}']. *)
Definition numbered_name (j : Z) (digit : Z) (extension : string) : string :=
  format_zero_padded j digit ++ extension.

(** Lines 135-137: the destination of the file read with index [j]. *)
Definition dst_filename (current_dir : string) (digit : Z) (j : Z) (filename : string) : string :=
  let extension := snd (OsPath.splitext filename) in
  OsPath.join current_dir (numbered_name j digit extension).

(** ** Natural sort key *)

Module Natural.

Inductive chunk : Type :=
  | Txt (s : string)
  | Num (n : N).

Definition is_digit (c : ascii) : bool :=
  (48 <=? N_of_ascii c)%N && (N_of_ascii c <=? 57)%N.

Definition digit_value (c : ascii) : N := (N_of_ascii c - 48)%N.

(** Modelled from the spec: [natural_keys] of [utils] is not among the
    sources. The key splits the name into runs of non-digits and runs of
    digits, left to right; a digit run is read as a number. Text runs and
    numbers alternate, the first and the last chunk being text (possibly
    empty), as a split on digit runs gives them. *)
Fixpoint keys_text (s : string) (run : string) : list chunk :=
  match s with
  | EmptyString => [Txt run]
  | String c s' =>
      if is_digit c then Txt run :: keys_num s' (digit_value c)
      else keys_text s' (run ++ String c EmptyString)
  end
with keys_num (s : string) (n : N) : list chunk :=
  match s with
  | EmptyString => [Num n; Txt EmptyString]
  | String c s' =>
      if is_digit c then keys_num s' (10 * n + digit_value c)%N
      else Num n :: keys_text s' (String c EmptyString)
  end.

Definition natural_keys (text : string) : list chunk := keys_text text EmptyString.

(** Digit runs compare as integers, text runs as text. The alternation of
    the chunks means a text run never meets a number at the same rank. *)
Definition chunk_compare (a b : chunk) : comparison :=
  match a, b with
  | Txt s, Txt t => String.compare s t
  | Num m, Num n => N.compare m n
  | Txt _, Num _ => Lt
  | Num _, Txt _ => Gt
  end.

Fixpoint key_compare (k1 k2 : list chunk) : comparison :=
  match k1, k2 with
  | [], [] => Eq
  | [], _ :: _ => Lt
  | _ :: _, [] => Gt
  | a :: k1', b :: k2' =>
      match chunk_compare a b with
      | Eq => key_compare k1' k2'
      | c => c
      end
  end.

Definition key_lt (a b : string) : bool :=
  match key_compare (natural_keys a) (natural_keys b) with
  | Lt => true
  | _ => false
  end.

(** [x] goes before the first element that is not smaller than it, so that
    equal keys keep their order, as [sorted] guarantees. *)
Fixpoint insert (x : string) (l : list string) : list string :=
  match l with
  | [] => [x]
  | y :: l' => if key_lt y x then y :: insert x l' else x :: l
  end.

(** [sorted(files, key=natural_keys)] *)
Definition sorted (files : list string) : list string := foldr insert [] files.

End Natural.

(** ** The filesystem *)

(** What a path names: a regular file (with its content) or a directory. *)
Inductive node : Type :=
  | File (content : nat)
  | Dir.

#[global] Instance node_eq_dec : EqDecision node.
Proof. solve_decision. Defined.

Abbreviation FS := (gmap string node).

Module Os.

(** [os.path.exists(p)] *)
Definition path_exists (fs : FS) (p : string) : bool :=
  bool_decide (is_Some (fs !! p)).

(** What a directory path is extended with to name an entry inside it. *)
Definition dir_prefix (d : string) : string :=
  if String.eqb d "" || PyStr.endswith "/" d then d else d ++ "/".

(** Whether [p] names an entry directly inside the directory [d]: the
    prefix of [d] followed by a name without separator. *)
Definition entry_of (d p : string) : bool :=
  let pre := dir_prefix d in
  let name := PyStr.drop (String.length pre) p in
  PyStr.startswith pre p
  && negb (String.eqb name "")
  && negb (PyStr.contains "/" name).

(** Whether the directory that holds [p], or would hold it, exists: [p]
    is a bare name (an entry of the working directory), lies directly
    under the root, or is an entry of a directory of the disk. *)
Definition parent_exists (fs : FS) (p : string) : bool :=
  entry_of "" p
  || entry_of "/" p
  || existsb (fun '(d, n) => match n with Dir => entry_of d p | File _ => false end)
             (map_to_list fs).

(** [os.rename(src, dst)] as POSIX has it; [None] stands for the [OSError]
    it raises: the source is missing, the directory of the destination is
    missing, or a file would replace a directory or a directory a file. An
    existing file at [dst] is replaced. The model is meant for sources that
    are regular files, as the paths of a batch are: for a directory only
    the node moves, the entries below it keep their paths. *)
Definition rename (fs : FS) (src dst : string) : option FS :=
  match fs !! src with
  | None => None
  | Some n =>
      if negb (parent_exists fs dst) then None
      else
        match n, fs !! dst with
        | File _, Some Dir => None
        | Dir, Some (File _) => None
        | _, _ => Some (<[dst := n]> (delete src fs))
        end
  end.

(** The entries directly inside [d], in the order the system lists them
    (here: the order of the map). *)
Definition scandir (fs : FS) (d : string) : list (string * node) :=
  let pre := dir_prefix d in
  omap (fun '(path, n) =>
          let name := PyStr.drop (String.length pre) path in
          if PyStr.startswith pre path
             && negb (String.eqb name "")
             && negb (PyStr.contains "/" name)
          then Some (name, n) else None)
       (map_to_list fs).

Definition is_file (n : node) : bool := match n with File _ => true | Dir => false end.

(** The [dirs] and [files] of one step of [os.walk]. *)
Definition walk_dirs (fs : FS) (d : string) : list string :=
  (filter (fun e => is_file e.2 = false) (scandir fs d)).*1.

Definition walk_files (fs : FS) (d : string) : list string :=
  (filter (fun e => is_file e.2 = true) (scandir fs d)).*1.

End Os.

(** ** The program's surroundings *)

(** The two call sites of [os.rename] in the loop: line 155 parks the file
    found at the destination under a temporary name, line 157 gives the
    current file its number. *)
Inductive call : Type :=
  | Park (dst tmp : string)
  | Assign (src dst : string).

Inductive log_entry : Type :=
  | Error (msg : string)
  | Info (msg : string)
  | InfoDirs (total_dirs : nat)
  | InfoWatching (current_dir : string)
  | InfoNoFiles (current_dir : string)
  | InfoRenamed (current_dir : string)
  | InfoProgress (i total_dirs : nat).

(** Everything the run reads or changes outside its own variables: the
    filesystem, how many random names were drawn, the [os.rename] calls in
    the order issued, the log, and the ticks of the progress bar. *)
Record world : Type := World {
  disk : FS;
  draws : nat;
  calls : list call;
  log : list log_entry;
  bar : nat
}.

Definition tick (w : world) : world :=
  World (disk w) (draws w) (calls w) (log w) (S (bar w)).

Definition drew (w : world) : world :=
  World (disk w) (S (draws w)) (calls w) (log w) (bar w).

Definition logged (es : list log_entry) (w : world) : world :=
  World (disk w) (draws w) (calls w) (log w ++ es) (bar w).

Definition called (c : call) (fs' : FS) (w : world) : world :=
  World fs' (draws w) (calls w ++ [c]) (log w) (bar w).

(** How a piece of the loop ends: it falls through to the next iteration,
    executes [return] (line 152), or an exception of [os.rename] escapes. *)
Inductive flow : Type :=
  | Next
  | Return
  | Raise.

#[global] Instance flow_eq_dec : EqDecision flow.
Proof. solve_decision. Defined.

(** Modelled from the spec: [enumerate_with_step] of [utils] is not among
    the sources. Position [p] (from zero) is paired with
    [start + p * step]. *)
Fixpoint enumerate_with_step {A : Type} (xs : list A) (start step : Z) : list (Z * A) :=
  match xs with
  | [] => []
  | x :: xs' => (start, x) :: enumerate_with_step xs' (start + step) step
  end.

(** [filenames.index(x)]: the first position holding [x]; [None] stands
    for [ValueError]. *)
Definition index (x : string) (filenames : list string) : option nat :=
  fst <$> list_find (fun y => y = x) filenames.

Definition msg_disappeared : string := "Existed filename suddenly dissappeared!".
Definition msg_unexpected : string := "Unexpected error occurred! Abort...".

(** ** Configuration and its validation *)

(** The attributes [__init__] sets. [extensions] is the tuple as
    [append_prefix] of [utils] leaves it; the numbers are integers, the
    flag a boolean. *)
Record ImageRenamer : Type := {
  target_dir : string;
  digit : Z;
  extensions : list string;
  initial_number : Z;
  step : Z;
  yes : bool
}.

Module Validator.

(** Modelled from the spec: the module [validator] is not among the
    sources. The target must exist and be a directory. *)
Definition is_dir (fs : FS) (p : string) : bool :=
  bool_decide (fs !! p = Some Dir).

(** Modelled from the spec: the digit width must lie in [[3,9]], both ends
    included. The call passes a fourth argument, [False], of which the
    specification says nothing; it is left out. *)
Definition is_in_range (v lo hi : Z) : bool := (lo <=? v)%Z && (v <=? hi)%Z.

(** Modelled from the spec: after normalisation an extension starts with a
    dot. *)
Definition is_extension (e : string) : bool := PyStr.startswith "." e.

(** Modelled from the spec: strictly positive. *)
Definition is_positive_number (v : Z) : bool := (0 <? v)%Z.

(** Modelled from the spec: the flag is a boolean; here it is one by its
    type. *)
Definition is_bool (b : bool) : bool := true.

End Validator.

Definition msg_target_dir : string :=
  "You must type a valid directory for TARGET DIRECTORY. (-t, --target_dir)".
Definition msg_digit : string :=
  "You must type a number for DIGIT. [Min: 3, Max: 9] (-d, --digit)".
Definition msg_extension : string :=
  "You must type at least one EXTENSION. (-e, --extensions)".
Definition msg_initial_number : string :=
  "You must type a ZERO or positive number for INITIAL NUMBER. (-i, --initial_number)".
Definition msg_step : string :=
  "You must type a positive number for STEP. (-s, --step)".
Definition msg_yes : string :=
  "You must just type -y flag. No need to type a parameter. (-y, --yes)".

(** One [if not ...: logger.error(...); is_valid = False] of the validator:
    the pair is [is_valid] and the errors logged so far. *)
Definition reject_if (violated : bool) (msg : string)
    (st : bool * list log_entry) : bool * list log_entry :=
  if violated then (false, (st.2 ++ [Error msg])%list) else st.

(** Lines 43-90. Every check runs, whatever the earlier ones found. *)
Definition _input_is_valid (self : ImageRenamer) (fs : FS) : bool * list log_entry :=
  let st := (true, []) in
  let st := reject_if (negb (Validator.is_dir fs (target_dir self))) msg_target_dir st in
  let st := reject_if (negb (Validator.is_in_range (digit self) 3 9)) msg_digit st in
  let st := foldl (fun st extension =>
                     reject_if (negb (Validator.is_extension extension)) msg_extension st)
                  st (extensions self) in
  let st := reject_if (negb (initial_number self =? 0)%Z
                       && negb (Validator.is_positive_number (initial_number self)))
                      msg_initial_number st in
  let st := reject_if (negb (Validator.is_positive_number (step self))) msg_step st in
  let st := reject_if (negb (Validator.is_bool (yes self))) msg_yes st in
  st.

(** ** The walk over the directory tree *)

(** Modelled from the spec: [UserResponse] and [ask] of [utils] are not
    among the sources; the prompt is answered by yes or no. *)
Inductive UserResponse : Type :=
  | YES
  | NO.

(** How [rename] ends. [OutOfFuel] is not an ending of the program: it
    marks a walk cut short by the bound given to the model. *)
Inductive outcome : Type :=
  | Invalid
  | Declined
  | Finished
  | Aborted
  | Raised
  | OutOfFuel.

(** ** The rename loop *)

Section Renamer.

(** Modelled from the spec: [gen_random_filename] of [utils] is not among
    the sources. Given a directory and an extension it produces a name to
    park a file under; being random, its result may depend on how many
    names were drawn before, and it probes the filesystem without changing
    it. What the specification promises of the result is a hypothesis of
    the theorems that need it. *)
Variable gen_random_filename : nat -> FS -> string -> string -> string.

(** Line 157-158. *)
Definition rename_file (w : world) (filenames : list string)
    (filename dst : string) : flow * world * list string :=
  match Os.rename (disk w) filename dst with
  | None => (Raise, w, filenames)
  | Some fs' => (Next, tick (called (Assign filename dst) fs' w), filenames)
  end.

(** Lines 135-158: the body of the loop for the pair [(j, filename)], the
    file being read at position [p] of the list as it is now. *)
Definition iteration (current_dir : string) (digit j : Z) (p : nat)
    (w : world) (filenames : list string) : flow * world * list string :=
  match filenames !! p with
  | None => (Next, w, filenames)
  | Some filename =>
      let extension := (OsPath.splitext filename).2 in
      let dst := dst_filename current_dir digit j filename in
      if decide (filename = dst) then (Next, tick w, filenames)
      else if Os.path_exists (disk w) dst then
        let tmp := gen_random_filename (draws w) (disk w) current_dir extension in
        let w := drew w in
        match index dst filenames with
        | None =>
            (Return, logged [Error msg_disappeared; Error msg_unexpected] w, filenames)
        | Some existed_file_index =>
            let filenames := <[existed_file_index := tmp]> filenames in
            match Os.rename (disk w) dst tmp with
            | None => (Raise, w, filenames)
            | Some fs' => rename_file (called (Park dst tmp) fs' w) filenames filename dst
            end
        end
      else rename_file w filenames filename dst
  end.

(** The [for] loop of line 134 over the pairs still to come. The list is
    shared with the loop body: each position is read when its turn comes,
    so a name written there by an earlier iteration is the one seen. *)
Fixpoint loop (current_dir : string) (digit : Z) (items : list (Z * nat))
    (w : world) (filenames : list string) : flow * world * list string :=
  match items with
  | [] => (Next, w, filenames)
  | (j, p) :: items' =>
      match iteration current_dir digit j p w filenames with
      | (Next, w', filenames') => loop current_dir digit items' w' filenames'
      | stopped => stopped
      end
  end.

(** Lines 133-158 for one directory. *)
Definition rename_batch (current_dir : string) (digit initial_number step : Z)
    (w : world) (filenames : list string) : flow * world * list string :=
  loop current_dir digit
       (enumerate_with_step (seq 0 (length filenames)) initial_number step)
       w filenames.

(** Lines 121-125: the batch of a directory. *)
Definition batch_of (self : ImageRenamer) (current_dir : string) (files : list string) : list string :=
  map (OsPath.join current_dir)
      (filter (fun filename => PyStr.endswith_any (extensions self) filename = true)
              (Natural.sorted files)).

(** Line 103: the number of directories below the target, by a walk of its
    own. [stack] holds the directories [os.walk] has still to visit. *)
Fixpoint count_dirs (fuel : nat) (fs : FS) (stack : list string) : nat :=
  match fuel with
  | O => O
  | S fuel' =>
      match stack with
      | [] => O
      | top :: stack' =>
          let dirs := Os.walk_dirs fs top in
          (length dirs + count_dirs fuel' fs (map (OsPath.join top) dirs ++ stack')%list)%nat
      end
  end.

(** Lines 115-165. [os.walk] is lazy and top-down: a directory is listed
    when the loop reaches it, and its subdirectories are visited before its
    later siblings. *)
Fixpoint walk_loop (self : ImageRenamer) (total_dirs : nat) (fuel : nat) (i : nat)
    (stack : list string) (w : world) : outcome * world :=
  match fuel with
  | O => (OutOfFuel, w)
  | S fuel' =>
      match stack with
      | [] => (Finished, logged [Info "Abort..."] w)
      | current_dir :: stack' =>
          let dirs := Os.walk_dirs (disk w) current_dir in
          let files := Os.walk_files (disk w) current_dir in
          let stack' := (map (OsPath.join current_dir) dirs ++ stack')%list in
          let w := logged [InfoWatching current_dir] w in
          let filenames := batch_of self current_dir files in
          match filenames with
          | [] => walk_loop self total_dirs fuel' (S i) stack'
                            (logged [InfoNoFiles current_dir] w)
          | _ :: _ =>
              match rename_batch current_dir (digit self) (initial_number self)
                                 (step self) w filenames with
              | (Next, w', _) =>
                  walk_loop self total_dirs fuel' (S i) stack'
                            (logged [InfoRenamed current_dir; InfoProgress i total_dirs] w')
              | (Return, w', _) => (Aborted, w')
              | (Raise, w', _) => (Raised, w')
              end
          end
      end
  end.

(** Lines 92-165. [show_info] only reports the parameters and is left out;
    [answer] is what the user replies if asked. The model gives the walk
    one step more than there are paths on the disk; a walk that would need
    more ends in [OutOfFuel]. *)
Definition rename (self : ImageRenamer) (answer : UserResponse) (w : world) : outcome * world :=
  let '(is_valid, errors) := _input_is_valid self (disk w) in
  let w := logged errors w in
  if negb is_valid then
    (Invalid, logged [Info "Input parameter is not valid. Try again."] w)
  else
    let fuel := S (size (disk w)) in
    let total_dirs := count_dirs fuel (disk w) [target_dir self] in
    let w := logged [InfoDirs total_dirs] w in
    if negb (yes self) && (match answer with NO => true | YES => false end) then
      (Declined, logged [Info "Abort..."] w)
    else
      walk_loop self total_dirs fuel 0 [target_dir self]
                (logged [Info "Start renaming images to sequential number..."] w).

End Renamer.

(** A sample generator for the examples: a name longer than every path on
    the disk, so certainly unused, whose base name starts with a letter. *)
Definition longest (fs : FS) : nat :=
  max_list (String.length <$> (map_to_list fs).*1).

Definition sample_gen (n : nat) (fs : FS) (current_dir extension : string) : string :=
  OsPath.join current_dir ("tmp" ++ PyStr.repeat "x" (S (longest fs)) ++ extension).

(** ** Auxiliary definitions of the proofs *)

Definition sample_config : ImageRenamer :=
  {| target_dir := "r"; digit := 3; extensions := [".jpg"];
     initial_number := 1; step := 1; yes := true |}.

Definition world_of (fs : FS) : world := World fs 0 [] [] 0.

(** Every character of the string satisfies the test. *)
Fixpoint all_chars (P : ascii -> bool) (s : string) : bool :=
  match s with
  | EmptyString => true
  | String a s' => P a && all_chars P s'
  end.

(** The part of the string before its first [c]. *)
Fixpoint before (c : ascii) (s : string) : string :=
  match s with
  | EmptyString => EmptyString
  | String a s' => if Ascii.eqb a c then EmptyString else String a (before c s')
  end.

Definition is_sign_or_digit (c : ascii) : bool := Ascii.eqb c "-" || Natural.is_digit c.

Definition violation (violated : bool) (msg : string) : list log_entry :=
  if violated then [Error msg] else [].

(** The errors the validator logs: one per violated check, in the order of
    the checks. *)
Definition violations (self : ImageRenamer) (fs : FS) : list log_entry :=
  (violation (negb (Validator.is_dir fs (target_dir self))) msg_target_dir
   ++ violation (negb (Validator.is_in_range (digit self) 3 9)) msg_digit
   ++ flat_map (fun e => violation (negb (Validator.is_extension e)) msg_extension)
               (extensions self)
   ++ violation (negb (initial_number self =? 0)%Z
                 && negb (Validator.is_positive_number (initial_number self)))
                msg_initial_number
   ++ violation (negb (Validator.is_positive_number (step self))) msg_step
   ++ violation (negb (Validator.is_bool (yes self))) msg_yes)%list.

(** A name the loop may give to a file of the directory: a number at the
    width of the run, followed by an extension. *)
Definition is_target (current_dir : string) (d : Z) (name : string) : Prop :=
  exists j f, name = dst_filename current_dir d j f.

(** The number the loop pairs with position [p]. *)
Definition number_at (initial_number st : Z) (p : nat) : Z :=
  (initial_number + Z.of_nat p * st)%Z.

(** An entry the batch does not know of: on disk when the batch starts and
    not in its list. *)
Definition foreign (w0 : world) (fl0 : list string) (name : string) : Prop :=
  is_Some (disk w0 !! name) /\ name ∉ fl0.

(** What holds between two iterations of the batch started in [w0] on the
    list [fl0], when the positions below [a] have been processed:
    - a processed position whose name is on disk does not hold the target
      of a position still to come;
    - a temporary name a file was parked under is neither foreign nor a
      target, and either the file was later given its number or the
      temporary name is at a position still to come;
    - a path on disk is foreign, a target, or at a position still to come;
    - the foreign entries are as they were and not in the list. *)
Record batch_inv (current_dir : string) (d initial_number st : Z)
    (w0 : world) (fl0 : list string)
    (a : nat) (w : world) (fl : list string) : Prop := {
  inv_stale : forall k s m f,
    k < a -> fl !! k = Some s -> is_Some (disk w !! s) -> a <= m ->
    s <> dst_filename current_dir d (number_at initial_number st m) f;
  inv_calls : exists cs,
    calls w = (calls w0 ++ cs)%list
    /\ forall t dst tmp, cs !! t = Some (Park dst tmp) ->
         ~ foreign w0 fl0 tmp
         /\ ~ is_target current_dir d tmp
         /\ ((exists t' q, t < t'
                /\ cs !! t' = Some (Assign tmp
                     (dst_filename current_dir d (number_at initial_number st q) tmp)))
             \/ (exists q, a <= q /\ fl !! q = Some tmp));
  inv_disk : forall name,
    is_Some (disk w !! name) ->
    foreign w0 fl0 name \/ is_target current_dir d name
    \/ (exists q, a <= q /\ fl !! q = Some name);
  inv_foreign : forall name,
    foreign w0 fl0 name -> disk w !! name = disk w0 !! name /\ name ∉ fl
}.

(** The nodes on a disk, whatever their paths. *)
Definition nodes (fs : FS) : list node := (map_to_list fs).*2.

(** One rename of a path that satisfies [S] onto a path that is free. *)
Definition move_from (S : string -> Prop) (fs fs' : FS) : Prop :=
  exists src dst n,
    S src /\ fs !! src = Some n /\ fs !! dst = None
    /\ fs' = <[dst := n]> (delete src fs).

(** What holds, beside [batch_inv], between two iterations of a batch whose
    files were all on disk, each once in the list:
    - the list keeps its length;
    - the content of a processed file is under the target of its position;
    - the content of a file still to come is under the name the list
      holds for it;
    - the names still to come differ from each other and from the targets
      given so far;
    - a path on disk is foreign, a target given so far, or a name still to
      come. *)
Record placed_inv (current_dir : string) (d initial_number st : Z)
    (w0 : world) (fl0 : list string)
    (a : nat) (w : world) (fl : list string) : Prop := {
  pl_base : batch_inv current_dir d initial_number st w0 fl0 a w fl;
  pl_length : length fl = length fl0;
  pl_done : forall k f g,
    k < a -> fl0 !! k = Some f -> fl !! k = Some g ->
    disk w !! dst_filename current_dir d (number_at initial_number st k) g
    = disk w0 !! f;
  pl_pending : forall q f g,
    a <= q -> fl0 !! q = Some f -> fl !! q = Some g ->
    disk w !! g = disk w0 !! f;
  pl_distinct : forall q q' g,
    a <= q -> a <= q' -> fl !! q = Some g -> fl !! q' = Some g -> q = q';
  pl_apart : forall k q g h,
    k < a -> a <= q -> fl !! k = Some g -> fl !! q = Some h ->
    h <> dst_filename current_dir d (number_at initial_number st k) g;
  pl_disk : forall name,
    is_Some (disk w !! name) ->
    foreign w0 fl0 name
    \/ (exists k g, k < a /\ fl !! k = Some g
          /\ name = dst_filename current_dir d (number_at initial_number st k) g)
    \/ (exists q, a <= q /\ fl !! q = Some name)
}.

(** The paths of the disk that name directories. *)
Definition dirs (fs : FS) : gset string := dom (filter (fun kv => kv.2 = Dir) fs).

(** [p] lies below the directory [s]: further down the tree, at any depth. *)
Definition below (s p : string) : Prop :=
  String.prefix (Os.dir_prefix s) p = true /\ p <> Os.dir_prefix s.

#[global] Instance below_dec (s p : string) : Decision (below s p).
Proof. unfold below. apply _. Defined.

Definition subdirs (fs : FS) (s : string) : gset string := filter (below s) (dirs fs).

(** The directories the walk has still to visit: those on the stack and
    all below them. *)
Definition pending_dirs (fs : FS) (stack : list string) : nat :=
  sum_list_with (fun s => S (size (subdirs fs s))) stack.

(** No path of the list names a directory. *)
Definition no_dir (fs : FS) (filenames : list string) : Prop :=
  forall s, s ∈ filenames -> fs !! s <> Some Dir.
(** The directory of an entry and all below it, for the entries of a list
    of names. *)
Definition cells (fs : FS) (s : string) (names : list string) : gset string :=
  ⋃ ((fun name => {[ Os.dir_prefix s ++ name ]} ∪ subdirs fs (Os.dir_prefix s ++ name))
       <$> names).

(** [p] is an entry directly inside the directory [d]. *)
Definition inside (d p : string) : Prop :=
  exists name, name <> "" /\ PyStr.contains "/" name = false
               /\ p = Os.dir_prefix d ++ name.

(** The directories [os.walk] reaches from [s]: [s] itself and, from a
    directory reached, the subdirectories listed for it. *)
Inductive reach (fs : FS) (s : string) : string -> Prop :=
  | reach_here : reach fs s s
  | reach_down (d name : string) :
      reach fs s d -> name ∈ Os.walk_dirs fs d -> reach fs s (OsPath.join d name).

(** Neither directory lies in or below the other. *)
Definition apart (s r : string) : Prop :=
  String.prefix (Os.dir_prefix s) (Os.dir_prefix r) = false
  /\ String.prefix (Os.dir_prefix r) (Os.dir_prefix s) = false.

(** The directories of the stack lie apart from each other. *)
Fixpoint antichain (stack : list string) : Prop :=
  match stack with
  | [] => True
  | s :: rest => Forall (apart s) rest /\ antichain rest
  end.

(** The files of the batch of [q] on the disk [fs] are found on [fs'] at
    the numbers of their positions in the batch, as built from a disk
    [fs1] on which [q] has the entries it has on [fs]: the same files,
    listed by the system in an order of its own. *)
Definition numbered_in (self : ImageRenamer) (fs fs' : FS) (q : string) : Prop :=
  exists fs1,
    (forall P, inside q P -> fs1 !! P = fs !! P)
    /\ batch_of self q (Os.walk_files fs1 q) ≡ₚ batch_of self q (Os.walk_files fs q)
    /\ forall p f, batch_of self q (Os.walk_files fs1 q) !! p = Some f ->
         fs' !! dst_filename q (digit self)
                  (number_at (initial_number self) (step self) p) f
         = fs !! f.

(** A generator within the contract of the specification (a name in the
    directory it is given, not on disk) whose names may be numbered names:
    [004] with the extension when that is free, a name of [sample_gen]
    otherwise. *)
Definition colliding_gen (n : nat) (fs : FS) (current_dir extension : string) : string :=
  let wanted := OsPath.join current_dir ("004" ++ extension) in
  if Os.path_exists fs wanted then sample_gen n fs current_dir extension else wanted.

(** The call gives the file it moves a name with the extension it had. *)
Definition call_keeps_extension (c : call) : Prop :=
  match c with
  | Park dst tmp => (OsPath.splitext tmp).2 = (OsPath.splitext dst).2
  | Assign src dst => (OsPath.splitext dst).2 = (OsPath.splitext src).2
  end.

(** * Properties *)

(** ** The model on concrete inputs *)

Example splitext_plain : OsPath.splitext "d/a.jpg" = ("d/a", ".jpg").
Proof. reflexivity. Qed.

Example splitext_hidden : OsPath.splitext "d/.jpg" = ("d/.jpg", "").
Proof. reflexivity. Qed.

Example splitext_dir_dot : OsPath.splitext "d.x/a" = ("d.x/a", "").
Proof. reflexivity. Qed.

Example dst_example : dst_filename "d" 3 7 "d/a.jpg" = "d/007.jpg".
Proof. reflexivity. Qed.

Example dst_wide : dst_filename "d" 3 1000 "d/a.jpg" = "d/1000.jpg".
Proof. reflexivity. Qed.

Example pad_neg : format_zero_padded (-5) 3 = "-05" /\ pad (-5) 3 = "-05".
Proof. split; reflexivity. Qed.

Example natural_order :
  Natural.sorted ["f2.jpg"; "f10.jpg"; "f1.jpg"] = ["f1.jpg"; "f2.jpg"; "f10.jpg"].
Proof. reflexivity. Qed.

Example natural_keys_example :
  Natural.natural_keys "f10.jpg" = [Natural.Txt "f"; Natural.Num 10; Natural.Txt ".jpg"].
Proof. reflexivity. Qed.

Example scandir_example :
  let fs : FS := {[ "r" := Dir; "r/a.jpg" := File 1; "r/sub" := Dir;
                    "r/sub/b.jpg" := File 2; "rx" := File 3 ]} in
  Os.walk_files fs "r" = ["a.jpg"] /\ Os.walk_dirs fs "r" = ["sub"]
  /\ Os.walk_files fs "r/sub" = ["b.jpg"].
Proof. vm_compute. done. Qed.

(** ** Strings *)

Section StringFacts.

Lemma app_cons (a : ascii) (s t : string) : String a s ++ t = String a (s ++ t).
Proof. reflexivity. Qed.

Lemma length_app_s (s t : string) :
  String.length (s ++ t) = (String.length s + String.length t)%nat.
Proof. induction s as [|a s IH]; [reflexivity|]. rewrite app_cons. simpl. by rewrite IH. Qed.

Lemma length_repeat (c : ascii) (n : nat) : String.length (PyStr.repeat c n) = n.
Proof. induction n as [|n IH]; simpl; [reflexivity|]. by rewrite IH. Qed.

Lemma all_chars_app (P : ascii -> bool) (s t : string) :
  all_chars P (s ++ t) = all_chars P s && all_chars P t.
Proof.
  induction s as [|a s IH]; [reflexivity|].
  rewrite app_cons. simpl. rewrite IH. by rewrite andb_assoc.
Qed.

Lemma all_chars_repeat (P : ascii -> bool) (c : ascii) (n : nat) :
  P c = true -> all_chars P (PyStr.repeat c n) = true.
Proof. intros Hc. induction n as [|n IH]; simpl; [reflexivity|]. by rewrite Hc, IH. Qed.

Lemma before_app (c : ascii) (s e : string) :
  PyStr.contains c s = false ->
  e = "" \/ (exists r, e = String c r) ->
  before c (s ++ e) = s.
Proof.
  intros Hs He. induction s as [|a s IH].
  - destruct He as [->|[r ->]]; [reflexivity|].
    change ("" ++ String c r) with (String c r). simpl. by rewrite Ascii.eqb_refl.
  - rewrite app_cons. simpl in *. apply orb_false_iff in Hs as [Ha Hs].
    rewrite Ha. by rewrite IH.
Qed.

Lemma startswith_cons (c a : ascii) (s : string) :
  PyStr.startswith (String c "") (String a s) = Ascii.eqb c a.
Proof.
  unfold PyStr.startswith. simpl.
  destruct (ascii_dec c a) as [->|Hne].
  - rewrite Ascii.eqb_refl. by destruct s.
  - symmetry. by apply Ascii.eqb_neq.
Qed.

End StringFacts.

(** ** Paths *)

Section PathFacts.

(** Joining to the same directory keeps distinct names distinct. *)
Lemma join_inj (a b b' : string) :
  PyStr.startswith "/" b = false ->
  PyStr.startswith "/" b' = false ->
  OsPath.join a b = OsPath.join a b' -> b = b'.
Proof.
  unfold OsPath.join. intros -> ->.
  destruct (_ || _); intros H.
  - by apply (inj (String.append a)) in H.
  - apply (inj (String.append a)) in H. by apply (inj (String.append "/")) in H.
Qed.

Lemma rfind_lower (c : ascii) (s : string) : (-1 <= PyStr.rfind c s)%Z.
Proof.
  induction s as [|a s IH]; simpl; [lia|].
  destruct (0 <=? PyStr.rfind c s)%Z eqn:E; [lia|]. destruct (Ascii.eqb a c); lia.
Qed.

(** The character at the index [rfind] returns is the one looked for. *)
Lemma rfind_drop (c : ascii) (s : string) :
  (0 <= PyStr.rfind c s)%Z ->
  exists r, PyStr.drop (Z.to_nat (PyStr.rfind c s)) s = String c r.
Proof.
  induction s as [|a s IH]; simpl; [lia|].
  destruct (0 <=? PyStr.rfind c s)%Z eqn:E.
  - intros _. apply Z.leb_le in E. destruct (IH E) as [r Hr].
    exists r. replace (Z.to_nat (PyStr.rfind c s + 1)) with (S (Z.to_nat (PyStr.rfind c s))) by lia.
    exact Hr.
  - destruct (Ascii.eqb a c) eqn:Ea; [|lia].
    intros _. apply Ascii.eqb_eq in Ea as ->. by exists s.
Qed.

(** The extension [splitext] returns is empty or starts with a dot. *)
Lemma splitext_extension (p : string) :
  (OsPath.splitext p).2 = "" \/ exists r, (OsPath.splitext p).2 = String "." r.
Proof.
  unfold OsPath.splitext.
  destruct (_ <? _)%Z eqn:E; [|by left].
  destruct (OsPath.has_non_dot _ _ _); [|by left].
  right. apply Z.ltb_lt in E. pose proof (rfind_lower OsPath.sep p) as Hsep.
  apply (rfind_drop OsPath.extsep). lia.
Qed.

End PathFacts.

(** ** Formatting *)

Section FormatFacts.

Lemma string_of_uint_nonnil (u : uint) :
  u <> Nil -> NilZero.string_of_uint u = NilEmpty.string_of_uint u.
Proof. by destruct u. Qed.

Lemma string_of_uint_digits (u : uint) :
  all_chars Natural.is_digit (NilZero.string_of_uint u) = true.
Proof.
  assert (all_chars Natural.is_digit (NilEmpty.string_of_uint u) = true) as H.
  { induction u; simpl; try rewrite IHu; reflexivity. }
  by destruct u.
Qed.

Lemma string_of_uint_inj (u v : uint) :
  u <> Nil -> v <> Nil ->
  NilZero.string_of_uint u = NilZero.string_of_uint v -> u = v.
Proof.
  intros Hu Hv H. apply NilZero.usu in Hu, Hv. rewrite H in Hu. congruence.
Qed.

Lemma to_uint_nonnil (n : N) : N.to_uint n <> Nil.
Proof. destruct n; [discriminate|]. apply DecimalPos.Unsigned.to_uint_nonnil. Qed.

Lemma iter_D0_nonnil (k : nat) (u : uint) : u <> Nil -> Nat.iter k D0 u <> Nil.
Proof. intros Hu. destruct k; [exact Hu|discriminate]. Qed.

(** Leading zeros are leading [D0] digits. *)
Lemma repeat_zero_digits (k : nat) (u : uint) :
  u <> Nil ->
  PyStr.repeat "0" k ++ NilZero.string_of_uint u = NilZero.string_of_uint (Nat.iter k D0 u).
Proof.
  intros Hu. induction k as [|k IH]; [reflexivity|].
  simpl PyStr.repeat. rewrite app_cons, IH.
  rewrite (string_of_uint_nonnil (Nat.iter k D0 u)) by by apply iter_D0_nonnil.
  reflexivity.
Qed.

(** A number is read back from its digits, however many zeros lead. *)
Lemma of_uint_zeros (k : nat) (n : N) : N.of_uint (Nat.iter k D0 (N.to_uint n)) = n.
Proof.
  rewrite <- DecimalN.Unsigned.of_uint_norm, unorm_iter_D0.
  rewrite DecimalN.Unsigned.of_uint_norm. apply DecimalN.Unsigned.of_to.
Qed.

Lemma padded_digits_inj (k k' : nat) (n n' : N) :
  PyStr.repeat "0" k ++ str_of_N n = PyStr.repeat "0" k' ++ str_of_N n' -> n = n'.
Proof.
  unfold str_of_N. rewrite !repeat_zero_digits by apply to_uint_nonnil. intros H.
  apply string_of_uint_inj in H; try (apply iter_D0_nonnil, to_uint_nonnil).
  apply (f_equal N.of_uint) in H. by rewrite !of_uint_zeros in H.
Qed.

Lemma padded_digits_chars (k : nat) (n : N) :
  all_chars Natural.is_digit (PyStr.repeat "0" k ++ str_of_N n) = true.
Proof.
  unfold str_of_N. rewrite repeat_zero_digits by apply to_uint_nonnil.
  apply string_of_uint_digits.
Qed.

Lemma str_of_N_cons (n : N) :
  exists c s, str_of_N n = String c s /\ Natural.is_digit c = true.
Proof.
  unfold str_of_N. destruct (N.to_uint n); simpl; eexists _, _; split; reflexivity.
Qed.

(** For a fixed width the formatted number determines the number. *)
Lemma format_zero_padded_inj (d j j' : Z) :
  format_zero_padded j d = format_zero_padded j' d -> j = j'.
Proof.
  unfold format_zero_padded. intros H.
  destruct (j <? 0)%Z eqn:Ej, (j' <? 0)%Z eqn:Ej'.
  - apply (inj (String.append "-")) in H. apply padded_digits_inj in H.
    apply Z.ltb_lt in Ej, Ej'. lia.
  - exfalso. apply (f_equal (all_chars Natural.is_digit)) in H.
    change ("" ++ ?x) with x in H. rewrite padded_digits_chars in H.
    rewrite app_cons in H. simpl in H. discriminate.
  - exfalso. apply (f_equal (all_chars Natural.is_digit)) in H.
    change ("" ++ ?x) with x in H. rewrite padded_digits_chars in H.
    rewrite app_cons in H. simpl in H. discriminate.
  - change ("" ++ ?x) with x in H. apply padded_digits_inj in H.
    apply Z.ltb_ge in Ej, Ej'. lia.
Qed.

Lemma format_zero_padded_chars (j d : Z) :
  all_chars is_sign_or_digit (format_zero_padded j d) = true.
Proof.
  assert (forall s, all_chars Natural.is_digit s = true -> all_chars is_sign_or_digit s = true) as Hweak.
  { induction s as [|a s IH]; simpl; [done|]. intros [Ha Hs]%andb_true_iff.
    unfold is_sign_or_digit at 1. rewrite Ha, orb_true_r. simpl. auto. }
  unfold format_zero_padded. destruct (j <? 0)%Z.
  - rewrite app_cons. simpl. apply Hweak, padded_digits_chars.
  - apply Hweak, padded_digits_chars.
Qed.

Lemma all_chars_contains (P : ascii -> bool) (c : ascii) (s : string) :
  P c = false -> all_chars P s = true -> PyStr.contains c s = false.
Proof.
  intros Hc. induction s as [|a s IH]; simpl; [done|].
  intros [Ha Hs]%andb_true_iff. rewrite (IH Hs), orb_false_r.
  apply Ascii.eqb_neq. intros ->. congruence.
Qed.

Lemma format_zero_padded_cons (j d : Z) :
  exists c s, format_zero_padded j d = String c s /\ is_sign_or_digit c = true.
Proof.
  pose proof (format_zero_padded_chars j d) as H.
  destruct (format_zero_padded j d) as [|c s] eqn:E.
  - exfalso. unfold format_zero_padded in E.
    apply (f_equal String.length) in E. rewrite !length_app_s in E.
    destruct (str_of_N_cons (Z.abs_N j)) as (c & s & Hd & _).
    rewrite Hd in E. simpl in E. lia.
  - exists c, s. split; [done|]. simpl in H. by apply andb_true_iff in H as [? _].
Qed.

(** A numbered name is relative: it does not start with the separator. *)
Lemma numbered_name_relative (j d : Z) (e : string) :
  PyStr.startswith "/" (format_zero_padded j d ++ e) = false.
Proof.
  destruct (format_zero_padded_cons j d) as (c & s & -> & Hc).
  rewrite app_cons, startswith_cons.
  apply Ascii.eqb_neq. intros <-. discriminate.
Qed.

(** The target names of two different numbers differ, whatever the files
    they are computed for. *)
Lemma dst_filename_inj (current_dir : string) (d j j' : Z) (f f' : string) :
  dst_filename current_dir d j f = dst_filename current_dir d j' f' -> j = j'.
Proof.
  unfold dst_filename, numbered_name. intros H.
  apply join_inj in H; try apply numbered_name_relative.
  apply (f_equal (before ".")) in H.
  rewrite !before_app in H; try apply splitext_extension;
    try (eapply all_chars_contains; [|apply format_zero_padded_chars]; reflexivity).
  by apply format_zero_padded_inj in H.
Qed.

End FormatFacts.

(** ** Target names *)

Section TargetNames.

Lemma digit_not_sign (c : ascii) :
  Natural.is_digit c = true -> Ascii.eqb c "-" || Ascii.eqb c "+" = false.
Proof.
  intros Hc. apply orb_false_iff; split; apply Ascii.eqb_neq; intros ->; discriminate.
Qed.

(** The format specification and the zero fill of the decimal
    representation give the same string. *)
Lemma format_zero_padded_pad (i d : Z) : format_zero_padded i d = pad i d.
Proof.
  unfold format_zero_padded, pad, str_of_Z, zfill.
  destruct (i <? 0)%Z.
  - rewrite !app_cons. change ("" ++ ?x) with x. simpl. reflexivity.
  - destruct (str_of_N_cons (Z.abs_N i)) as (c & s & -> & Hc).
    rewrite (digit_not_sign c Hc). reflexivity.
Qed.

Lemma length_format_zero_padded (i d : Z) :
  String.length (format_zero_padded i d)
  = Nat.max (Z.to_nat d) (String.length (str_of_Z i)).
Proof.
  unfold format_zero_padded, str_of_Z. destruct (i <? 0)%Z;
    rewrite !length_app_s, ?length_repeat; simpl; lia.
Qed.

Lemma format_zero_padded_wide (i d : Z) :
  (Z.to_nat d <= String.length (str_of_Z i))%nat ->
  format_zero_padded i d = str_of_Z i.
Proof.
  unfold format_zero_padded, str_of_Z. destruct (i <? 0)%Z; intros H.
  - rewrite length_app_s in H. simpl in H.
    replace (_ - _)%nat with 0%nat by (simpl; lia). reflexivity.
  - replace (_ - _)%nat with 0%nat by (simpl; lia). reflexivity.
Qed.

(** C5: for an index [i], a width [d] between 3 and 9 and an extension,
    the generated name is the decimal representation of [i] zero-filled to
    width [d], followed by the extension; the number part is exactly [d]
    wide when the representation fits, and when the representation is
    wider than [d] it is kept whole, the number part being wider than [d].
    The destination of a file is that name, with the extension of the
    file, in the current directory. *)
Theorem target_name_is_padded_index (i d : Z) (extension : string) :
  (3 <= d <= 9)%Z ->
  numbered_name i d extension = pad i d ++ extension
  /\ ((String.length (str_of_Z i) <= Z.to_nat d)%nat ->
      String.length (pad i d) = Z.to_nat d)
  /\ ((Z.to_nat d < String.length (str_of_Z i))%nat ->
      pad i d = str_of_Z i /\ (Z.to_nat d < String.length (pad i d))%nat)
  /\ (forall current_dir filename,
        dst_filename current_dir d i filename
        = OsPath.join current_dir (pad i d ++ (OsPath.splitext filename).2)).
Proof.
  intros _. unfold dst_filename, numbered_name. rewrite <- !format_zero_padded_pad.
  split; [reflexivity|]. split; [|split]; [intros H|intros H|reflexivity].
  - rewrite length_format_zero_padded. lia.
  - rewrite format_zero_padded_wide by lia. auto.
Qed.

Lemma target_name_is_padded_index_witness :
  (3 <= 3 <= 9)%Z
  /\ numbered_name 7 3 ".jpg" = pad 7 3 ++ ".jpg"
  /\ pad 7 3 = "007" /\ pad 1000 3 = "1000".
Proof.
  split; [lia|].
  split; [exact (proj1 (target_name_is_padded_index 7 3 ".jpg" ltac:(lia)))|].
  split; reflexivity.
Defined.

(** Where [enumerate_with_step] puts what. *)
Lemma enumerate_with_step_lookup {A : Type} (xs : list A) (start st : Z) (p : nat) :
  enumerate_with_step xs start st !! p
  = (fun x => ((start + Z.of_nat p * st)%Z, x)) <$> xs !! p.
Proof.
  revert start p. induction xs as [|x xs IH]; intros start p; [by destruct p|].
  destruct p as [|p]; simpl.
  - f_equal. f_equal. lia.
  - rewrite IH. destruct (xs !! p); simpl; [|done]. do 2 f_equal. lia.
Qed.

Lemma enumerate_with_step_length {A : Type} (xs : list A) (start st : Z) :
  length (enumerate_with_step xs start st) = length xs.
Proof. revert start. induction xs as [|x xs IH]; intros start; simpl; [done|]. by rewrite IH. Qed.

(** C6: the entry at zero-based position [p] of the batch is given the
    index [initial_number + p * step]; for three files with initial number
    5, step 2 and digit 3 the targets are 005, 007 and 009 with the
    extensions of the files. *)
Theorem target_index_of_position :
  (forall (filenames : list string) (initial_number step : Z) (p : nat),
      enumerate_with_step filenames initial_number step !! p
      = (fun filename => ((initial_number + Z.of_nat p * step)%Z, filename))
          <$> filenames !! p)
  /\ map (fun '(j, filename) => dst_filename "d" 3 j filename)
         (enumerate_with_step ["d/a.jpg"; "d/b.png"; "d/c.jpg"] 5 2)
     = ["d/005.jpg"; "d/007.png"; "d/009.jpg"].
Proof. split; [apply enumerate_with_step_lookup|reflexivity]. Qed.

(** C9: under a positive step, the target names computed at two different
    positions of a batch differ, whatever the files read there; the digit
    width is the same for both. *)
Theorem target_names_pairwise_distinct
    (current_dir : string) (d initial_number st : Z) (n p q : nat)
    (j j' : Z) (f g : string) :
  (0 < st)%Z ->
  enumerate_with_step (seq 0 n) initial_number st !! p = Some (j, p) ->
  enumerate_with_step (seq 0 n) initial_number st !! q = Some (j', q) ->
  p <> q ->
  dst_filename current_dir d j f <> dst_filename current_dir d j' g.
Proof.
  intros Hst Hp Hq Hne Heq. apply dst_filename_inj in Heq.
  rewrite enumerate_with_step_lookup in Hp, Hq.
  destruct (seq 0 n !! p); simplify_eq/=. destruct (seq 0 n !! q); simplify_eq/=. nia.
Qed.

Lemma target_names_pairwise_distinct_witness :
  dst_filename "d" 3 1 "d/a.jpg" <> dst_filename "d" 3 2 "d/a.jpg".
Proof.
  apply (target_names_pairwise_distinct "d" 3 1 1 2 0 1 1 2 "d/a.jpg" "d/a.jpg");
    [lia | reflexivity | reflexivity | lia].
Defined.

End TargetNames.

(** ** The filesystem calls *)

Section OsFacts.

Lemma path_exists_true (fs : FS) (p : string) :
  Os.path_exists fs p = true <-> is_Some (fs !! p).
Proof. unfold Os.path_exists. by rewrite bool_decide_eq_true. Qed.

Lemma path_exists_false (fs : FS) (p : string) :
  Os.path_exists fs p = false <-> fs !! p = None.
Proof.
  unfold Os.path_exists. rewrite bool_decide_eq_false. by rewrite eq_None_not_Some.
Qed.


(** What a rename that returns has done. *)
Lemma rename_Some (fs fs' : FS) (src dst : string) :
  Os.rename fs src dst = Some fs' ->
  exists n, fs !! src = Some n /\ fs' = <[dst := n]> (delete src fs).
Proof.
  unfold Os.rename. destruct (fs !! src) as [n|]; [|done].
  destruct (Os.parent_exists fs dst); [|done]. simpl.
  intros H. exists n. split; [done|].
  destruct n, (fs !! dst) as [[]|]; congruence.
Qed.

End OsFacts.

(** ** One iteration of the rename loop *)

Section Iteration.

Context (gen : nat -> FS -> string -> string -> string).

Lemma rename_file_not_return (w w' : world) (fl fl' : list string) (src dst : string) :
  rename_file w fl src dst <> (Return, w', fl').
Proof. unfold rename_file. by destruct (Os.rename _ _ _). Qed.


(** C8: a file whose current path is already its computed target is left
    untouched: the iteration issues no rename for it, changes neither the
    disk nor the list, ticks the progress bar and goes on to the next
    file. *)
Theorem already_named_file_untouched
    (current_dir : string) (d j : Z) (p : nat) (w : world)
    (filenames : list string) (filename : string) :
  filenames !! p = Some filename ->
  filename = dst_filename current_dir d j filename ->
  iteration gen current_dir d j p w filenames = (Next, tick w, filenames)
  /\ disk (tick w) = disk w
  /\ calls (tick w) = calls w
  /\ draws (tick w) = draws w
  /\ bar (tick w) = S (bar w).
Proof.
  intros Hp Heq. split; [|done].
  unfold iteration. rewrite Hp. by rewrite decide_True.
Qed.

(** What an iteration that executes [return] has found and done. *)
Lemma iteration_return (current_dir : string) (d j : Z) (p : nat)
    (w w' : world) (fl fl' : list string) :
  iteration gen current_dir d j p w fl = (Return, w', fl') ->
  exists filename,
    fl !! p = Some filename
    /\ filename <> dst_filename current_dir d j filename
    /\ Os.path_exists (disk w) (dst_filename current_dir d j filename) = true
    /\ index (dst_filename current_dir d j filename) fl = None
    /\ w' = logged [Error msg_disappeared; Error msg_unexpected] (drew w)
    /\ fl' = fl.
Proof.
  unfold iteration. destruct (fl !! p) as [filename|]; [|done].
  destruct (decide _) as [|Hne]; [done|].
  destruct (Os.path_exists _ _) eqn:Hex.
  - destruct (index _ _) as [i|] eqn:Hi.
    + destruct (Os.rename _ _ _); [|done]. intros H. by apply rename_file_not_return in H.
    + intros H. simplify_eq. by exists filename.
  - intros H. by apply rename_file_not_return in H.
Qed.

(** C10: when the iteration ends on the inconsistency error (the target
    exists on disk and is absent from the list), no rename was performed in
    it: neither the file at the target nor the current file has moved, and
    disk and list are as they were when the iteration began. *)
Theorem inconsistency_abort_leaves_disk
    (current_dir : string) (d j : Z) (p : nat)
    (w w' : world) (filenames filenames' : list string) :
  iteration gen current_dir d j p w filenames = (Return, w', filenames') ->
  disk w' = disk w
  /\ calls w' = calls w
  /\ filenames' = filenames
  /\ log w' = (log w ++ [Error msg_disappeared; Error msg_unexpected])%list.
Proof.
  intros H. apply iteration_return in H as (f & _ & _ & _ & _ & -> & ->). done.
Qed.

End Iteration.

(** ** The loop and the walk *)

Section Walk.

Context (gen : nat -> FS -> string -> string -> string).

Lemma index_None (x : string) (l : list string) : index x l = None <-> x ∉ l.
Proof.
  unfold index. destruct (list_find _ _) as [[i y]|] eqn:E; simpl.
  - apply list_find_Some in E as (E & -> & _). split; [done|].
    intros []. by apply list_elem_of_lookup_2 in E.
  - split; [|done]. intros _ Hin.
    apply list_find_None in E. rewrite Forall_forall in E. by apply (E x).
Qed.

Lemma index_Some (x : string) (l : list string) (i : nat) :
  index x l = Some i <-> l !! i = Some x /\ forall k, k < i -> l !! k <> Some x.
Proof.
  unfold index. destruct (list_find _ _) as [[i' y]|] eqn:E; simpl.
  - apply list_find_Some in E as (E & -> & Hmin). split.
    + intros [= <-]. split; [done|]. intros k Hk Hx. by apply (Hmin k x).
    + intros [Hi Hfirst]. f_equal.
      destruct (lt_eq_lt_dec i i') as [[Hlt| ->]|Hgt]; [|done|].
      * by apply (Hmin i x) in Hlt.
      * by apply Hfirst in Hgt.
  - split; [done|]. intros [Hi _].
    apply list_find_None in E. rewrite Forall_forall in E.
    apply list_elem_of_lookup_2 in Hi. by apply E in Hi.
Qed.

(** The loop over a sequence of pairs is the loop over its first part,
    then, unless that stopped, over the rest. *)
Lemma loop_app (current_dir : string) (d : Z) (before after : list (Z * nat))
    (w : world) (fl : list string) :
  loop gen current_dir d (before ++ after) w fl
  = match loop gen current_dir d before w fl with
    | (Next, w', fl') => loop gen current_dir d after w' fl'
    | stopped => stopped
    end.
Proof.
  revert w fl. induction before as [|[j p] before IH]; intros w fl; simpl; [done|].
  destruct (iteration _ _ _ _ _ _ _) as [[[] w'] fl']; auto.
Qed.

Lemma iteration_inconsistent (current_dir : string) (d j : Z) (p : nat)
    (w : world) (fl : list string) (filename : string) :
  fl !! p = Some filename ->
  filename <> dst_filename current_dir d j filename ->
  is_Some (disk w !! dst_filename current_dir d j filename) ->
  dst_filename current_dir d j filename ∉ fl ->
  iteration gen current_dir d j p w fl
  = (Return, logged [Error msg_disappeared; Error msg_unexpected] (drew w), fl).
Proof.
  intros Hp Hne Hex Hnot. unfold iteration. rewrite Hp.
  rewrite decide_False by done.
  rewrite (proj2 (path_exists_true _ _)) by done.
  by rewrite (proj2 (index_None _ _)).
Qed.

Lemma walk_loop_unfold (self : ImageRenamer) (total_dirs fuel i : nat)
    (current_dir : string) (stack : list string) (w : world) :
  walk_loop gen self total_dirs (S fuel) i (current_dir :: stack) w
  = let w1 := logged [InfoWatching current_dir] w in
    match batch_of self current_dir (Os.walk_files (disk w) current_dir) with
    | [] => walk_loop gen self total_dirs fuel (S i)
              (map (OsPath.join current_dir) (Os.walk_dirs (disk w) current_dir) ++ stack)%list
              (logged [InfoNoFiles current_dir] w1)
    | _ :: _ =>
        match rename_batch gen current_dir (digit self) (initial_number self)
                (step self) w1
                (batch_of self current_dir (Os.walk_files (disk w) current_dir)) with
        | (Next, w', _) =>
            walk_loop gen self total_dirs fuel (S i)
              (map (OsPath.join current_dir) (Os.walk_dirs (disk w) current_dir) ++ stack)%list
              (logged [InfoRenamed current_dir; InfoProgress i total_dirs] w')
        | (Return, w', _) => (Aborted, w')
        | (Raise, w', _) => (Raised, w')
        end
    end.
Proof. reflexivity. Qed.

(** C2: when, in the batch of a directory, the target of a file exists on
    disk and is not in the list, two errors are logged and the whole run
    ends there: the files after it in the batch and the directories still
    on the walk's stack are not processed, and the disk is the one the
    failing iteration found. *)
Theorem inconsistency_aborts_run
    (self : ImageRenamer) (total_dirs fuel i : nat) (current_dir : string)
    (stack : list string) (w0 w1 : world) (before after : list (Z * nat))
    (j : Z) (p : nat) (filenames1 : list string) (filename : string) :
  let filenames := batch_of self current_dir (Os.walk_files (disk w0) current_dir) in
  let dst := dst_filename current_dir (digit self) j filename in
  enumerate_with_step (seq 0 (length filenames)) (initial_number self) (step self)
    = (before ++ (j, p) :: after)%list ->
  loop gen current_dir (digit self) before
       (logged [InfoWatching current_dir] w0) filenames = (Next, w1, filenames1) ->
  filenames1 !! p = Some filename ->
  filename <> dst ->
  is_Some (disk w1 !! dst) ->
  dst ∉ filenames1 ->
  exists w',
    walk_loop gen self total_dirs (S fuel) i (current_dir :: stack) w0 = (Aborted, w')
    /\ disk w' = disk w1
    /\ calls w' = calls w1
    /\ log w' = (log w1 ++ [Error msg_disappeared; Error msg_unexpected])%list.
Proof.
  intros filenames dst Hitems Hbefore Hp Hne Hex Hnot.
  exists (logged [Error msg_disappeared; Error msg_unexpected] (drew w1)).
  split; [|done].
  rewrite walk_loop_unfold. fold filenames. cbv zeta.
  assert (rename_batch gen current_dir (digit self) (initial_number self)
            (step self) (logged [InfoWatching current_dir] w0) filenames
          = (Return, logged [Error msg_disappeared; Error msg_unexpected] (drew w1), filenames1)) as Hb.
  { unfold rename_batch. rewrite Hitems, loop_app, Hbefore. simpl.
    by rewrite (iteration_inconsistent _ _ _ _ _ _ filename). }
  rewrite Hb. destruct filenames as [|f fl] eqn:E; [|done].
  exfalso. simpl in Hitems. by destruct before.
Qed.

End Walk.

(** ** Validation *)

Section Validation.

Context (gen : nat -> FS -> string -> string -> string).

Lemma reject_if_spec (violated : bool) (msg : string) (b : bool) (es : list log_entry) :
  reject_if violated msg (b, es) = (b && negb violated, (es ++ violation violated msg)%list).
Proof.
  destruct violated; simpl.
  - by rewrite andb_false_r.
  - by rewrite andb_true_r, app_nil_r.
Qed.

Lemma reject_extensions_spec (exts : list string) (b : bool) (es : list log_entry) :
  foldl (fun st extension =>
           reject_if (negb (Validator.is_extension extension)) msg_extension st)
        (b, es) exts
  = (b && forallb Validator.is_extension exts,
     (es ++ flat_map (fun e => violation (negb (Validator.is_extension e)) msg_extension) exts)%list).
Proof.
  revert b es. induction exts as [|e exts IH]; intros b es; simpl.
  - by rewrite andb_true_r, app_nil_r.
  - rewrite reject_if_spec, IH. rewrite negb_involutive, andb_assoc.
    by rewrite <- app_assoc.
Qed.

Lemma no_errors_app (l1 l2 : list log_entry) :
  bool_decide ((l1 ++ l2)%list = []) = bool_decide (l1 = []) && bool_decide (l2 = []).
Proof. destruct l1, l2; reflexivity. Qed.

Lemma no_errors_violation (violated : bool) (msg : string) :
  bool_decide (violation violated msg = []) = negb violated.
Proof. by destruct violated. Qed.

Lemma no_errors_extensions (exts : list string) :
  bool_decide (flat_map (fun e => violation (negb (Validator.is_extension e)) msg_extension)
                        exts = [])
  = forallb Validator.is_extension exts.
Proof.
  induction exts as [|e exts IH]; [done|]. simpl.
  rewrite no_errors_app, IH, no_errors_violation. by rewrite negb_involutive.
Qed.

Lemma input_is_valid_spec (self : ImageRenamer) (fs : FS) :
  _input_is_valid self fs
  = (bool_decide (violations self fs = []), violations self fs).
Proof.
  unfold _input_is_valid, violations.
  rewrite !reject_if_spec, reject_extensions_spec, !reject_if_spec. simpl fst. simpl snd.
  rewrite !no_errors_app, !no_errors_violation, no_errors_extensions.
  rewrite <- !app_assoc, <- !andb_assoc. reflexivity.
Qed.

Lemma violation_elem (violated : bool) (msg : string) :
  violated = true -> Error msg ∈ violation violated msg.
Proof. intros ->. apply list_elem_of_here. Qed.

Lemma rename_invalid (self : ImageRenamer) (answer : UserResponse) (w : world) :
  violations self (disk w) <> [] ->
  rename gen self answer w
  = (Invalid, logged [Info "Input parameter is not valid. Try again."]
                (logged (violations self (disk w)) w)).
Proof.
  intros Hv. unfold rename. rewrite input_is_valid_spec.
  by rewrite bool_decide_eq_false_2.
Qed.

(** C7: a configuration whose digit is outside [[3,9]], whose step is not
    positive or whose target is not a directory is rejected: [rename]
    returns before any call on the filesystem, the disk unchanged; and the
    log holds the error of every violated check, each check having been
    run whatever the others found. *)
Theorem invalid_configuration_rejected
    (self : ImageRenamer) (answer : UserResponse) (w : world) :
  Validator.is_dir (disk w) (target_dir self) = false
  \/ ~ (3 <= digit self <= 9)%Z
  \/ (step self <= 0)%Z ->
  exists w',
    rename gen self answer w = (Invalid, w')
    /\ disk w' = disk w
    /\ calls w' = calls w
    /\ (_input_is_valid self (disk w)).1 = false
    /\ (Validator.is_dir (disk w) (target_dir self) = false ->
        Error msg_target_dir ∈ log w')
    /\ (~ (3 <= digit self <= 9)%Z -> Error msg_digit ∈ log w')
    /\ (forall e, e ∈ extensions self -> Validator.is_extension e = false ->
        Error msg_extension ∈ log w')
    /\ ((initial_number self < 0)%Z -> Error msg_initial_number ∈ log w')
    /\ ((step self <= 0)%Z -> Error msg_step ∈ log w').
Proof.
  intros Hbad.
  assert (Validator.is_dir (disk w) (target_dir self) = false ->
          Error msg_target_dir ∈ violations self (disk w)) as Hdir.
  { intros H. unfold violations. apply elem_of_app. left.
    apply violation_elem. by rewrite H. }
  assert (~ (3 <= digit self <= 9)%Z -> Error msg_digit ∈ violations self (disk w)) as Hdigit.
  { intros H. unfold violations. apply elem_of_app. right. apply elem_of_app. left.
    apply violation_elem. unfold Validator.is_in_range.
    apply negb_true_iff, andb_false_iff.
    destruct (Z.leb_spec 3 (digit self)); [right|by left].
    apply Z.leb_gt. lia. }
  assert (forall e, e ∈ extensions self -> Validator.is_extension e = false ->
          Error msg_extension ∈ violations self (disk w)) as Hext.
  { intros e He H. unfold violations. do 2 (apply elem_of_app; right).
    apply elem_of_app. left. apply list_elem_of_In, in_flat_map.
    exists e. split; [by apply list_elem_of_In|].
    apply list_elem_of_In, violation_elem. by rewrite H. }
  assert ((initial_number self < 0)%Z ->
          Error msg_initial_number ∈ violations self (disk w)) as Hinit.
  { intros H. unfold violations. do 3 (apply elem_of_app; right).
    apply elem_of_app. left. apply violation_elem.
    unfold Validator.is_positive_number. apply andb_true_iff.
    split; apply negb_true_iff; [apply Z.eqb_neq|apply Z.ltb_ge]; lia. }
  assert ((step self <= 0)%Z -> Error msg_step ∈ violations self (disk w)) as Hstep.
  { intros H. unfold violations. do 4 (apply elem_of_app; right).
    apply elem_of_app. left. apply violation_elem.
    unfold Validator.is_positive_number. apply negb_true_iff, Z.ltb_ge. lia. }
  assert (violations self (disk w) <> []) as Hne.
  { intros Hnil. rewrite Hnil in Hdir, Hdigit, Hstep.
    destruct Hbad as [H|[H|H]];
      [apply Hdir in H|apply Hdigit in H|apply Hstep in H]; by apply elem_of_nil in H. }
  eexists. split; [by apply rename_invalid|]. simpl.
  split; [done|]. split; [done|].
  split; [rewrite input_is_valid_spec; simpl; by apply bool_decide_eq_false_2|].
  repeat split; intros; rewrite <- app_assoc; apply elem_of_app; right;
    apply elem_of_app; left; eauto.
Qed.

End Validation.

(** ** A batch run to its end *)

Section Batch.

Context (gen : nat -> FS -> string -> string -> string).
Context (current_dir : string) (d initial_number st : Z).

(** The generator keeps its promise: the name it returns is not on disk. *)
Hypothesis gen_unused : forall n fs extension,
  fs !! gen n fs current_dir extension = None.

(** What the three ways through an iteration that goes on to the next file
    leave behind. *)
Lemma iteration_next (j : Z) (a : nat) (w w' : world) (fl fl' : list string)
    (src : string) :
  fl !! a = Some src ->
  iteration gen current_dir d j a w fl = (Next, w', fl') ->
  let dst := dst_filename current_dir d j src in
  let tmp := gen (draws w) (disk w) current_dir (OsPath.splitext src).2 in
  (src = dst /\ w' = tick w /\ fl' = fl)
  \/ (src <> dst /\ disk w !! dst = None /\ fl' = fl
      /\ calls w' = (calls w ++ [Assign src dst])%list
      /\ exists n, disk w !! src = Some n
           /\ disk w' = <[dst := n]> (delete src (disk w)))
  \/ (src <> dst /\ tmp <> dst
      /\ exists i m n, disk w !! dst = Some m
           /\ index dst fl = Some i
           /\ fl' = <[i := tmp]> fl
           /\ calls w' = (calls w ++ [Park dst tmp; Assign src dst])%list
           /\ <[tmp := m]> (delete dst (disk w)) !! src = Some n
           /\ disk w' = <[dst := n]> (delete src (<[tmp := m]> (delete dst (disk w))))).
Proof.
  intros Ha H dst tmp. unfold iteration in H. rewrite Ha in H. fold dst in H.
  destruct (decide (src = dst)) as [Heq|Hne].
  { left. by simplify_eq. }
  right. destruct (Os.path_exists (disk w) dst) eqn:Hex.
  - right. apply path_exists_true in Hex as [m Hm].
    assert (disk w !! tmp = None) as Htmp by apply gen_unused.
    assert (tmp <> dst) as Htd by congruence.
    fold tmp in H. destruct (index dst fl) as [i|] eqn:Hi; [|done].
    simpl in H. destruct (Os.rename _ dst tmp) as [fs1|] eqn:Hpark; [|done].
    apply rename_Some in Hpark as (m' & Hm' & ->).
    assert (m' = m) as -> by congruence.
    unfold rename_file in H. simpl in H.
    destruct (Os.rename _ src dst) as [fs3|] eqn:Hr; [|done].
    apply rename_Some in Hr as (n & Hn & ->). simplify_eq.
    split; [done|]. split; [done|]. exists i, m, n. simpl.
    repeat split; try done. by rewrite <- app_assoc.
  - left. apply path_exists_false in Hex.
    unfold rename_file in H.
    destruct (Os.rename _ src dst) as [fs3|] eqn:Hr; [|done].
    apply rename_Some in Hr as (n & Hn & ->). simplify_eq.
    repeat split; try done. by exists n.
Qed.


(** The generator never returns a name the loop could give as a target. *)
Hypothesis gen_not_target : forall n fs extension j f,
  gen n fs current_dir extension <> dst_filename current_dir d j f.

Hypothesis step_positive : (0 < st)%Z.

Lemma moved_lookup (fs : FS) (src dst : string) (n : node) (x : string) :
  <[dst := n]> (delete src fs) !! x
  = if decide (x = dst) then Some n
    else if decide (x = src) then None else fs !! x.
Proof.
  rewrite lookup_insert. destruct (decide (dst = x)) as [->|?].
  - by rewrite decide_True.
  - rewrite decide_False by done. rewrite lookup_delete.
    destruct (decide (src = x)) as [->|?].
    + by rewrite decide_True.
    + by rewrite decide_False.
Qed.

Lemma number_at_inj (p q : nat) :
  number_at initial_number st p = number_at initial_number st q -> p = q.
Proof. unfold number_at. nia. Qed.

Lemma target_at_distinct (p q : nat) (f g : string) :
  p <> q ->
  dst_filename current_dir d (number_at initial_number st p) f
  <> dst_filename current_dir d (number_at initial_number st q) g.
Proof. intros Hne H. by apply dst_filename_inj, number_at_inj in H. Qed.

Lemma elem_of_insert_inv (l : list string) (i : nat) (x y : string) :
  y ∈ <[i := x]> l -> y = x \/ y ∈ l.
Proof.
  intros [k Hk]%list_elem_of_lookup_1.
  apply list_lookup_insert_Some in Hk as [(_ & -> & _)|[_ Hk]]; [by left|].
  right. by apply list_elem_of_lookup_2 in Hk.
Qed.

Lemma batch_inv_step (w0 : world) (fl0 : list string) (a : nat)
    (w w' : world) (fl fl' : list string) :
  a < length fl ->
  batch_inv current_dir d initial_number st w0 fl0 a w fl ->
  iteration gen current_dir d (number_at initial_number st a) a w fl = (Next, w', fl') ->
  batch_inv current_dir d initial_number st w0 fl0 (S a) w' fl'
  /\ length fl' = length fl.
Proof.
  intros Hlen [Hstale (cs & Hcs & Hparks) Hdisk Hforeign] Hit.
  destruct (lookup_lt_is_Some_2 fl a Hlen) as [src Hsrc].
  pose proof (iteration_next _ _ _ _ _ _ _ Hsrc Hit) as Hcases. cbv zeta in Hcases.
  set (dst := dst_filename current_dir d (number_at initial_number st a) src) in *.
  set (tmp := gen (draws w) (disk w) current_dir (OsPath.splitext src).2) in *.
  destruct Hcases as [(Heq & -> & ->)
                     |[(Hne & Hfree & -> & Hcalls & n & Hn & Hd)
                      |(Hne & Htd & i & m & n & Hm & Hi & -> & Hcalls & Hn & Hd)]].
  - (* the file is already named *)
    split; [|done]. constructor.
    + intros k s m f Hk Hs Hon Hm. destruct (decide (k = a)) as [->|].
      * rewrite Hsrc in Hs. simplify_eq. rewrite Heq. apply target_at_distinct. lia.
      * apply (Hstale k); [lia|done|done|lia].
    + exists cs. split; [done|]. intros t dst' tmp' Ht.
      destruct (Hparks t dst' tmp' Ht) as (Hnf & Hnt & Hres).
      split; [done|]. split; [done|].
      destruct Hres as [?|(q & Hq & Hfl)]; [by left|right].
      exists q. split; [|done]. destruct (decide (q = a)) as [->|]; [|lia].
      exfalso. apply Hnt. rewrite Hsrc in Hfl. simplify_eq. rewrite Heq. by eexists _, _.
    + intros name Hon. destruct (Hdisk name Hon) as [?|[?|(q & Hq & Hfl)]]; [by left|by right; left|].
      destruct (decide (q = a)) as [->|].
      * right; left. rewrite Hsrc in Hfl. simplify_eq. rewrite Heq. by eexists _, _.
      * right; right. exists q. split; [lia|done].
    + done.
  - (* the target is free *)
    split; [|done]. constructor.
    + intros k s m f Hk Hs Hon Hm. rewrite Hd, moved_lookup in Hon.
      destruct (decide (s = dst)) as [->|]; [apply target_at_distinct; lia|].
      destruct (decide (s = src)) as [->|]; [by destruct Hon|].
      destruct (decide (k = a)) as [->|]; [congruence|].
      apply (Hstale k); [lia|done|done|lia].
    + exists (cs ++ [Assign src dst])%list. split; [by rewrite Hcalls, Hcs, app_assoc|].
      intros t dst' tmp' Ht.
      assert (cs !! t = Some (Park dst' tmp')) as Ht'.
      { apply lookup_app_Some in Ht as [?|[_ Ht]]; [done|].
        by apply list_lookup_singleton_Some in Ht as [_ ?]. }
      destruct (Hparks t dst' tmp' Ht') as (Hnf & Hnt & Hres).
      split; [done|]. split; [done|].
      destruct Hres as [(t' & q & Hlt & Hres)|(q & Hq & Hfl)].
      * left. exists t', q. split; [done|]. by apply lookup_app_l_Some.
      * destruct (decide (q = a)) as [->|]; [|right; exists q; split; [lia|done]].
        left. exists (length cs), a. split; [by apply lookup_lt_Some in Ht'|].
        rewrite Hsrc in Hfl. simplify_eq. by rewrite list_lookup_middle.
    + intros name Hon. rewrite Hd, moved_lookup in Hon.
      destruct (decide (name = dst)) as [->|]; [right; left; by eexists _, _|].
      destruct (decide (name = src)) as [->|]; [by destruct Hon|].
      destruct (Hdisk name Hon) as [?|[?|(q & Hq & Hfl)]]; [by left|by right; left|].
      right; right. exists q. split; [|done].
      destruct (decide (q = a)) as [->|]; [congruence|lia].
    + intros name Hf. destruct (Hforeign name Hf) as [Hsame Hnot]. split; [|done].
      rewrite Hd, moved_lookup.
      destruct Hf as [Hon _]. rewrite <- Hsame in Hon.
      rewrite decide_False by (intros ->; rewrite Hfree in Hon; by destruct Hon).
      rewrite decide_False; [done|]. intros ->. by apply list_elem_of_lookup_2 in Hsrc.
  - (* the target is occupied *)
    apply index_Some in Hi as [Hi _].
    assert (a < i) as Hai.
    { destruct (lt_eq_lt_dec i a) as [[Hlt| ->]|]; [|congruence|done].
      exfalso. by apply (Hstale i dst a src). }
    assert (i < length fl) as Hilen by by apply lookup_lt_Some in Hi.
    assert (disk w !! tmp = None) as Htmp by apply gen_unused.
    assert (forall x, disk w' !! x
              = if decide (x = dst) then Some n else if decide (x = src) then None
                else if decide (x = tmp) then Some m else disk w !! x) as Hlook.
    { intros x. rewrite Hd, moved_lookup. repeat case_decide; try done.
      - subst. by rewrite lookup_insert_eq.
      - rewrite lookup_insert_ne, lookup_delete_ne by done. done. }
    split; [|by rewrite length_insert]. constructor.
    + intros k s m' f Hk Hs Hon Hm'. rewrite Hlook in Hon.
      destruct (decide (s = dst)) as [->|]; [apply target_at_distinct; lia|].
      destruct (decide (s = src)) as [->|]; [by destruct Hon|].
      destruct (decide (s = tmp)) as [->|]; [apply gen_not_target|].
      destruct (decide (k = a)) as [->|].
      * rewrite list_lookup_insert_ne in Hs by lia. congruence.
      * rewrite list_lookup_insert_ne in Hs by lia.
        apply (Hstale k); [lia|done|done|lia].
    + exists (cs ++ [Park dst tmp; Assign src dst])%list.
      split; [by rewrite Hcalls, Hcs, app_assoc|].
      intros t dst' tmp' Ht.
      apply lookup_app_Some in Ht as [Ht'|[Hge Ht]].
      * destruct (Hparks t dst' tmp' Ht') as (Hnf & Hnt & Hres).
        split; [done|]. split; [done|].
        destruct Hres as [(t' & q & Hlt & Hres)|(q & Hq & Hfl)].
        -- left. exists t', q. split; [done|]. by apply lookup_app_l_Some.
        -- destruct (decide (q = a)) as [->|].
           ++ left. exists (S (length cs)), a.
              split; [apply lookup_lt_Some in Ht'; lia|].
              rewrite Hsrc in Hfl. simplify_eq.
              rewrite lookup_app_r by lia.
              by replace (S (length cs) - length cs) with 1 by lia.
           ++ right. exists q. split; [lia|].
              rewrite list_lookup_insert_ne; [done|].
              intros ->. rewrite Hi in Hfl. simplify_eq. apply Hnt. by eexists _, _.
      * destruct (t - length cs) as [|[|?]] eqn:Et; simplify_eq/=.
        split; [|split].
        -- intros Hf. destruct (Hforeign _ Hf) as [Hsame _]. destruct Hf as [Hon _].
           rewrite <- Hsame, Htmp in Hon. by destruct Hon.
        -- intros (j' & f' & Hjf). by apply gen_not_target in Hjf.
        -- right. exists i. split; [lia|]. by apply list_lookup_insert_eq.
    + intros name Hon. rewrite Hlook in Hon.
      destruct (decide (name = dst)) as [->|]; [right; left; by eexists _, _|].
      destruct (decide (name = src)) as [->|]; [by destruct Hon|].
      destruct (decide (name = tmp)) as [->|].
      { right; right. exists i. split; [lia|]. by apply list_lookup_insert_eq. }
      destruct (Hdisk name Hon) as [?|[?|(q & Hq & Hfl)]]; [by left|by right; left|].
      right; right. exists q.
      destruct (decide (q = a)) as [->|]; [congruence|]. split; [lia|].
      rewrite list_lookup_insert_ne; [done|]. intros ->. congruence.
    + intros name Hf. destruct (Hforeign name Hf) as [Hsame Hnot].
      destruct Hf as [Hon _]. rewrite <- Hsame in Hon.
      assert (name <> tmp) as Hnt by (intros ->; rewrite Htmp in Hon; by destruct Hon).
      split.
      * rewrite Hlook.
        rewrite decide_False by (intros ->; by apply list_elem_of_lookup_2 in Hi).
        rewrite decide_False by (intros ->; by apply list_elem_of_lookup_2 in Hsrc).
        by rewrite decide_False.
      * intros [->|Hin]%elem_of_insert_inv; done.
Qed.


Lemma batch_inv_start (w0 : world) (fl0 : list string) :
  batch_inv current_dir d initial_number st w0 fl0 0 w0 fl0.
Proof.
  constructor.
  - intros k s m f Hk. lia.
  - exists []. split; [by rewrite app_nil_r|]. intros t dst tmp Ht. done.
  - intros name Hon. destruct (decide (name ∈ fl0)) as [Hin|Hnot].
    + right; right. apply list_elem_of_lookup_1 in Hin as [q Hq].
      exists q. split; [lia|done].
    + by left.
  - by intros name [_ Hnot].
Qed.



End Batch.

(** ** The sample generator *)

Section SampleGenerator.

Lemma length_join (a b : string) : String.length b <= String.length (OsPath.join a b).
Proof.
  unfold OsPath.join. destruct (PyStr.startswith "/" b); [done|].
  destruct (_ || _); rewrite !length_app_s; lia.
Qed.

Lemma longest_bound (fs : FS) (p : string) :
  is_Some (fs !! p) -> String.length p <= longest fs.
Proof.
  intros [n Hn]. apply max_list_elem_of_le.
  apply list_elem_of_fmap. exists p. split; [done|].
  apply list_elem_of_fmap. exists (p, n). split; [done|].
  by apply elem_of_map_to_list.
Qed.

Lemma sample_gen_unused (n : nat) (fs : FS) (current_dir extension : string) :
  fs !! sample_gen n fs current_dir extension = None.
Proof.
  apply eq_None_not_Some. intros H%longest_bound.
  pose proof (length_join current_dir
                ("tmp" ++ PyStr.repeat "x" (S (longest fs)) ++ extension)) as Hj.
  fold (sample_gen n fs current_dir extension) in Hj.
  rewrite !length_app_s, length_repeat in Hj. lia.
Qed.

Lemma sample_gen_not_target (n : nat) (fs : FS) (current_dir extension : string)
    (d j : Z) (f : string) :
  sample_gen n fs current_dir extension <> dst_filename current_dir d j f.
Proof.
  unfold sample_gen, dst_filename, numbered_name. intros H.
  apply join_inj in H; [|reflexivity|apply numbered_name_relative].
  destruct (format_zero_padded_cons j d) as (c & s & Hc & Hd).
  rewrite Hc in H. rewrite !app_cons in H. by simplify_eq.
Qed.

End SampleGenerator.

(** ** The theorems at concrete inputs *)

Lemma already_named_file_untouched_witness :
  let w := world_of {[ "d" := Dir; "d/001.jpg" := File 1 ]} in
  iteration sample_gen "d" 3 1 0 w ["d/001.jpg"] = (Next, tick w, ["d/001.jpg"])
  /\ calls (tick w) = [].
Proof.
  intros w.
  destruct (already_named_file_untouched sample_gen "d" 3 1 0 w ["d/001.jpg"] "d/001.jpg")
    as (H & _ & Hc & _); [reflexivity | reflexivity |].
  split; [exact H | exact Hc].
Defined.

Lemma inconsistency_abort_leaves_disk_witness :
  let fs : FS := {[ "d" := Dir; "d/a.jpg" := File 1; "d/001.jpg" := Dir ]} in
  let w' := logged [Error msg_disappeared; Error msg_unexpected] (drew (world_of fs)) in
  iteration sample_gen "d" 3 1 0 (world_of fs) ["d/a.jpg"] = (Return, w', ["d/a.jpg"])
  /\ disk w' = fs /\ calls w' = [].
Proof.
  intros fs w'.
  assert (iteration sample_gen "d" 3 1 0 (world_of fs) ["d/a.jpg"]
          = (Return, w', ["d/a.jpg"])) as H by reflexivity.
  split; [exact H|].
  destruct (inconsistency_abort_leaves_disk sample_gen "d" 3 1 0 _ _ _ _ H)
    as (Hd & Hc & _).
  split; [exact Hd | exact Hc].
Defined.

Lemma inconsistency_aborts_run_witness :
  let fs : FS := {[ "r" := Dir; "r/a.jpg" := File 1; "r/001.jpg" := Dir;
                    "r/sub" := Dir; "r/sub/b.jpg" := File 2 ]} in
  exists w',
    walk_loop sample_gen sample_config 2 5 0 ["r"; "next"] (world_of fs) = (Aborted, w')
    /\ disk w' = fs /\ calls w' = [].
Proof.
  intros fs.
  destruct (inconsistency_aborts_run sample_gen sample_config 2 4 0 "r" ["next"]
              (world_of fs) (logged [InfoWatching "r"] (world_of fs))
              [] [] 1 0 ["r/a.jpg"] "r/a.jpg")
    as (w' & H & Hd & Hc & _);
    [reflexivity | reflexivity | reflexivity | by vm_compute | by vm_compute; eauto | |].
  - intros Hin. apply list_elem_of_singleton in Hin. by vm_compute in Hin.
  - exists w'. split; [exact H|]. split; [exact Hd | exact Hc].
Defined.

Lemma invalid_configuration_rejected_witness :
  let fs : FS := {[ "r" := Dir; "r/a.jpg" := File 1 ]} in
  let bad := {| target_dir := "q"; digit := 2; extensions := [".jpg"];
                initial_number := 1; step := 0; yes := true |} in
  exists w',
    rename sample_gen bad YES (world_of fs) = (Invalid, w')
    /\ disk w' = fs /\ calls w' = []
    /\ Error msg_target_dir ∈ log w' /\ Error msg_digit ∈ log w' /\ Error msg_step ∈ log w'.
Proof.
  intros fs bad.
  destruct (invalid_configuration_rejected sample_gen bad YES (world_of fs))
    as (w' & H & Hd & Hc & _ & H1 & H2 & _ & _ & H3); [by left|].
  exists w'. split; [exact H|]. split; [exact Hd|]. split; [exact Hc|].
  split; [by apply H1|]. split; [apply H2; simpl; lia | apply H3; simpl; lia].
Defined.


(** ** Running twice *)

(** C3: a second run with the same configuration should change nothing,
    every file taking the branch of the already named. The code does not
    keep this on a directory holding a file named [.jpg] beside [a.jpg],
    with extension [.jpg], digit 3, initial number 1 and step 1: the filter
    keeps [.jpg], since the name ends with the extension, while [splitext]
    finds no extension in it, so the first run names it [001]; the second
    run no longer sees that file, [002.jpg] is first in its batch and is
    renamed to [001.jpg]. No temporary name is drawn, so this holds
    whatever the generator. *)
Theorem second_run_renames_again (gen : nat -> FS -> string -> string -> string) :
  let fs : FS := {[ "r" := Dir; "r/.jpg" := File 1; "r/a.jpg" := File 2 ]} in
  let first := rename gen sample_config YES (world_of fs) in
  let second := rename gen sample_config YES (world_of (disk first.2)) in
  first.1 = Finished
  /\ calls first.2 = [Assign "r/.jpg" "r/001"; Assign "r/a.jpg" "r/002.jpg"]
  /\ disk first.2 !! "r/002.jpg" = Some (File 2)
  /\ second.1 = Finished
  /\ calls second.2 = [Assign "r/002.jpg" "r/001.jpg"]
  /\ disk second.2 !! "r/002.jpg" = None
  /\ disk second.2 !! "r/001.jpg" = Some (File 2).
Proof. vm_compute. repeat split. Qed.

(** * Further properties of the code *)

(** ** More on strings *)

Section MoreStrings.

Lemma app_empty_r (s : string) : s ++ "" = s.
Proof. induction s as [|c s IH]; [reflexivity|]. rewrite app_cons. by rewrite IH. Qed.

Lemma app_assoc_s (s t u : string) : (s ++ t) ++ u = s ++ t ++ u.
Proof. induction s as [|c s IH]; [reflexivity|]. rewrite !app_cons. by rewrite IH. Qed.

Lemma rev_acc_app (s acc : string) : PyStr.rev_acc s acc = PyStr.rev s ++ acc.
Proof.
  unfold PyStr.rev. revert acc. induction s as [|c s IH]; intros acc; [reflexivity|].
  simpl. rewrite (IH (String c acc)), (IH (String c "")).
  by rewrite app_assoc_s.
Qed.

Lemma rev_cons (c : ascii) (s : string) :
  PyStr.rev (String c s) = PyStr.rev s ++ String c "".
Proof. unfold PyStr.rev at 1. simpl. apply rev_acc_app. Qed.

Lemma rev_app (s t : string) : PyStr.rev (s ++ t) = PyStr.rev t ++ PyStr.rev s.
Proof.
  induction s as [|c s IH].
  - change ("" ++ t) with t. change (PyStr.rev "") with "". by rewrite app_empty_r.
  - rewrite app_cons, !rev_cons, IH. by rewrite app_assoc_s.
Qed.

Lemma prefix_app (p x y : string) :
  String.prefix p x = true -> String.prefix p (x ++ y) = true.
Proof.
  revert x. induction p as [|c p IH]; intros x.
  { intros _. by destruct (x ++ y). }
  destruct x as [|c' x]; [simpl; done|]. rewrite app_cons. simpl.
  destruct (ascii_dec c c'); [apply IH|done].
Qed.

(** A suffix of the end of a string is a suffix of the string. *)
Lemma endswith_app (e s t : string) :
  PyStr.endswith e t = true -> PyStr.endswith e (s ++ t) = true.
Proof. unfold PyStr.endswith. rewrite rev_app. apply prefix_app. Qed.

End MoreStrings.

(** ** Extensions *)

Section Extensions.

Lemma contains_app (c : ascii) (s t : string) :
  PyStr.contains c (s ++ t) = PyStr.contains c s || PyStr.contains c t.
Proof.
  induction s as [|a s IH]; [reflexivity|].
  rewrite app_cons. simpl. rewrite IH. by rewrite orb_assoc.
Qed.

Lemma rfind_absent (c : ascii) (s : string) :
  PyStr.contains c s = false -> PyStr.rfind c s = (-1)%Z.
Proof.
  induction s as [|a s IH]; simpl; [done|].
  intros [Ha Hs]%orb_false_iff. rewrite (IH Hs), Ha. reflexivity.
Qed.

Lemma rfind_upper (c : ascii) (s : string) :
  (PyStr.rfind c s < Z.of_nat (String.length s))%Z.
Proof.
  induction s as [|a s IH]; simpl String.length; simpl PyStr.rfind; [lia|].
  destruct (0 <=? PyStr.rfind c s)%Z; [lia|]. destruct (Ascii.eqb a c); lia.
Qed.

(** [rfind] in a concatenation looks in the second part first. *)
Lemma rfind_app (c : ascii) (s t : string) :
  PyStr.rfind c (s ++ t)
  = if (0 <=? PyStr.rfind c t)%Z
    then (Z.of_nat (String.length s) + PyStr.rfind c t)%Z
    else PyStr.rfind c s.
Proof.
  induction s as [|a s IH].
  - change ("" ++ t) with t. simpl.
    pose proof (rfind_lower c t). destruct (Z.leb_spec 0 (PyStr.rfind c t)); lia.
  - rewrite app_cons. simpl PyStr.rfind. rewrite IH.
    destruct (Z.leb_spec 0 (PyStr.rfind c t)) as [Ht|Ht].
    + rewrite (proj2 (Z.leb_le _ _)) by lia. simpl String.length. lia.
    + reflexivity.
Qed.

Lemma drop_app_length (s t : string) : PyStr.drop (String.length s) (s ++ t) = t.
Proof. induction s as [|a s IH]; [by destruct t|]. rewrite app_cons. exact IH. Qed.

Lemma take_drop (n : nat) (s : string) : PyStr.take n s ++ PyStr.drop n s = s.
Proof.
  revert s. induction n as [|n IH]; intros s; [reflexivity|].
  destruct s as [|a s]; [reflexivity|]. simpl. rewrite app_cons. by rewrite IH.
Qed.

Lemma get_app_length (s t : string) (c : ascii) :
  String.get (String.length s) (s ++ String c t) = Some c.
Proof. induction s as [|a s IH]; [reflexivity|]. rewrite app_cons. exact IH. Qed.

Lemma rfind_present (c : ascii) (s : string) :
  PyStr.contains c s = true -> (0 <= PyStr.rfind c s)%Z.
Proof.
  induction s as [|a s IH]; simpl; [done|].
  destruct (Z.leb_spec 0 (PyStr.rfind c s)) as [E|E]; [lia|].
  destruct (Ascii.eqb a c); simpl; [lia|]. intros Hs. apply IH in Hs. lia.
Qed.

(** After the index [rfind] returns there is no further occurrence. *)
Lemma rfind_drop_last (c : ascii) (s : string) :
  (0 <= PyStr.rfind c s)%Z ->
  exists r, PyStr.drop (Z.to_nat (PyStr.rfind c s)) s = String c r
            /\ PyStr.contains c r = false.
Proof.
  induction s as [|a s IH]; simpl; [lia|].
  destruct (Z.leb_spec 0 (PyStr.rfind c s)) as [E|E].
  - intros _. destruct (IH E) as (r & Hr & Hc). exists r.
    replace (Z.to_nat (PyStr.rfind c s + 1)) with (S (Z.to_nat (PyStr.rfind c s))) by lia.
    done.
  - destruct (Ascii.eqb a c) eqn:Ea; [|lia].
    intros _. apply Ascii.eqb_eq in Ea as ->. exists s. split; [done|].
    destruct (PyStr.contains c s) eqn:Hc; [|done].
    apply rfind_present in Hc. lia.
Qed.

(** Past an index beyond the last occurrence there is none. *)
Lemma drop_past_rfind (c : ascii) (s : string) (k : nat) :
  (PyStr.rfind c s < Z.of_nat k)%Z -> PyStr.contains c (PyStr.drop k s) = false.
Proof.
  revert k. induction s as [|a s IH]; intros k; [by destruct k|].
  destruct k as [|k]; simpl PyStr.drop.
  - intros Hlt. destruct (PyStr.contains c (String a s)) eqn:Hc; [|done].
    apply rfind_present in Hc. lia.
  - simpl PyStr.rfind. intros Hlt. apply IH.
    destruct (Z.leb_spec 0 (PyStr.rfind c s)); [lia|].
    pose proof (rfind_lower c s). lia.
Qed.

(** What [splitext] returns: the two parts make up the
    path, and the extension is empty or a dot followed by characters among
    which there is neither a dot nor a separator. *)
Lemma splitext_shape (p : string) :
  (OsPath.splitext p).1 ++ (OsPath.splitext p).2 = p
  /\ ((OsPath.splitext p).2 = ""
      \/ exists r, (OsPath.splitext p).2 = String "." r
           /\ PyStr.contains "." r = false /\ PyStr.contains "/" r = false).
Proof.
  unfold OsPath.splitext.
  destruct (Z.ltb_spec (PyStr.rfind OsPath.sep p) (PyStr.rfind OsPath.extsep p)) as [E|E].
  2: { simpl. split; [apply app_empty_r|by left]. }
  destruct (OsPath.has_non_dot _ _ _).
  2: { simpl. split; [apply app_empty_r|by left]. }
  simpl. split; [apply take_drop|]. right.
  pose proof (rfind_lower OsPath.sep p) as Hsep.
  destruct (rfind_drop_last OsPath.extsep p) as (r & Hr & Hdot); [lia|].
  exists r. split; [done|]. split; [done|].
  pose proof (drop_past_rfind OsPath.sep p (Z.to_nat (PyStr.rfind OsPath.extsep p))) as Hs.
  rewrite Hr in Hs. simpl in Hs. apply Hs. lia.
Qed.


(** [lia] after naming the indices: the characters inside them are not
    arithmetic. *)
Ltac lia_index :=
  repeat match goal with
         | |- context [PyStr.rfind ?c ?s] =>
             let x := fresh "x" in set (x := PyStr.rfind c s) in *; clearbody x
         | H : context [PyStr.rfind ?c ?s] |- _ =>
             let x := fresh "x" in set (x := PyStr.rfind c s) in *; clearbody x
         end;
  lia.

(** A string that ends with a character is something followed by it. *)
Lemma endswith_char (c : ascii) (a : string) :
  PyStr.endswith (String c "") a = true -> exists a', a = a' ++ String c "".
Proof.
  unfold PyStr.endswith. change (PyStr.rev (String c "")) with (String c "").
  induction a as [|x s IH]; [done|]. rewrite rev_cons.
  destruct s as [|y s'].
  - change (PyStr.rev "") with "". change ("" ++ String x "") with (String x "").
    unfold PyStr.startswith in *. simpl. destruct (ascii_dec c x) as [->|]; [|done]. intros _. by exists "".
  - destruct (PyStr.rev (String y s')) as [|z t] eqn:Hrev.
    { rewrite rev_cons in Hrev. by destruct (PyStr.rev s'). }
    rewrite app_cons. intros H. destruct IH as [a' Ha'].
    { destruct t; simpl in *; exact H. }
    exists (String x a'). rewrite Ha'. by rewrite app_cons.
Qed.

(** What [join] puts before a relative name is empty or ends with the
    separator. *)
Lemma join_prefix (a : string) :
  exists pre,
    (forall b, PyStr.startswith "/" b = false -> OsPath.join a b = pre ++ b)
    /\ (pre = "" \/ exists a', pre = a' ++ "/").
Proof.
  unfold OsPath.join.
  destruct (String.eqb a "") eqn:Ea; simpl.
  - apply String.eqb_eq in Ea as ->. exists "". split; [|by left].
    intros b ->. reflexivity.
  - destruct (PyStr.endswith "/" a) eqn:Hend.
    + exists a. split; [by intros b ->|]. right. by apply endswith_char.
    + exists (a ++ "/"). split; [|right; by exists a].
      intros b ->. by rewrite app_assoc_s.
Qed.

(** The extension of a name built from a directory, a base name without
    dot or separator and an extension is that extension. *)
Lemma splitext_built (pre body ext : string) (c : ascii) (body' : string) :
  pre = "" \/ (exists a', pre = a' ++ "/") ->
  body = String c body' -> c <> "."%char ->
  PyStr.contains "." body = false -> PyStr.contains "/" body = false ->
  ext = "" \/ (exists r, ext = String "." r
                /\ PyStr.contains "." r = false /\ PyStr.contains "/" r = false) ->
  (OsPath.splitext (pre ++ body ++ ext)).2 = ext.
Proof.
  intros Hpre Hbody Hc Hdot Hsep Hext.
  assert (PyStr.contains "/" ext = false) as Hsep_ext.
  { destruct Hext as [->|(r & -> & _ & Hr)]; [done|]. simpl. exact Hr. }
  assert (PyStr.rfind "/" (pre ++ body ++ ext) = (Z.of_nat (String.length pre) - 1)%Z)
    as Hsepi.
  { rewrite rfind_app, (rfind_absent "/" (body ++ ext))
      by (rewrite contains_app, Hsep, Hsep_ext; done).
    simpl. destruct Hpre as [->|[a' ->]]; [done|].
    rewrite rfind_app. simpl. rewrite length_app_s. simpl. clear. lia. }
  assert (PyStr.rfind "." pre <= Z.of_nat (String.length pre) - 1)%Z as Hdotpre.
  { pose proof (rfind_upper "." pre). lia_index. }
  unfold OsPath.splitext, OsPath.sep, OsPath.extsep. rewrite Hsepi.
  destruct Hext as [->|(r & -> & Hr & _)].
  - rewrite app_empty_r.
    rewrite rfind_app, (rfind_absent "." body) by done. simpl.
    destruct Hpre as [->|[a' ->]].
    + reflexivity.
    + rewrite rfind_app. simpl. rewrite length_app_s. simpl.
      pose proof (rfind_upper "." a').
      destruct (Z.ltb_spec (Z.of_nat (String.length a' + 1) - 1) (PyStr.rfind "." a'));
        [lia_index|done].
  - assert (PyStr.rfind "." (pre ++ body ++ String "." r)
            = Z.of_nat (String.length pre + String.length body)) as Hdoti.
    { rewrite !rfind_app. simpl. rewrite (rfind_absent "." r) by done. simpl.
      rewrite (proj2 (Z.leb_le _ _)) by lia. lia. }
    rewrite Hdoti.
    assert (0 < String.length body) as Hlen by (rewrite Hbody; simpl; lia).
    rewrite (proj2 (Z.ltb_lt _ _)) by lia.
    replace (Z.to_nat (Z.of_nat (String.length pre) - 1 + 1)) with (String.length pre) by lia.
    replace (Z.to_nat (Z.of_nat (String.length pre + String.length body)
                       - (Z.of_nat (String.length pre) - 1 + 1)))
      with (S (String.length body')) by (rewrite Hbody; simpl; lia).
    simpl OsPath.has_non_dot. rewrite Hbody, app_cons, get_app_length.
    rewrite (proj2 (Ascii.eqb_neq _ _)) by done. simpl.
    rewrite Nat2Z.id. rewrite <- app_cons, <- app_assoc_s, <- Hbody.
    replace (String.length pre + S (String.length body'))
      with (String.length (pre ++ body))
      by (rewrite length_app_s, Hbody; reflexivity).
    apply drop_app_length.
Qed.

(** The destination of a file has the extension of the file, and is its
    own destination under the same number. *)
Lemma dst_filename_extension (current_dir : string) (d j : Z) (f : string) :
  (OsPath.splitext (dst_filename current_dir d j f)).2 = (OsPath.splitext f).2
  /\ dst_filename current_dir d j (dst_filename current_dir d j f)
     = dst_filename current_dir d j f.
Proof.
  assert ((OsPath.splitext (dst_filename current_dir d j f)).2 = (OsPath.splitext f).2) as H.
  { unfold dst_filename at 1. unfold numbered_name.
    destruct (join_prefix current_dir) as (pre & Hjoin & Hpre).
    rewrite Hjoin by apply numbered_name_relative.
    destruct (format_zero_padded_cons j d) as (c & s & Hc & Hd).
    pose proof (format_zero_padded_chars j d) as Hchars.
    apply (splitext_built pre _ _ c s); try done.
    - intros ->. discriminate.
    - by apply (all_chars_contains is_sign_or_digit).
    - by apply (all_chars_contains is_sign_or_digit).
    - apply splitext_shape. }
  split; [done|]. unfold dst_filename at 1. by rewrite H.
Qed.

Lemma prefix_self (p s : string) : String.prefix p (p ++ s) = true.
Proof.
  induction p as [|c p IH]; [by destruct s|].
  rewrite app_cons. simpl. by destruct (ascii_dec c c).
Qed.

Lemma prefix_drop (p s : string) :
  String.prefix p s = true -> p ++ PyStr.drop (String.length p) s = s.
Proof.
  revert s. induction p as [|c p IH]; intros s; [by destruct s|].
  destruct s as [|c' s]; [simpl; done|]. simpl.
  destruct (ascii_dec c c') as [->|]; [|done]. intros H. rewrite app_cons. by rewrite IH.
Qed.

Lemma relative_name (name : string) :
  PyStr.contains "/" name = false -> PyStr.startswith "/" name = false.
Proof.
  destruct name as [|c s]; [done|]. intros H. simpl in H.
  apply orb_false_iff in H as [Hc _]. by rewrite startswith_cons, Ascii.eqb_sym.
Qed.

(** For a relative name [join] prepends the prefix of the directory. *)
Lemma join_dir_prefix (d name : string) :
  PyStr.startswith "/" name = false -> OsPath.join d name = Os.dir_prefix d ++ name.
Proof.
  intros H. unfold OsPath.join, Os.dir_prefix. rewrite H.
  destruct (_ || _); [done|]. by rewrite app_assoc_s.
Qed.

(** The destination of a file is an entry of the directory. *)
Lemma dst_inside (current_dir : string) (d j : Z) (f : string) :
  inside current_dir (dst_filename current_dir d j f).
Proof.
  unfold dst_filename, numbered_name.
  exists (format_zero_padded j d ++ (OsPath.splitext f).2). split; [|split].
  - destruct (format_zero_padded_cons j d) as (c & t & -> & _). by rewrite app_cons.
  - rewrite contains_app.
    rewrite (all_chars_contains is_sign_or_digit) by (done || apply format_zero_padded_chars).
    destruct (splitext_shape f) as [_ [->|(r & -> & _ & Hr)]]; [done|].
    simpl. exact Hr.
  - apply join_dir_prefix, numbered_name_relative.
Qed.

Lemma join_inside (d name : string) :
  name <> "" -> PyStr.contains "/" name = false -> inside d (OsPath.join d name).
Proof.
  intros Hne Hsep. exists name. split; [done|]. split; [done|].
  by apply join_dir_prefix, relative_name.
Qed.




End Extensions.

(** ** Parking the file found at the target *)

Section Parking.

Context (gen : nat -> FS -> string -> string -> string).


End Parking.

(** ** What a run does to the disk, however it ends *)

Section Moves.

Lemma move_nodes (S : string -> Prop) (fs fs' : FS) :
  move_from S fs fs' -> nodes fs' ≡ₚ nodes fs.
Proof.
  intros (src & dst & n & _ & Hsrc & Hdst & ->). unfold nodes.
  rewrite map_to_list_insert by (rewrite lookup_delete_ne; [done|congruence]).
  rewrite <- (map_to_list_delete fs src n) by done. done.
Qed.

Lemma moves_nodes (S : string -> Prop) (fs fs' : FS) :
  rtc (move_from S) fs fs' -> nodes fs' ≡ₚ nodes fs.
Proof.
  induction 1 as [|fs fs1 fs2 Hmove _ IH]; [done|].
  rewrite IH. by eapply move_nodes.
Qed.

(** A path on disk that no rename may take as its source stays as it is. *)
Lemma moves_frame (S : string -> Prop) (fs fs' : FS) (p : string) :
  rtc (move_from S) fs fs' -> is_Some (fs !! p) -> ~ S p -> fs' !! p = fs !! p.
Proof.
  induction 1 as [|fs fs1 fs2 (src & dst & n & Hs & Hsrc & Hdst & ->) _ IH];
    [done|]. intros Hon Hnot.
  assert (<[dst := n]> (delete src fs) !! p = fs !! p) as Hsame.
  { rewrite lookup_insert_ne by (intros ->; rewrite Hdst in Hon; by destruct Hon).
    apply lookup_delete_ne. by intros ->. }
  rewrite IH; [done| |done]. by rewrite Hsame.
Qed.

Context (gen : nat -> FS -> string -> string -> string).

(** The generator keeps its promise in every directory. *)
Hypothesis gen_unused_anywhere : forall n fs current_dir extension,
  fs !! gen n fs current_dir extension = None.

(** Whatever way an iteration ends, the disk it leaves comes from the disk
    it found by renames of paths of the list onto free paths, and a name
    new in the list was not on disk. *)
Lemma iteration_moves (current_dir : string) (d j : Z) (a : nat)
    (w w' : world) (fl fl' : list string) (o : flow) :
  iteration gen current_dir d j a w fl = (o, w', fl') ->
  rtc (move_from (fun s => s ∈ fl)) (disk w) (disk w')
  /\ (forall s, s ∈ fl' -> s ∈ fl \/ disk w !! s = None)
  /\ length fl' = length fl.
Proof.
  unfold iteration. destruct (fl !! a) as [src|] eqn:Hsrc.
  2: { intros ?; simplify_eq. split; [done|]. split; [by left|done]. }
  assert (src ∈ fl) as Hin by by apply list_elem_of_lookup_2 in Hsrc.
  set (dst := dst_filename current_dir d j src).
  set (tmp := gen (draws w) (disk w) current_dir (OsPath.splitext src).2).
  destruct (decide (src = dst)) as [Heq|Hne].
  { intros ?; simplify_eq. split; [done|]. split; [by left|done]. }
  destruct (Os.path_exists (disk w) dst) eqn:Hex.
  - apply path_exists_true in Hex as [m Hm].
    assert (disk w !! tmp = None) as Htmp by apply gen_unused_anywhere.
    assert (tmp <> dst) as Htd by congruence.
    destruct (index dst fl) as [i|] eqn:Hi.
    2: { intros ?; simplify_eq. split; [done|]. split; [by left|done]. }
    apply index_Some in Hi as [Hi _].
    assert (dst ∈ fl) as Hdin by by apply list_elem_of_lookup_2 in Hi.
    assert (forall s, s ∈ <[i := tmp]> fl -> s ∈ fl \/ disk w !! s = None) as Hlist.
    { intros s [->|?]%elem_of_insert_inv; [by right|by left]. }
    simpl. destruct (Os.rename _ dst tmp) as [fs1|] eqn:Hrp.
    2: { intros ?; simplify_eq. simpl. split; [done|]. split; [done|by rewrite length_insert]. }
    apply rename_Some in Hrp as (m' & Hm' & ->).
    assert (m' = m) as -> by congruence.
    assert (move_from (fun s => s ∈ fl) (disk w) (<[tmp := m]> (delete dst (disk w))))
      as Hpark by by exists dst, tmp, m.
    unfold rename_file. simpl.
    destruct (Os.rename _ src dst) as [fs3|] eqn:Hr.
    + apply rename_Some in Hr as (n & Hn & ->). intros ?; simplify_eq. simpl.
      split; [|split; [done|by rewrite length_insert]].
      eapply rtc_l; [exact Hpark|]. apply rtc_once. exists src, dst, n.
      repeat split; try done.
      rewrite lookup_insert_ne by done. apply lookup_delete_eq.
    + intros ?; simplify_eq. simpl.
      split; [by apply rtc_once|]. split; [done|by rewrite length_insert].
  - apply path_exists_false in Hex. unfold rename_file.
    destruct (Os.rename _ src dst) as [fs3|] eqn:Hr.
    + apply rename_Some in Hr as (n & Hn & ->). intros ?; simplify_eq. simpl.
      split; [|split; [by left|done]]. apply rtc_once. by exists src, dst, n.
    + intros ?; simplify_eq. split; [done|]. split; [by left|done].
Qed.

Lemma iteration_frame (current_dir : string) (d j : Z) (a : nat)
    (w w' : world) (fl fl' : list string) (o : flow) (p : string) :
  iteration gen current_dir d j a w fl = (o, w', fl') ->
  is_Some (disk w !! p) -> p ∉ fl ->
  disk w' !! p = disk w !! p /\ p ∉ fl'.
Proof.
  intros (Hmoves & Hlist & _)%iteration_moves Hon Hnot. split.
  - by eapply moves_frame.
  - intros [?|Hnone]%Hlist; [done|]. rewrite Hnone in Hon. by destruct Hon.
Qed.

Lemma loop_nodes_frame (current_dir : string) (d : Z) (items : list (Z * nat)) :
  forall (w w' : world) (fl fl' : list string) (o : flow),
    loop gen current_dir d items w fl = (o, w', fl') ->
    nodes (disk w') ≡ₚ nodes (disk w)
    /\ length fl' = length fl
    /\ forall p, is_Some (disk w !! p) -> p ∉ fl ->
         disk w' !! p = disk w !! p /\ p ∉ fl'.
Proof.
  induction items as [|[j a] items IH]; intros w w' fl fl' o Hloop; simpl in Hloop.
  { by simplify_eq. }
  destruct (iteration gen current_dir d j a w fl) as [[o1 w1] fl1] eqn:Hit.
  pose proof (iteration_moves _ _ _ _ _ _ _ _ _ Hit) as (Hmoves & _ & Hlen).
  assert (forall p, is_Some (disk w !! p) -> p ∉ fl ->
            disk w1 !! p = disk w !! p /\ p ∉ fl1) as Hframe
    by (intros p; by eapply iteration_frame).
  apply moves_nodes in Hmoves.
  destruct o1; simplify_eq; try done.
  destruct (IH _ _ _ _ _ Hloop) as (Hn & Hl & Hf).
  split; [by rewrite Hn|]. split; [congruence|].
  intros p Hon Hnot. destruct (Hframe p Hon Hnot) as [Hsame Hnot1].
  destruct (Hf p) as [Hsame' Hnot']; [by rewrite Hsame|done|].
  split; [congruence|done].
Qed.


Lemma endswith_join (e a b : string) :
  PyStr.endswith e b = true -> PyStr.endswith e (OsPath.join a b) = true.
Proof.
  intros H. unfold OsPath.join. destruct (PyStr.startswith "/" b); [done|].
  destruct (_ || _); repeat apply endswith_app; done.
Qed.

(** The paths of a batch end with one of the extensions. *)
Lemma batch_of_endswith (self : ImageRenamer) (current_dir : string)
    (files : list string) (f : string) :
  f ∈ batch_of self current_dir files ->
  PyStr.endswith_any (extensions self) f = true.
Proof.
  unfold batch_of. intros Hin.
  apply list_elem_of_In, in_map_iff in Hin as (name & <- & Hin).
  apply list_elem_of_In, list_elem_of_filter in Hin as [Hext _].
  unfold PyStr.endswith_any in *. apply existsb_exists in Hext as (e & He & Hend).
  apply existsb_exists. exists e. split; [done|]. by apply endswith_join.
Qed.

Lemma walk_nodes_frame (self : ImageRenamer) (total_dirs fuel : nat) :
  forall (i : nat) (stack : list string) (w w' : world) (o : outcome),
    walk_loop gen self total_dirs fuel i stack w = (o, w') ->
    nodes (disk w') ≡ₚ nodes (disk w)
    /\ forall p, is_Some (disk w !! p) ->
         PyStr.endswith_any (extensions self) p = false ->
         disk w' !! p = disk w !! p.
Proof.
  induction fuel as [|fuel IH]; intros i stack w w' o Hwalk.
  { simpl in Hwalk. by simplify_eq. }
  destruct stack as [|current_dir stack].
  { simpl in Hwalk. by simplify_eq. }
  rewrite walk_loop_unfold in Hwalk. cbv zeta in Hwalk.
  set (fl := batch_of self current_dir (Os.walk_files (disk w) current_dir)) in *.
  assert (forall p, PyStr.endswith_any (extensions self) p = false -> p ∉ fl) as Hout.
  { intros p Hp Hin%batch_of_endswith. congruence. }
  destruct fl as [|f fl'] eqn:Efl.
  { apply IH in Hwalk. exact Hwalk. }
  rewrite <- Efl in *. clear Efl.
  destruct (rename_batch _ _ _ _ _ _ _) as [[o1 w1] fl1] eqn:Hb.
  apply loop_nodes_frame in Hb as (Hn & _ & Hf). simpl in Hn, Hf.
  destruct o1; simplify_eq.
  - apply IH in Hwalk as [Hn' Hf']. simpl in Hn', Hf'.
    split; [by rewrite Hn'|]. intros p Hon Hp.
    destruct (Hf p Hon (Hout p Hp)) as [Hsame _].
    rewrite Hf'; [done|by rewrite Hsame|done].
  - split; [done|]. intros p Hon Hp. by destruct (Hf p Hon (Hout p Hp)).
  - split; [done|]. intros p Hon Hp. by destruct (Hf p Hon (Hout p Hp)).
Qed.

(** The three ways through [rename]. *)
Lemma rename_cases (self : ImageRenamer) (answer : UserResponse)
    (w w' : world) (o : outcome) :
  rename gen self answer w = (o, w') ->
  (o = Invalid /\ (_input_is_valid self (disk w)).1 = false
   /\ disk w' = disk w /\ calls w' = calls w)
  \/ (o = Declined /\ yes self = false /\ answer = NO
      /\ disk w' = disk w /\ calls w' = calls w)
  \/ ((_input_is_valid self (disk w)).1 = true
      /\ (yes self = true \/ answer = YES)
      /\ exists total_dirs w0,
           disk w0 = disk w /\ calls w0 = calls w
           /\ walk_loop gen self total_dirs (S (size (disk w))) 0
                [target_dir self] w0 = (o, w')).
Proof.
  unfold rename. destruct (_input_is_valid self (disk w)) as [[] errors]; cbn [negb fst].
  - destruct (yes self), answer; cbn [negb andb]; intros H.
    + right; right. split; [done|]. split; [by left|]. 
      refine (ex_intro _ _ (ex_intro _ _ (conj _ (conj _ H)))); reflexivity.
    + right; right. split; [done|]. split; [by left|]. 
      refine (ex_intro _ _ (ex_intro _ _ (conj _ (conj _ H)))); reflexivity.
    + right; right. split; [done|]. split; [by right|]. 
      refine (ex_intro _ _ (ex_intro _ _ (conj _ (conj _ H)))); reflexivity.
    + right; left. by simplify_eq.
  - intros H. left. by simplify_eq.
Qed.

(** X2: however a run ends, the disk holds the same nodes as before, each
    as many times: no file is lost, replaced or copied; only paths
    change. The generator is taken to return unused names. *)
Theorem run_keeps_every_file (self : ImageRenamer) (answer : UserResponse)
    (w w' : world) (o : outcome) :
  rename gen self answer w = (o, w') ->
  nodes (disk w') ≡ₚ nodes (disk w).
Proof.
  intros [(_ & _ & -> & _)|[(_ & _ & _ & -> & _)
         |(_ & _ & total & w0 & <- & _ & Hwalk)]]%rename_cases; [done..|].
  by apply walk_nodes_frame in Hwalk as [Hn _].
Qed.

(** X3: a path that is on disk and does not end with one of the
    extensions names the same node after the run as before, however the
    run ends: files of other kinds and directories are never renamed. The
    generator is taken to return unused names. *)
Theorem run_leaves_other_paths (self : ImageRenamer) (answer : UserResponse)
    (w w' : world) (o : outcome) (p : string) :
  rename gen self answer w = (o, w') ->
  is_Some (disk w !! p) ->
  PyStr.endswith_any (extensions self) p = false ->
  disk w' !! p = disk w !! p.
Proof.
  intros [(_ & _ & -> & _)|[(_ & _ & _ & -> & _)
         |(_ & _ & total & w0 & <- & _ & Hwalk)]]%rename_cases Hon Hp; [done..|].
  apply walk_nodes_frame in Hwalk as [_ Hf]. by apply Hf.
Qed.

End Moves.

(** ** Where the files of a batch end up *)

Section Placement.

Context (gen : nat -> FS -> string -> string -> string).
Context (current_dir : string) (d initial_number st : Z).
Context (w0 : world) (fl0 : list string).

Hypothesis gen_unused : forall n fs extension,
  fs !! gen n fs current_dir extension = None.

Hypothesis gen_not_target : forall n fs extension j f,
  gen n fs current_dir extension <> dst_filename current_dir d j f.

Hypothesis step_positive : (0 < st)%Z.

(** The files of the batch are on disk when it starts, each once in the
    list. *)
Hypothesis batch_on_disk : forall f, f ∈ fl0 -> is_Some (disk w0 !! f).
Hypothesis batch_distinct : NoDup fl0.

Local Abbreviation target k g :=
  (dst_filename current_dir d (number_at initial_number st k) g).
Local Abbreviation Inv := (placed_inv current_dir d initial_number st w0 fl0).

Lemma placed_start : Inv 0 w0 fl0.
Proof.
  constructor.
  - apply batch_inv_start.
  - done.
  - intros k f g Hk. lia.
  - intros q f g _ Hf Hg. congruence.
  - intros q q' g _ _ Hq Hq'. by eapply NoDup_lookup.
  - intros k q g h Hk. lia.
  - intros name Hon. destruct (decide (name ∈ fl0)) as [Hin|Hnot].
    + right; right. apply list_elem_of_lookup_1 in Hin as [q Hq].
      exists q. split; [lia|done].
    + by left.
Qed.

(** A name still to come is on disk. *)
Lemma pending_on_disk (a q : nat) (w : world) (fl : list string) (g : string) :
  Inv a w fl -> a <= q -> fl !! q = Some g -> is_Some (disk w !! g).
Proof.
  intros [_ Hlen _ Hpend _ _ _] Hq Hg.
  destruct (lookup_lt_is_Some_2 fl0 q) as [f Hf].
  { rewrite <- Hlen. by apply lookup_lt_Some in Hg. }
  rewrite (Hpend q f g) by done.
  apply batch_on_disk. by apply list_elem_of_lookup_2 in Hf.
Qed.

(** An occupied target is recorded at a position still to come. *)
Lemma occupant_is_pending (a i : nat) (w : world) (fl : list string) (src : string) :
  Inv a w fl -> fl !! a = Some src -> src <> target a src ->
  is_Some (disk w !! target a src) -> fl !! i = Some (target a src) -> a < i.
Proof.
  intros [[Hstale _ _ _] _ _ _ _ _ _] Hsrc Hne Hon Hi.
  destruct (lt_eq_lt_dec i a) as [[Hlt| ->]|]; [|congruence|done].
  exfalso. by apply (Hstale i (target a src) a src).
Qed.


Lemma placed_step (a : nat) (w w' : world) (fl fl' : list string) :
  a < length fl ->
  Inv a w fl ->
  iteration gen current_dir d (number_at initial_number st a) a w fl = (Next, w', fl') ->
  Inv (S a) w' fl'.
Proof.
  intros Hlen Hinv Hit.
  destruct (batch_inv_step gen current_dir d initial_number st gen_unused
              gen_not_target step_positive w0 fl0 a w w' fl fl' Hlen)
    as [Hbase' Hlen']; [by destruct Hinv|done|].
  destruct (lookup_lt_is_Some_2 fl a Hlen) as [src Hsrc].
  assert (is_Some (disk w !! src)) as Hsrc_on by by eapply pending_on_disk.
  assert (forall q g, a <= q -> fl !! q = Some g -> is_Some (disk w !! g)) as Hpend_on.
  { intros q g ? ?. by eapply pending_on_disk. }
  assert (forall i, src <> target a src -> is_Some (disk w !! target a src) ->
            fl !! i = Some (target a src) -> a < i) as Hlater.
  { intros i. by apply occupant_is_pending. }
  destruct Hinv as [Hbase Hl Hdone Hpend Hdist Hapart Hdisk].
  assert (forall k f g, k < a -> fl0 !! k = Some f -> fl !! k = Some g ->
            is_Some (disk w !! target k g)) as Hdone_on.
  { intros k f g Hk Hf Hg. rewrite (Hdone k f g) by done.
    apply batch_on_disk. by apply list_elem_of_lookup_2 in Hf. }
  assert (forall k, k < a -> is_Some (fl0 !! k)) as Hfl0.
  { intros k Hk. apply lookup_lt_is_Some_2. lia. }
  pose proof (iteration_next gen current_dir d gen_unused _ _ _ _ _ _ _ Hsrc Hit)
    as Hcases. cbv zeta in Hcases.
  set (tmp := gen (draws w) (disk w) current_dir (OsPath.splitext src).2) in *.
  destruct Hcases as [(Heq & -> & ->)
                     |[(Hne & Hfree & -> & Hcalls & n & Hn & Hd)
                      |(Hne & Htd & i & m & n & Hm & Hi & -> & Hcalls & Hn & Hd)]].
  - (* the file is already named *)
    constructor; try done.
    + intros k f g Hk Hf Hg. destruct (decide (k = a)) as [->|]; [|apply Hdone; [lia|done..]].
      simplify_eq. rewrite <- Heq. by apply (Hpend a).
    + intros q f g Hq. apply Hpend. lia.
    + intros q q' g Hq Hq'. apply Hdist; lia.
    + intros k q g h Hk Hq Hg Hh. destruct (decide (k = a)) as [->|]; [|apply (Hapart k q); [lia|lia|done..]].
      simplify_eq. rewrite <- Heq. intros ->.
      assert (q = a) by (apply (Hdist q a src); [lia|lia|done..]). lia.
    + intros name Hon. destruct (Hdisk name Hon) as [?|[(k & g & Hk & Hg & ->)|(q & Hq & Hfl)]].
      * by left.
      * right; left. exists k, g. split; [lia|done].
      * destruct (decide (q = a)) as [->|].
        -- right; left. exists a, src. split; [lia|]. split; [done|]. congruence.
        -- right; right. exists q. split; [lia|done].
  - (* the target is free *)
    assert (forall x, disk w' !! x
              = if decide (x = (target a src)) then Some n else if decide (x = src) then None
                else disk w !! x) as Hlook by (intros x; by rewrite Hd, moved_lookup).
    constructor; try done.
    + intros k f g Hk Hf Hg. rewrite Hlook. destruct (decide (k = a)) as [->|].
      * simplify_eq. rewrite decide_True by done. rewrite <- Hn. by apply (Hpend a).
      * rewrite decide_False by (apply target_at_distinct; [done|lia]).
        rewrite decide_False by (intros Heq; by apply (Hapart k a g src); [lia|lia|..]).
        apply Hdone; [lia|done..].
    + intros q f g Hq Hf Hg. rewrite Hlook.
      rewrite decide_False.
      2: { intros ->. destruct (Hpend_on q (target a src)) as [? Hx]; [lia|done|]. congruence. }
      rewrite decide_False.
      2: { intros ->. assert (q = a) by (apply (Hdist q a src); [lia|lia|done..]). lia. }
      apply (Hpend q); [lia|done..].
    + intros q q' g Hq Hq'. apply Hdist; lia.
    + intros k q g h Hk Hq Hg Hh. destruct (decide (k = a)) as [->|].
      * simplify_eq. intros ->.
        destruct (Hpend_on q (target a src)) as [? Hx]; [lia|done|]. congruence.
      * apply (Hapart k q); [lia|lia|done..].
    + intros name Hon. rewrite Hlook in Hon.
      destruct (decide (name = (target a src))) as [->|].
      { right; left. exists a, src. split; [lia|done]. }
      destruct (decide (name = src)) as [->|]; [by destruct Hon|].
      destruct (Hdisk name Hon) as [?|[(k & g & Hk & Hg & ->)|(q & Hq & Hfl)]].
      * by left.
      * right; left. exists k, g. split; [lia|done].
      * right; right. exists q. split; [|done].
        destruct (decide (q = a)) as [->|]; [congruence|lia].
  - (* the target is occupied *)
    apply index_Some in Hi as [Hi _].
    assert (a < i) as Hai by (apply Hlater; [done|by rewrite Hm|done]).
    assert (i < length fl) as Hilen by by apply lookup_lt_Some in Hi.
    assert (disk w !! tmp = None) as Htmp by apply gen_unused.
    assert (forall k g, tmp <> target k g) as Htmp_target by (intros; apply gen_not_target).
    clearbody tmp.
    assert (src <> tmp) as Hst by (intros Heq; rewrite Heq, Htmp in Hsrc_on; by destruct Hsrc_on).
    assert (disk w !! src = Some n) as Hn'.
    { rewrite lookup_insert_ne, lookup_delete_ne in Hn by done. done. }
    assert (forall x, disk w' !! x
              = if decide (x = (target a src)) then Some n else if decide (x = src) then None
                else if decide (x = tmp) then Some m else disk w !! x) as Hlook.
    { intros x. rewrite Hd, moved_lookup. repeat case_decide; try done.
      - subst. by rewrite lookup_insert_eq.
      - rewrite lookup_insert_ne, lookup_delete_ne by done. done. }
    assert (forall k, k <= a -> <[i := tmp]> fl !! k = fl !! k) as Hlow.
    { intros k Hk. apply list_lookup_insert_ne. lia. }
    constructor; try done.
    + congruence.
    + intros k f g Hk Hf Hg. rewrite Hlow in Hg by lia. rewrite Hlook.
      destruct (decide (k = a)) as [->|].
      * simplify_eq. rewrite decide_True by done. rewrite <- Hn'. by apply (Hpend a).
      * rewrite decide_False by (apply target_at_distinct; [done|lia]).
        rewrite decide_False by (intros Heq; by apply (Hapart k a g src); [lia|lia|..]).
        rewrite decide_False.
        2: { intros Heq. destruct (Hdone_on k f g) as [? Hx]; [lia|done..|]. congruence. }
        apply Hdone; [lia|done..].
    + intros q f g Hq Hf Hg. rewrite Hlook.
      destruct (decide (q = i)) as [->|Hqi].
      * rewrite list_lookup_insert_eq in Hg by done. injection Hg as <-.
        rewrite decide_False by done. rewrite decide_False by done.
        rewrite decide_True by done. rewrite <- Hm. apply (Hpend i); [lia|done..].
      * rewrite list_lookup_insert_ne in Hg by done.
        rewrite decide_False.
        2: { intros ->. apply Hqi. apply (Hdist q i (target a src)); [lia|lia|done..]. }
        rewrite decide_False.
        2: { intros ->. assert (q = a) by (apply (Hdist q a src); [lia|lia|done..]). lia. }
        rewrite decide_False.
        2: { intros ->. destruct (Hpend_on q tmp) as [? Hx]; [lia|done|]. congruence. }
        apply (Hpend q); [lia|done..].
    + intros q q' g Hq Hq' Hg Hg'.
      destruct (decide (q = i)) as [->|Hqi], (decide (q' = i)) as [->|Hqi']; [done|..].
      * rewrite list_lookup_insert_eq in Hg by done. injection Hg as <-.
        rewrite list_lookup_insert_ne in Hg' by done.
        destruct (Hpend_on q' tmp) as [? Hx]; [lia|done|]. congruence.
      * rewrite list_lookup_insert_eq in Hg' by done. injection Hg' as <-.
        rewrite list_lookup_insert_ne in Hg by done.
        destruct (Hpend_on q tmp) as [? Hx]; [lia|done|]. congruence.
      * rewrite list_lookup_insert_ne in Hg, Hg' by done.
        apply (Hdist q q' g); [lia|lia|done..].
    + intros k q g h Hk Hq Hg Hh. rewrite Hlow in Hg by lia.
      destruct (decide (q = i)) as [->|Hqi].
      * rewrite list_lookup_insert_eq in Hh by done. injection Hh as <-.
        destruct (decide (k = a)) as [->|]; [|apply Htmp_target].
        rewrite Hsrc in Hg. by injection Hg as <-.
      * rewrite list_lookup_insert_ne in Hh by done.
        destruct (decide (k = a)) as [->|].
        -- simplify_eq. intros ->. apply Hqi.
           apply (Hdist q i (target a src)); [lia|lia|done..].
        -- apply (Hapart k q); [lia|lia|done..].
    + intros name Hon. rewrite Hlook in Hon.
      destruct (decide (name = (target a src))) as [->|].
      { right; left. exists a, src. split; [lia|]. by rewrite Hlow. }
      destruct (decide (name = src)) as [->|]; [by destruct Hon|].
      destruct (decide (name = tmp)) as [->|].
      { right; right. exists i. split; [lia|]. by apply list_lookup_insert_eq. }
      destruct (Hdisk name Hon) as [?|[(k & g & Hk & Hg & ->)|(q & Hq & Hfl)]].
      * by left.
      * right; left. exists k, g. split; [lia|]. by rewrite Hlow by lia.
      * right; right. exists q.
        destruct (decide (q = a)) as [->|]; [congruence|]. split; [lia|].
        rewrite list_lookup_insert_ne; [done|]. intros ->. congruence.
Qed.


(** Under the invariant an iteration that goes on to the next file keeps
    it, and one that returns has found a target that a foreign entry
    occupies. *)
Lemma placed_iteration (a : nat) (w w' : world) (fl fl' : list string) (o : flow) :
  a < length fl ->
  Inv a w fl ->
  iteration gen current_dir d (number_at initial_number st a) a w fl = (o, w', fl') ->
  match o with
  | Next => Inv (S a) w' fl'
  | Return => exists g, fl !! a = Some g /\ foreign w0 fl0 (target a g)
                /\ disk w' = disk w /\ calls w' = calls w /\ fl' = fl
  | Raise => True
  end.
Proof.
  intros Hlen Hinv Hit. destruct o.
  - by eapply placed_step.
  - apply iteration_return in Hit as (g & Hg & Hne & Hex & Hidx & -> & ->).
    exists g. split; [done|]. split; [|done].
    apply path_exists_true in Hex. apply index_None in Hidx.
    destruct Hinv as [_ _ _ _ _ _ Hdisk].
    destruct (Hdisk _ Hex) as [?|[(k & h & Hk & Hh & Heq)|(q & Hq & Hfl)]]; [done|..].
    + exfalso. revert Heq. apply target_at_distinct; [done|lia].
    + exfalso. apply Hidx. by apply list_elem_of_lookup_2 in Hfl.
  - done.
Qed.

Lemma placed_loop (n : nat) :
  forall (a : nat) (w w1 : world) (fl fl1 : list string) (o : flow),
    length fl = a + n ->
    Inv a w fl ->
    loop gen current_dir d
         (enumerate_with_step (seq a n) (number_at initial_number st a) st) w fl
      = (o, w1, fl1) ->
    match o with
    | Next => Inv (a + n) w1 fl1
    | Return => exists p g w2 fl2,
        a <= p /\ Inv p w2 fl2 /\ fl2 !! p = Some g
        /\ foreign w0 fl0 (target p g)
        /\ disk w1 = disk w2 /\ calls w1 = calls w2 /\ fl1 = fl2
    | Raise => True
    end.
Proof.
  induction n as [|n IH]; intros a w w1 fl fl1 o Hlen Hinv Hloop.
  - simpl in Hloop. simplify_eq. by rewrite Nat.add_0_r.
  - simpl in Hloop.
    destruct (iteration _ _ _ _ _ _ _) as [[o' w'] fl'] eqn:Hit.
    pose proof (placed_iteration a w w' fl fl' o' ltac:(lia) Hinv Hit) as Hstep.
    destruct o'; simplify_eq; [|by destruct Hstep as (g & ? & ? & ? & ? & ?); exists a, g, w, fl|done].
    replace (number_at initial_number st a + st)%Z
      with (number_at initial_number st (S a)) in Hloop by (unfold number_at; lia).
    assert (length fl' = S a + n) as Hlen'.
    { destruct Hstep as [_ Hl _ _ _ _ _]. destruct Hinv as [_ Hl0 _ _ _ _ _]. lia. }
    pose proof (IH (S a) w' w1 fl' fl1 o Hlen' Hstep Hloop) as Hrest.
    destruct o; [by replace (a + S n) with (S a + n) by lia| |done].
    destruct Hrest as (p & g & w2 & fl2 & Hp & ?). exists p, g, w2, fl2. split; [lia|done].
Qed.


(** X4: when a batch whose files are on disk, each once in its list,
    stops on the inconsistency error, the target it stopped on is held by
    an entry that was on disk before the batch began and is not one of its
    files; that entry is still there, unchanged. The generator is taken to
    return unused names that are never numbered targets. *)
Theorem batch_abort_means_foreign_occupant (w1 : world) (fl1 : list string) :
  rename_batch gen current_dir d initial_number st w0 fl0 = (Return, w1, fl1) ->
  exists p g,
    let occupied := dst_filename current_dir d (number_at initial_number st p) g in
    p < length fl0 /\ fl1 !! p = Some g
    /\ (occupied ∉ fl0)
    /\ is_Some (disk w0 !! occupied)
    /\ disk w1 !! occupied = disk w0 !! occupied.
Proof.
  unfold rename_batch. intros Hrun.
  pose proof (placed_loop (length fl0) 0 w0 w1 fl0 fl1 Return) as Hend.
  replace (number_at initial_number st 0) with initial_number in Hend
    by (unfold number_at; lia).
  destruct Hend as (p & g & w2 & fl2 & _ & Hinv & Hg & Hf & Hd & _ & ->);
    [done|apply placed_start|done|].
  exists p, g. destruct Hinv as [[_ _ _ Hforeign] Hlen _ _ _ _ _].
  split; [rewrite <- Hlen; by apply lookup_lt_Some in Hg|]. split; [done|].
  destruct (Hforeign _ Hf) as [Hsame _]. destruct Hf as [Hon Hnot].
  split; [done|]. split; [done|]. by rewrite Hd.
Qed.

(** The generator keeps the extension it is given. *)
Hypothesis gen_keeps_extension : forall n fs f,
  (OsPath.splitext (gen n fs current_dir (OsPath.splitext f).2)).2
  = (OsPath.splitext f).2.

Lemma iteration_extensions (j : Z) (a : nat) (w w' : world) (fl fl' : list string) :
  iteration gen current_dir d j a w fl = (Next, w', fl') ->
  forall q g', fl' !! q = Some g' ->
    exists g, fl !! q = Some g /\ (OsPath.splitext g').2 = (OsPath.splitext g).2.
Proof.
  intros Hit q g' Hq.
  destruct (fl !! a) as [src|] eqn:Hsrc.
  2: { unfold iteration in Hit. rewrite Hsrc in Hit. simplify_eq. by exists g'. }
  pose proof (iteration_next gen current_dir d gen_unused _ _ _ _ _ _ _ Hsrc Hit)
    as Hcases. cbv zeta in Hcases.
  destruct Hcases as [(_ & _ & ->)|[(_ & _ & -> & _)
                     |(_ & _ & i & m & n & _ & Hi & -> & _)]];
    [by exists g'..|].
  apply index_Some in Hi as [Hi _].
  apply list_lookup_insert_Some in Hq as [(<- & <- & _)|[_ Hq]]; [|by exists g'].
  eexists. split; [exact Hi|].
  rewrite gen_keeps_extension. symmetry. apply dst_filename_extension.
Qed.

Lemma loop_extensions (items : list (Z * nat)) :
  forall (w w1 : world) (fl fl1 : list string),
    loop gen current_dir d items w fl = (Next, w1, fl1) ->
    forall q g', fl1 !! q = Some g' ->
      exists g, fl !! q = Some g /\ (OsPath.splitext g').2 = (OsPath.splitext g).2.
Proof.
  induction items as [|[j a] items IH]; intros w w1 fl fl1 Hloop q g' Hq.
  - simpl in Hloop. simplify_eq. by exists g'.
  - simpl in Hloop.
    destruct (iteration _ _ _ _ _ _ _) as [[[] w'] fl'] eqn:Hit; try done.
    destruct (IH _ _ _ _ Hloop q g' Hq) as (g1 & Hg1 & He1).
    destruct (iteration_extensions _ _ _ _ _ _ Hit q g1 Hg1) as (g & Hg & He).
    exists g. split; [done|congruence].
Qed.

(** Where a batch that runs to its end has put each of its files. *)
Lemma batch_placement (w1 : world) (fl1 : list string) (p : nat) (f : string) :
  rename_batch gen current_dir d initial_number st w0 fl0 = (Next, w1, fl1) ->
  fl0 !! p = Some f ->
  disk w1 !! dst_filename current_dir d (number_at initial_number st p) f
  = disk w0 !! f.
Proof.
  unfold rename_batch. intros Hrun Hf.
  pose proof (placed_loop (length fl0) 0 w0 w1 fl0 fl1 Next) as Hend.
  replace (number_at initial_number st 0) with initial_number in Hend
    by (unfold number_at; lia).
  destruct Hend as [_ Hlen Hdone _ _ _ _]; [done|apply placed_start|done|].
  destruct (lookup_lt_is_Some_2 fl1 p) as [g Hg].
  { rewrite Hlen. by apply lookup_lt_Some in Hf. }
  destruct (loop_extensions _ _ _ _ _ Hrun p g Hg) as (f' & Hf' & Hext).
  assert (f' = f) as -> by congruence.
  rewrite <- (Hdone p f g); [|by apply lookup_lt_Some in Hf|done..].
  unfold dst_filename. by rewrite Hext.
Qed.

(** X5: a batch that runs to its end has put every file at its number:
    the file at position [p] of the batch as first listed is found at the
    path of number [initial_number + p * step], with its own extension and
    its own content, also when it was parked under a temporary name on the
    way. The generator is taken to return unused names that are never
    numbered targets and keep the extension. *)
Theorem batch_numbers_every_file (w1 : world) (fl1 : list string) (p : nat) (f : string) :
  rename_batch gen current_dir d initial_number st w0 fl0 = (Next, w1, fl1) ->
  fl0 !! p = Some f ->
  disk w1 !! dst_filename current_dir d (number_at initial_number st p) f
  = disk w0 !! f.
Proof. apply batch_placement. Qed.

(** The directory of the batch is on disk and not one of the files of the
    batch, and the generator returns entries of the directory, as asked. *)
Hypothesis dir_on_disk : disk w0 !! current_dir = Some Dir.
Hypothesis dir_not_listed : current_dir ∉ fl0.
Hypothesis gen_inside : forall n fs f,
  inside current_dir (gen n fs current_dir (OsPath.splitext f).2).





End Placement.

(** ** The batch of a directory *)

Section Listing.

(** The entries listed for a directory are the paths of the disk made of
    its prefix and a name without separator. *)
Lemma scandir_elem (fs : FS) (d name : string) (n : node) :
  (name, n) ∈ Os.scandir fs d
  <-> fs !! (Os.dir_prefix d ++ name) = Some n
      /\ name <> "" /\ PyStr.contains "/" name = false.
Proof.
  unfold Os.scandir. rewrite list_elem_of_omap. split.
  - intros ([path n'] & Hin & Hf). apply elem_of_map_to_list in Hin.
    destruct (PyStr.startswith _ _) eqn:Hpre; [|done].
    destruct (String.eqb _ "") eqn:Hne; [done|].
    destruct (PyStr.contains _ _) eqn:Hsep; [done|]. simpl in Hf. simplify_eq.
    apply prefix_drop in Hpre. rewrite Hpre.
    split; [done|]. split; [by apply String.eqb_neq|done].
  - intros (Hfs & Hne & Hsep). exists (Os.dir_prefix d ++ name, n).
    split; [by apply elem_of_map_to_list|].
    unfold PyStr.startswith. rewrite prefix_self, drop_app_length, Hsep.
    by rewrite (proj2 (String.eqb_neq _ _)).
Qed.

Lemma NoDup_omap_inj {A B : Type} (f : A -> option B) (l : list A) :
  (forall x y z, f x = Some z -> f y = Some z -> x = y) ->
  NoDup l -> NoDup (omap f l).
Proof.
  intros Hinj. induction 1 as [|x l Hnot Hnd IH]; simpl; [constructor|].
  destruct (f x) as [z|] eqn:Hx; [|done]. constructor; [|done].
  intros (y & Hy & Hfy)%list_elem_of_omap.
  by rewrite (Hinj x y z) in Hnot.
Qed.

Lemma scandir_names_NoDup (fs : FS) (d : string) : NoDup (Os.scandir fs d).*1.
Proof.
  apply NoDup_fmap_fst.
  - intros name n1 n2 [H1 _]%scandir_elem [H2 _]%scandir_elem. congruence.
  - apply NoDup_omap_inj; [|apply NoDup_map_to_list].
    intros [p1 n1] [p2 n2] [name n] H1 H2.
    destruct (PyStr.startswith _ p1) eqn:Hp1; [|done].
    destruct (PyStr.startswith _ p2) eqn:Hp2; [|done].
    apply prefix_drop in Hp1, Hp2.
    cbv zeta in H1, H2. rewrite andb_true_l in H1, H2.
    destruct (negb _ && negb _); [|done]. destruct (negb _ && negb _); [|done].
    simplify_eq. congruence.
Qed.

(** The files [os.walk] lists for a directory: the regular files of the
    disk directly inside it, each once. *)
Lemma walk_files_elem (fs : FS) (d name : string) :
  name ∈ Os.walk_files fs d
  <-> (exists c, fs !! (Os.dir_prefix d ++ name) = Some (File c))
      /\ name <> "" /\ PyStr.contains "/" name = false.
Proof.
  unfold Os.walk_files. rewrite list_elem_of_fmap. split.
  - intros ([name' n] & -> & [Hfile Hin]%list_elem_of_filter).
    apply scandir_elem in Hin as (Hfs & Hne & Hsep). simpl in *.
    destruct n as [c|]; [|done]. split; [by exists c|done].
  - intros ([c Hfs] & Hne & Hsep). exists (name, File c). split; [done|].
    apply list_elem_of_filter. split; [done|]. by apply scandir_elem.
Qed.

Lemma walk_files_NoDup (fs : FS) (d : string) : NoDup (Os.walk_files fs d).
Proof.
  unfold Os.walk_files. eapply sublist_NoDup; [apply scandir_names_NoDup|].
  apply fmap_sublist, sublist_filter.
Qed.

Lemma insert_perm (x : string) (l : list string) : Natural.insert x l ≡ₚ x :: l.
Proof.
  induction l as [|y l IH]; simpl; [done|].
  destruct (Natural.key_lt y x); [|done]. rewrite IH. apply Permutation_swap.
Qed.

(** Sorting keeps the names, each as often as before. *)
Lemma sorted_perm (files : list string) : Natural.sorted files ≡ₚ files.
Proof.
  unfold Natural.sorted. induction files as [|x l IH]; simpl; [done|].
  by rewrite insert_perm, IH.
Qed.

(** The batch lists each path once: the regular files directly inside the
    directory whose name ends with one of the extensions. *)
Lemma batch_of_spec (self : ImageRenamer) (fs : FS) (current_dir : string) :
  let filenames := batch_of self current_dir (Os.walk_files fs current_dir) in
  NoDup filenames
  /\ forall path, path ∈ filenames
       <-> exists name c,
             path = OsPath.join current_dir name
             /\ fs !! path = Some (File c)
             /\ name <> "" /\ PyStr.contains "/" name = false
             /\ PyStr.endswith_any (extensions self) name = true.
Proof.
  intros filenames. unfold filenames, batch_of.
  assert (forall name, name ∈ Os.walk_files fs current_dir ->
            OsPath.join current_dir name = Os.dir_prefix current_dir ++ name) as Hjoin.
  { intros name (_ & _ & Hsep)%walk_files_elem. by apply join_dir_prefix, relative_name. }
  split.
  - assert (NoDup (filter (fun filename => PyStr.endswith_any (extensions self) filename = true)
                          (Natural.sorted (Os.walk_files fs current_dir)))) as Hnd.
    { apply NoDup_filter. rewrite sorted_perm. apply walk_files_NoDup. }
    assert (forall name,
              name ∈ filter (fun filename => PyStr.endswith_any (extensions self) filename = true)
                            (Natural.sorted (Os.walk_files fs current_dir)) ->
              name ∈ Os.walk_files fs current_dir) as Hsub.
    { intros name [_ Hin]%list_elem_of_filter. by rewrite sorted_perm in Hin. }
    induction Hnd as [|name l Hnot Hnd IH]; simpl; [constructor|].
    constructor.
    + intros Hin. apply list_elem_of_In, in_map_iff in Hin as (name' & Heq & Hin').
      apply list_elem_of_In in Hin'.
      rewrite !Hjoin in Heq by (apply Hsub; (by left) || by right).
      apply (inj (String.append _)) in Heq. by subst.
    + apply IH. intros name' Hin'. apply Hsub. by right.
  - intros path. split.
    + intros Hin. apply list_elem_of_In, in_map_iff in Hin as (name & <- & Hin).
      apply list_elem_of_In, list_elem_of_filter in Hin as [Hext Hin].
      rewrite sorted_perm in Hin. pose proof (Hjoin name Hin) as Hj.
      apply walk_files_elem in Hin as ([c Hc] & Hne & Hsep).
      exists name, c. rewrite Hj. done.
    + intros (name & c & -> & Hc & Hne & Hsep & Hext).
      apply list_elem_of_In, in_map_iff. exists name. split; [done|].
      apply list_elem_of_In, list_elem_of_filter. split; [done|].
      rewrite sorted_perm. apply walk_files_elem.
      rewrite join_dir_prefix in Hc by by apply relative_name.
      split; [by exists c|done].
Qed.

(** X6: the batch of a directory holds exactly the regular files directly
    inside it whose name ends with one of the extensions, as paths joined
    to the directory, each once: sorting and filtering lose and repeat
    nothing, and directories and deeper entries are left out. *)
Theorem batch_lists_matching_files (self : ImageRenamer) (fs : FS) (current_dir : string) :
  let filenames := batch_of self current_dir (Os.walk_files fs current_dir) in
  NoDup filenames
  /\ forall path, path ∈ filenames
       <-> exists name c,
             path = OsPath.join current_dir name
             /\ fs !! path = Some (File c)
             /\ name <> "" /\ PyStr.contains "/" name = false
             /\ PyStr.endswith_any (extensions self) name = true.
Proof. apply batch_of_spec. Qed.

End Listing.

(** ** Validation, consent and the run as a whole *)

Section WholeRun.

(** What the validator accepts. *)
Lemma input_is_valid_iff (self : ImageRenamer) (fs : FS) :
  ((_input_is_valid self fs).1 = true
   <-> fs !! target_dir self = Some Dir
       /\ (3 <= digit self <= 9)%Z
       /\ Forall (fun e => PyStr.startswith "." e = true) (extensions self)
       /\ (0 <= initial_number self)%Z
       /\ (0 < step self)%Z)
  /\ ((_input_is_valid self fs).1 = true -> (_input_is_valid self fs).2 = []).
Proof.
  rewrite input_is_valid_spec. simpl. split.
  2: { by intros ?%bool_decide_eq_true. }
  unfold violations.
  rewrite !no_errors_app, !no_errors_violation, no_errors_extensions.
  rewrite !negb_involutive, !andb_true_iff, forallb_forall.
  unfold Validator.is_dir, Validator.is_in_range, Validator.is_positive_number,
    Validator.is_extension, Validator.is_bool.
  rewrite bool_decide_eq_true, andb_true_iff, Z.leb_le, Z.leb_le, Z.ltb_lt.
  rewrite Forall_forall.
  assert (negb (negb (initial_number self =? 0)%Z && negb (0 <? initial_number self)%Z) = true
          <-> (0 <= initial_number self)%Z) as ->.
  { destruct (Z.eqb_spec (initial_number self) 0), (Z.ltb_spec 0 (initial_number self));
      simpl; split; (done || lia). }
  split.
  - intros (? & ? & Hext & ? & ? & _). split; [done|]. split; [done|].
    split; [|done]. intros e He. apply Hext. by apply list_elem_of_In.
  - intros (? & ? & Hext & ? & ?). split; [done|]. split; [done|].
    split; [|done]. intros e He. apply Hext. by apply list_elem_of_In.
Qed.

(** X7: the validator accepts a configuration exactly when the target is
    a directory of the disk, the width is between 3 and 9, every extension
    starts with a dot, the initial number is zero or more and the step is
    positive; an accepted configuration logs no error. *)
Theorem validation_accepts_exactly (self : ImageRenamer) (fs : FS) :
  ((_input_is_valid self fs).1 = true
   <-> fs !! target_dir self = Some Dir
       /\ (3 <= digit self <= 9)%Z
       /\ Forall (fun e => PyStr.startswith "." e = true) (extensions self)
       /\ (0 <= initial_number self)%Z
       /\ (0 < step self)%Z)
  /\ ((_input_is_valid self fs).1 = true -> (_input_is_valid self fs).2 = []).
Proof. apply input_is_valid_iff. Qed.

Context (gen : nat -> FS -> string -> string -> string).

(** X8: a run issues a rename or changes the disk only if the
    configuration passed validation and the user consented, by the flag or
    by the answer to the prompt. *)
Theorem nothing_without_consent (self : ImageRenamer) (answer : UserResponse)
    (w w' : world) (o : outcome) :
  rename gen self answer w = (o, w') ->
  calls w' <> calls w \/ disk w' <> disk w ->
  (_input_is_valid self (disk w)).1 = true /\ (yes self = true \/ answer = YES).
Proof.
  intros [(_ & _ & Hd & Hc)|[(_ & _ & _ & Hd & Hc)|(Hv & Hy & _)]]%rename_cases;
    [intros [?|?]; congruence..|done].
Qed.

(** An iteration that goes on ticks the bar once and keeps the length of
    the list. *)
Lemma iteration_ticks (current_dir : string) (d j : Z) (a : nat)
    (w w' : world) (fl fl' : list string) :
  a < length fl ->
  iteration gen current_dir d j a w fl = (Next, w', fl') ->
  bar w' = S (bar w) /\ length fl' = length fl.
Proof.
  intros Ha. destruct (lookup_lt_is_Some_2 fl a Ha) as [src Hsrc].
  unfold iteration. rewrite Hsrc.
  assert (forall w1 fl1 s t, rename_file w1 fl1 s t = (Next, w', fl') ->
            bar w' = S (bar w1) /\ fl' = fl1) as Hfile.
  { intros w1 fl1 s t. unfold rename_file. destruct (Os.rename _ _ _); [|done].
    intros ?; by simplify_eq. }
  destruct (decide _); [by intros ?; simplify_eq|].
  destruct (Os.path_exists _ _); [|by intros [? ->]%Hfile].
  destruct (index _ _); [|done]. destruct (Os.rename _ _ _); [|done].
  intros [? ->]%Hfile. by rewrite length_insert.
Qed.

(** X9: a batch that runs to its end has ticked the progress bar once for
    each of its files, renamed or not. *)
Theorem bar_ticks_once_per_file (current_dir : string) (d initial_number st : Z)
    (w w' : world) (fl fl' : list string) :
  rename_batch gen current_dir d initial_number st w fl = (Next, w', fl') ->
  bar w' = bar w + length fl.
Proof.
  unfold rename_batch.
  assert (forall n a j w fl,
            length fl = a + n ->
            loop gen current_dir d (enumerate_with_step (seq a n) j st) w fl
              = (Next, w', fl') ->
            bar w' = bar w + n) as Hloop.
  { induction n as [|n IH]; intros a j w1 fl1 Hlen Hl; simpl in Hl.
    { simplify_eq. lia. }
    destruct (iteration _ _ _ _ _ _ _) as [[[] w2] fl2] eqn:Hit; try done.
    apply iteration_ticks in Hit as [Hb Hl2]; [|lia].
    rewrite (IH (S a) (j + st)%Z w2 fl2); [lia|lia|done]. }
  intros H. by apply (Hloop (length fl) 0 initial_number w fl).
Qed.

(** X10: a batch in which every file already has the numbered name of its
    position, with whatever extension, is left untouched: no rename is
    issued and the disk and the list stay as they are. *)
Theorem numbered_batch_is_left_alone (current_dir : string) (d initial_number st : Z)
    (w : world) (fl : list string) :
  (forall p g, fl !! p = Some g ->
     exists f, g = dst_filename current_dir d (number_at initial_number st p) f) ->
  exists w',
    rename_batch gen current_dir d initial_number st w fl = (Next, w', fl)
    /\ disk w' = disk w /\ calls w' = calls w /\ draws w' = draws w.
Proof.
  intros Hnamed. unfold rename_batch.
  assert (forall n a w,
            length fl = a + n ->
            exists w', loop gen current_dir d
                         (enumerate_with_step (seq a n) (number_at initial_number st a) st)
                         w fl = (Next, w', fl)
                       /\ disk w' = disk w /\ calls w' = calls w /\ draws w' = draws w)
    as Hloop.
  { induction n as [|n IH]; intros a w1 Hlen; simpl; [by exists w1|].
    destruct (lookup_lt_is_Some_2 fl a) as [g Hg]; [lia|].
    destruct (Hnamed a g Hg) as [f Hf].
    assert (g = dst_filename current_dir d (number_at initial_number st a) g) as Hfix.
    { clear -Hf. subst g. symmetry. apply dst_filename_extension. }
    unfold iteration. rewrite Hg. rewrite decide_True by done.
    replace (number_at initial_number st a + st)%Z
      with (number_at initial_number st (S a)) by (unfold number_at; lia).
    destruct (IH (S a) (tick w1)) as (w' & Hl & ? & ? & ?); [lia|]. by exists w'. }
  pose proof (Hloop (length fl) 0 w eq_refl) as Hend.
  replace (number_at initial_number st 0) with initial_number in Hend
    by (unfold number_at; lia).
  exact Hend.
Qed.

End WholeRun.

(** ** The walk comes to an end *)

Section Termination.

Lemma elem_of_dirs (fs : FS) (p : string) : p ∈ dirs fs <-> fs !! p = Some Dir.
Proof.
  unfold dirs. rewrite elem_of_dom. split.
  - intros [n [Hn Hd]%map_lookup_filter_Some]. simpl in Hd. by subst.
  - intros H. exists Dir. by apply map_lookup_filter_Some.
Qed.

Lemma dirs_eq (fs fs' : FS) :
  (forall p, fs' !! p = Some Dir <-> fs !! p = Some Dir) -> dirs fs' = dirs fs.
Proof. intros H. apply set_eq. intros p. by rewrite !elem_of_dirs. Qed.

Lemma pending_dirs_eq (fs fs' : FS) (stack : list string) :
  dirs fs' = dirs fs -> pending_dirs fs' stack = pending_dirs fs stack.
Proof. intros H. unfold pending_dirs, subdirs. by rewrite H. Qed.

(** A rename whose source is not a directory leaves the directories where
    they are, and its destination was not one. *)
Lemma rename_keeps_dirs (fs fs' : FS) (src dst : string) :
  Os.rename fs src dst = Some fs' -> fs !! src <> Some Dir ->
  (forall p, fs' !! p = Some Dir <-> fs !! p = Some Dir) /\ fs !! dst <> Some Dir.
Proof.
  unfold Os.rename. destruct (fs !! src) as [[c|]|] eqn:Hsrc; [|done..].
  destruct (Os.parent_exists fs dst); [|done]. simpl.
  intros H _.
  assert (fs !! dst <> Some Dir /\ fs' = <[dst := File c]> (delete src fs)) as [Hdst ->].
  { destruct (fs !! dst) as [[c'|]|]; by simplify_eq. }
  split; [|done]. intros p.
  destruct (decide (p = dst)) as [->|Hp].
  { rewrite lookup_insert_eq. split; [done|]. intros ?. by destruct Hdst. }
  rewrite lookup_insert_ne by done.
  destruct (decide (p = src)) as [->|Hp'].
  { rewrite lookup_delete_eq, Hsrc. done. }
  by rewrite lookup_delete_ne.
Qed.

Context (gen : nat -> FS -> string -> string -> string).

(** An iteration over a list without directories moves no directory, and
    leaves such a list. *)
Lemma iteration_keeps_dirs (current_dir : string) (d j : Z) (a : nat)
    (w w' : world) (fl fl' : list string) :
  no_dir (disk w) fl ->
  iteration gen current_dir d j a w fl = (Next, w', fl') ->
  (forall p, disk w' !! p = Some Dir <-> disk w !! p = Some Dir)
  /\ no_dir (disk w') fl'.
Proof.
  intros Hno. unfold iteration. destruct (fl !! a) as [src|] eqn:Hsrc.
  2: { intros ?; by simplify_eq. }
  assert (src ∈ fl) as Hin by by apply list_elem_of_lookup_2 in Hsrc.
  assert (forall w1 fl1 s t,
            disk w1 !! s <> Some Dir ->
            rename_file w1 fl1 s t = (Next, w', fl') ->
            (forall p, disk w' !! p = Some Dir <-> disk w1 !! p = Some Dir)
            /\ fl' = fl1) as Hfile.
  { intros w1 fl1 s t Hs. unfold rename_file.
    destruct (Os.rename _ _ _) as [fs'|] eqn:Hr; [|done]. intros ?; simplify_eq.
    by apply rename_keeps_dirs in Hr as [Hr _]. }
  destruct (decide _); [intros ?; by simplify_eq|].
  destruct (Os.path_exists _ _).
  - destruct (index _ _) as [i|] eqn:Hi; [|done].
    apply index_Some in Hi as [Hi _].
    destruct (Os.rename _ _ _) as [fs1|] eqn:Hpark; [|done].
    simpl in Hpark.
    apply rename_keeps_dirs in Hpark as [Hsame Htmp];
      [|apply Hno; by apply list_elem_of_lookup_2 in Hi].
    intros [Hsame' ->]%Hfile; [|simpl; rewrite Hsame; by apply Hno].
    simpl in Hsame'.
    assert (forall p, disk w' !! p = Some Dir <-> disk w !! p = Some Dir) as Hall.
    { intros p. by rewrite Hsame', Hsame. }
    split; [done|]. intros s [->|Hs]%elem_of_insert_inv; rewrite Hall; [done|by apply Hno].
  - intros [Hsame ->]%Hfile; [|by apply Hno].
    split; [done|]. intros s Hs. rewrite Hsame. by apply Hno.
Qed.

Lemma loop_keeps_dirs (current_dir : string) (d : Z) (items : list (Z * nat)) :
  forall (w w' : world) (fl fl' : list string),
    no_dir (disk w) fl ->
    loop gen current_dir d items w fl = (Next, w', fl') ->
    dirs (disk w') = dirs (disk w).
Proof.
  induction items as [|[j a] items IH]; intros w w' fl fl' Hno Hloop; simpl in Hloop.
  { by simplify_eq. }
  destruct (iteration _ _ _ _ _ _ _) as [[[] w1] fl1] eqn:Hit; try done.
  apply iteration_keeps_dirs in Hit as [Hsame Hno1]; [|done].
  rewrite (IH _ _ _ _ Hno1 Hloop). by apply dirs_eq.
Qed.

Lemma prefix_length (p s : string) :
  String.prefix p s = true -> String.length p <= String.length s.
Proof. intros H%prefix_drop. rewrite <- H, length_app_s. lia. Qed.

Lemma app_nil_inv (x y : string) : x ++ y = "" -> y = "".
Proof. by destruct x. Qed.

(** A string that ends with [c] after a non-empty tail has [c] in the tail. *)
Lemma last_char (x name a' : string) (c : ascii) :
  name <> "" -> x ++ name = a' ++ String c "" -> PyStr.contains c name = true.
Proof.
  intros Hne. revert a'. induction x as [|y x IH]; intros a' H.
  - change ("" ++ name) with name in H. subst name. rewrite contains_app. simpl.
    rewrite Ascii.eqb_refl. by rewrite orb_true_r.
  - rewrite app_cons in H. destruct a' as [|z a''].
    + change ("" ++ String c "") with (String c "") in H.
      injection H as _ H. by apply app_nil_inv in H.
    + rewrite app_cons in H. injection H as _ H. by eapply IH.
Qed.

(** The prefix of an entry of a directory is its path and a separator. *)
Lemma dir_prefix_entry (s name : string) :
  name <> "" -> PyStr.contains "/" name = false ->
  Os.dir_prefix (Os.dir_prefix s ++ name) = Os.dir_prefix s ++ name ++ "/".
Proof.
  intros Hne Hsep. unfold Os.dir_prefix at 1.
  destruct (String.eqb _ "") eqn:He.
  { apply String.eqb_eq, app_nil_inv in He. done. }
  destruct (PyStr.endswith "/" _) eqn:Hend.
  { apply endswith_char in Hend as [a' Ha']. apply last_char in Ha'; [|done]. congruence. }
  simpl. by rewrite app_assoc_s.
Qed.

(** Two names without separator that start the same path, each ending
    there or followed by a separator, are the same name. *)
Lemma name_unique (n1 n2 t1 t2 : string) :
  PyStr.contains "/" n1 = false -> PyStr.contains "/" n2 = false ->
  (t1 = "" \/ exists r, t1 = String "/" r) ->
  (t2 = "" \/ exists r, t2 = String "/" r) ->
  n1 ++ t1 = n2 ++ t2 -> n1 = n2.
Proof.
  revert n2. induction n1 as [|c n1 IH]; intros n2 H1 H2 Ht1 Ht2 Heq.
  - destruct n2 as [|c n2]; [done|]. exfalso.
    change ("" ++ t1) with t1 in Heq. rewrite app_cons in Heq.
    destruct Ht1 as [->|[r ->]]; [done|]. injection Heq as <- _.
    by simpl in H2.
  - destruct n2 as [|c' n2].
    + exfalso. change ("" ++ t2) with t2 in Heq. rewrite app_cons in Heq.
      destruct Ht2 as [->|[r ->]]; [done|]. injection Heq as -> _.
      by simpl in H1.
    + rewrite !app_cons in Heq. injection Heq as -> Heq. simpl in H1, H2.
      apply orb_false_iff in H1 as [_ H1]. apply orb_false_iff in H2 as [_ H2].
      f_equal. by eapply IH.
Qed.

Lemma walk_dirs_elem (fs : FS) (d name : string) :
  name ∈ Os.walk_dirs fs d
  <-> fs !! (Os.dir_prefix d ++ name) = Some Dir
      /\ name <> "" /\ PyStr.contains "/" name = false.
Proof.
  unfold Os.walk_dirs. rewrite list_elem_of_fmap. split.
  - intros ([name' n] & -> & [Hdir Hin]%list_elem_of_filter).
    apply scandir_elem in Hin as (Hfs & Hne & Hsep). simpl in *.
    destruct n as [c|]; [done|]. done.
  - intros (Hfs & Hne & Hsep). exists (name, Dir). split; [done|].
    apply list_elem_of_filter. split; [done|]. by apply scandir_elem.
Qed.

Lemma walk_dirs_NoDup (fs : FS) (d : string) : NoDup (Os.walk_dirs fs d).
Proof.
  unfold Os.walk_dirs. eapply sublist_NoDup; [apply scandir_names_NoDup|].
  apply fmap_sublist, sublist_filter.
Qed.

Lemma elem_of_subdirs (fs : FS) (s p : string) :
  p ∈ subdirs fs s
  <-> fs !! p = Some Dir /\ exists t, t <> "" /\ p = Os.dir_prefix s ++ t.
Proof.
  unfold subdirs. rewrite elem_of_filter, elem_of_dirs. unfold below. split.
  - intros [[Hpre Hne] Hd]. split; [done|].
    exists (PyStr.drop (String.length (Os.dir_prefix s)) p).
    apply prefix_drop in Hpre. split; [|done].
    intros Ht. rewrite Ht, app_empty_r in Hpre. by subst.
  - intros [Hd (t & Ht & ->)]. split; [|done]. split; [apply prefix_self|].
    intros H. rewrite <- (app_empty_r (Os.dir_prefix s)) in H at 2.
    by apply (inj (String.append _)) in H.
Qed.

Lemma elem_of_cells (fs : FS) (s : string) (names : list string) (p : string) :
  p ∈ cells fs s names
  <-> exists name, name ∈ names
        /\ (p = Os.dir_prefix s ++ name \/ p ∈ subdirs fs (Os.dir_prefix s ++ name)).
Proof.
  unfold cells. rewrite elem_of_union_list. split.
  - intros (X & (name & -> & Hin)%list_elem_of_fmap & Hp).
    exists name. split; [done|].
    apply elem_of_union in Hp as [->%elem_of_singleton|Hp]; [by left|by right].
  - intros (name & Hin & Hp). eexists. split.
    + apply list_elem_of_fmap. by exists name.
    + apply elem_of_union. destruct Hp as [->|Hp]; [left; by apply elem_of_singleton|by right].
Qed.

(** A path of the cell of an entry is made of the prefix of the directory,
    the name of the entry, and nothing more or a separator and more. *)
Lemma cell_shape (fs : FS) (s name p : string) :
  name <> "" -> PyStr.contains "/" name = false ->
  p = Os.dir_prefix s ++ name \/ p ∈ subdirs fs (Os.dir_prefix s ++ name) ->
  exists t, (t = "" \/ exists r, t = String "/" r) /\ p = Os.dir_prefix s ++ name ++ t.
Proof.
  intros Hne Hsep [->|[_ (t & _ & ->)]%elem_of_subdirs].
  - exists "". split; [by left|]. by rewrite app_empty_r.
  - rewrite dir_prefix_entry by done. exists ("/" ++ t). split; [right; by exists t|].
    by rewrite !app_assoc_s.
Qed.

Lemma cells_subdirs (fs : FS) (s : string) (names : list string) :
  (forall name, name ∈ names -> name ∈ Os.walk_dirs fs s) ->
  cells fs s names ⊆ subdirs fs s.
Proof.
  intros Hnames p (name & Hin & Hp)%elem_of_cells.
  apply Hnames, walk_dirs_elem in Hin as (Hdir & Hne & Hsep).
  assert (fs !! p = Some Dir) as Hp_dir.
  { destruct Hp as [->|[? _]%elem_of_subdirs]; done. }
  destruct (cell_shape fs s name p Hne Hsep Hp) as (t & _ & ->).
  apply elem_of_subdirs. split; [done|]. exists (name ++ t). split; [|done].
  intros H. destruct name; [done|]. by rewrite app_cons in H.
Qed.

(** The entries of a directory and all below them are counted once each. *)
Lemma pending_children (fs : FS) (s : string) (names : list string) :
  NoDup names ->
  (forall name, name ∈ names -> name ∈ Os.walk_dirs fs s) ->
  pending_dirs fs ((fun name => Os.dir_prefix s ++ name) <$> names)
  = size (cells fs s names).
Proof.
  induction 1 as [|x l Hnot Hnd IH]; intros Hnames.
  { unfold pending_dirs, cells. rewrite !fmap_nil. symmetry. apply (size_empty (C := gset string)). }
  assert (forall name, name ∈ l -> name ∈ Os.walk_dirs fs s) as Hl
    by (intros name Hin; apply Hnames; by right).
  destruct (proj1 (walk_dirs_elem fs s x) (Hnames x ltac:(by left))) as (_ & Hne & Hsep).
  change (cells fs s (x :: l))
    with (({[ Os.dir_prefix s ++ x ]} ∪ subdirs fs (Os.dir_prefix s ++ x)) ∪ cells fs s l).
  rewrite size_union, size_union, size_singleton.
  - unfold pending_dirs in *. rewrite fmap_cons. cbn [sum_list_with]. by rewrite IH.
  - intros p ->%elem_of_singleton [_ (t & Ht & Hp)]%elem_of_subdirs.
    rewrite dir_prefix_entry in Hp by done.
    apply (f_equal String.length) in Hp. rewrite !length_app_s in Hp. simpl in Hp.
    destruct t; [done|]. simpl in Hp. lia.
  - intros p Hp (y & Hy & Hq)%elem_of_cells.
    apply elem_of_union in Hp.
    assert (p = Os.dir_prefix s ++ x \/ p ∈ subdirs fs (Os.dir_prefix s ++ x)) as Hp'.
    { destruct Hp as [->%elem_of_singleton|Hp]; [by left|by right]. }
    destruct (proj1 (walk_dirs_elem fs s y) (Hl y Hy)) as (_ & Hne' & Hsep').
    destruct (cell_shape fs s x p Hne Hsep Hp') as (t1 & Ht1 & H1).
    destruct (cell_shape fs s y p Hne' Hsep' Hq) as (t2 & Ht2 & H2).
    rewrite H1 in H2. apply (inj (String.append _)) in H2.
    apply name_unique in H2; [|done..]. by subst.
Qed.

(** Visiting a directory takes it off the count of those to come: its
    subdirectories and all below them were below it. *)
Lemma pending_dirs_visit (fs : FS) (s : string) (stack : list string) :
  pending_dirs fs (map (OsPath.join s) (Os.walk_dirs fs s) ++ stack)%list
  < pending_dirs fs (s :: stack).
Proof.
  assert (map (OsPath.join s) (Os.walk_dirs fs s)
          = (fun name => Os.dir_prefix s ++ name) <$> Os.walk_dirs fs s) as ->.
  { apply list_fmap_ext. intros i name Hin%list_elem_of_lookup_2.
    apply walk_dirs_elem in Hin as (_ & _ & Hsep). by apply join_dir_prefix, relative_name. }
  pose proof (pending_children fs s (Os.walk_dirs fs s) (walk_dirs_NoDup fs s)
                (fun _ H => H)) as Hc.
  pose proof (subseteq_size _ _ (cells_subdirs fs s (Os.walk_dirs fs s) (fun _ H => H))) as Hle.
  unfold pending_dirs in *. rewrite sum_list_with_app. cbn [sum_list_with]. lia.
Qed.

(** A walk given more steps than there are directories to come does not
    run out of them. *)
Lemma walk_ends (self : ImageRenamer) (total_dirs fuel : nat) :
  forall (i : nat) (stack : list string) (w w' : world),
    pending_dirs (disk w) stack < fuel ->
    walk_loop gen self total_dirs fuel i stack w <> (OutOfFuel, w').
Proof.
  induction fuel as [|fuel IH]; intros i stack w w' Hlt Hw; [lia|].
  destruct stack as [|current_dir stack]; [simpl in Hw; by simplify_eq|].
  rewrite walk_loop_unfold in Hw. cbv zeta in Hw.
  pose proof (pending_dirs_visit (disk w) current_dir stack) as Hvisit.
  destruct (batch_of_spec self (disk w) current_dir) as [_ Hin].
  destruct (batch_of _ _ _) as [|f fl] eqn:Hb.
  { apply IH in Hw; [done|]. simpl. lia. }
  destruct (rename_batch _ _ _ _ _ _ _) as [[o1 w1] fl1] eqn:Hrun.
  destruct o1; [|done..].
  apply loop_keeps_dirs in Hrun.
  2: { intros p (name & c & _ & Hc & _)%Hin. simpl. by rewrite Hc. }
  apply IH in Hw; [done|]. simpl. simpl in Hrun.
  rewrite (pending_dirs_eq _ _ _ Hrun). lia.
Qed.

(** The bound the model gives the walk is never what stops a run. *)
Lemma rename_ends (self : ImageRenamer) (answer : UserResponse) (w w' : world) :
  rename gen self answer w <> (OutOfFuel, w').
Proof.
  intros [(? & _)|[(? & _)|(Hv & _ & total & w0 & Hd & _ & Hw)]]%rename_cases; [done..|].
  apply input_is_valid_iff in Hv as (Hdir & _).
  revert Hw. apply walk_ends. rewrite Hd. unfold pending_dirs. simpl.
  rewrite <- (size_dom (disk w)).
  assert (subdirs (disk w) (target_dir self) ⊂ dom (disk w)) as Hsub; [|apply subset_size in Hsub; lia].
  split.
  - intros p [Hp _]%elem_of_subdirs. apply elem_of_dom. by rewrite Hp.
  - intros Hsup.
    assert (target_dir self ∈ subdirs (disk w) (target_dir self)) as Hin.
    { apply Hsup, elem_of_dom. by rewrite Hdir. }
    apply elem_of_subdirs in Hin as [_ (t & Ht & Hp)].
    apply (f_equal String.length) in Hp. rewrite length_app_s in Hp.
    assert (String.length (target_dir self) <= String.length (Os.dir_prefix (target_dir self))).
    { unfold Os.dir_prefix. destruct (_ || _); [done|]. rewrite length_app_s. lia. }
    destruct t; [done|]. simpl in Hp. lia.
Qed.

(** X11: a run comes to an end, whatever the generator returns: as
    invalid, declined, finished, aborted or on an exception. The walk
    visits a directory at most once and renames move no directory, so the
    bound of the model, one step more than there are paths on the disk,
    is never what stops it. *)
Theorem run_comes_to_an_end (self : ImageRenamer) (answer : UserResponse) (w : world) :
  exists o w',
    rename gen self answer w = (o, w')
    /\ (o = Invalid \/ o = Declined \/ o = Finished \/ o = Aborted \/ o = Raised).
Proof.
  destruct (rename gen self answer w) as [o w'] eqn:Hrun. exists o, w'.
  split; [done|]. destruct o; auto 6. by apply rename_ends in Hrun.
Qed.

End Termination.

(** ** The run over the tree *)

Section Tree.

Context (gen : nat -> FS -> string -> string -> string).

(** X12: when no path of the disk ends with one of the extensions, the run
    issues no rename and leaves the disk as it is, whatever the generator:
    every batch is empty, the walk goes on to the next directory, and the
    run ends as invalid, declined or finished. *)
Theorem nothing_to_rename (self : ImageRenamer) (answer : UserResponse)
    (w w' : world) (o : outcome) :
  (forall p, is_Some (disk w !! p) ->
     PyStr.endswith_any (extensions self) p = false) ->
  rename gen self answer w = (o, w') ->
  disk w' = disk w /\ calls w' = calls w
  /\ (o = Invalid \/ o = Declined \/ o = Finished).
Proof.
  intros Hnone Hrun.
  assert (o <> OutOfFuel) as Hends by (intros ->; by apply rename_ends in Hrun).
  revert Hrun.
  assert (forall fuel total i stack w1 o1 w1',
            disk w1 = disk w ->
            walk_loop gen self total fuel i stack w1 = (o1, w1') ->
            disk w1' = disk w /\ calls w1' = calls w1
            /\ o1 <> Aborted /\ o1 <> Raised) as Hwalk.
  { induction fuel as [|fuel IH]; intros total i stack w1 o1 w1' Hd Hw.
    { simpl in Hw. by simplify_eq. }
    destruct stack as [|current_dir stack]; [simpl in Hw; by simplify_eq|].
    rewrite walk_loop_unfold in Hw. cbv zeta in Hw.
    destruct (batch_of _ _ _) as [|f fl] eqn:Hb.
    - apply IH in Hw; [|done]. exact Hw.
    - exfalso.
      assert (f ∈ batch_of self current_dir (Os.walk_files (disk w1) current_dir))
        as Hin by (rewrite Hb; apply list_elem_of_here).
      pose proof (batch_of_endswith _ _ _ _ Hin) as Hext.
      apply batch_of_spec in Hin as (name & c & _ & Hc & _).
      rewrite Hnone in Hext; [done|]. rewrite <- Hd. by rewrite Hc. }
  intros [(-> & _ & -> & ->)|[(-> & _ & _ & -> & ->)
         |(_ & _ & total & w0 & Hd & Hc & Hw)]]%rename_cases; [by auto..|].
  apply Hwalk in Hw as (? & ? & ? & ?); [|done]. split; [done|]. split; [congruence|].
  destruct o; auto; done.
Qed.

(** The generator returns, in every directory, a name that is unused, is
    never a numbered target, is an entry of the directory, and has the
    extension it was given. *)
Hypothesis gen_unused_anywhere : forall n fs current_dir extension,
  fs !! gen n fs current_dir extension = None.

Hypothesis gen_never_target : forall n fs current_dir extension d j f,
  gen n fs current_dir extension <> dst_filename current_dir d j f.

Hypothesis gen_inside_anywhere : forall n fs current_dir f,
  inside current_dir (gen n fs current_dir (OsPath.splitext f).2).



Hypothesis gen_keeps_extension : forall n fs current_dir f,
  (OsPath.splitext (gen n fs current_dir (OsPath.splitext f).2)).2
  = (OsPath.splitext f).2.

(** X14: on a target directory without subdirectories, a run that finishes
    has given every file of the batch the number of its position in the
    sorted, filtered listing: the numbered name, with the extension of the
    file, names the node the file named before the run. *)
Theorem flat_run_numbers_every_file (self : ImageRenamer) (answer : UserResponse)
    (w w' : world) (p : nat) (f : string) :
  Os.walk_dirs (disk w) (target_dir self) = [] ->
  rename gen self answer w = (Finished, w') ->
  batch_of self (target_dir self) (Os.walk_files (disk w) (target_dir self)) !! p
    = Some f ->
  disk w' !! dst_filename (target_dir self) (digit self)
                (number_at (initial_number self) (step self) p) f
  = disk w !! f.
Proof.
  intros Hflat Hrun Hf.
  apply rename_cases in Hrun
    as [(? & _)|[(? & _)|(Hv & _ & total & w0 & Hd & _ & Hw)]]; [done..|].
  apply input_is_valid_iff in Hv as (Hdir & _ & _ & _ & Hstep).
  destruct (size (disk w)) as [|k] eqn:Hsize.
  { apply map_size_empty_iff in Hsize. rewrite Hsize in Hdir. done. }
  rewrite walk_loop_unfold in Hw. cbv zeta in Hw. rewrite Hd, Hflat in Hw.
  destruct (batch_of_spec self (disk w) (target_dir self)) as [Hnd Hin].
  destruct (batch_of _ _ _) as [|f0 fl] eqn:Hb; [done|]. rewrite <- Hb in *.
  destruct (rename_batch _ _ _ _ _ _ _) as [[o1 w1] fl1] eqn:Hbatch.
  destruct o1; [|done..]. simpl in Hw. simplify_eq. simpl.
  assert (forall g, g ∈ batch_of self (target_dir self)
                           (Os.walk_files (disk w) (target_dir self)) ->
            is_Some (disk (logged [InfoWatching (target_dir self)] w0) !! g)) as Hon.
  { intros g (name & c & _ & Hc & _)%Hin. simpl. rewrite Hd. by rewrite Hc. }
  rewrite (batch_placement gen (target_dir self) (digit self)
             (initial_number self) (step self) _ _
             (fun n fs e => gen_unused_anywhere n fs _ e)
             (fun n fs e => gen_never_target n fs _ e _)
             Hstep Hon Hnd (fun n fs g => gen_keeps_extension n fs _ g)
             w1 fl1 p f Hbatch Hf).
  simpl. by rewrite Hd.
Qed.

End Tree.

(** ** Every directory of the tree *)

Section Paths.

Lemma dir_prefix_shape (d : string) :
  Os.dir_prefix d = "" \/ exists a, Os.dir_prefix d = a ++ "/".
Proof.
  unfold Os.dir_prefix. destruct (String.eqb d "") eqn:He; simpl.
  { apply String.eqb_eq in He. by left. }
  destruct (PyStr.endswith "/" d) eqn:Hend.
  - right. by apply endswith_char.
  - right. by exists d.
Qed.

(** A path splits in one way into a directory prefix and a name without
    separator. *)
Lemma split_unique (pre1 pre2 n1 n2 : string) :
  (pre1 = "" \/ exists a, pre1 = a ++ "/") ->
  (pre2 = "" \/ exists a, pre2 = a ++ "/") ->
  PyStr.contains "/" n1 = false -> PyStr.contains "/" n2 = false ->
  pre1 ++ n1 = pre2 ++ n2 -> pre1 = pre2.
Proof.
  assert (forall a n m, PyStr.contains "/" n = false -> n <> (a ++ "/") ++ m) as Hno.
  { intros a n m Hn ->. rewrite !contains_app in Hn. simpl in Hn.
    by rewrite orb_true_r in Hn. }
  revert pre2. induction pre1 as [|c p1 IH]; intros pre2 H1 H2 Hn1 Hn2 Heq.
  - destruct H2 as [->|[a ->]]; [done|]. by apply Hno in Heq.
  - destruct H1 as [?|[a Ha]]; [done|].
    destruct pre2 as [|c2 p2].
    { symmetry in Heq. rewrite Ha in Heq. by apply Hno in Heq. }
    destruct H2 as [?|[b Hb]]; [done|].
    rewrite !app_cons in Heq. injection Heq as -> Heq. f_equal.
    apply IH; [| |done..].
    + destruct a as [|c a]; [left|right; exists a].
      * change ("" ++ "/") with "/" in Ha. by injection Ha as _ ->.
      * rewrite app_cons in Ha. by injection Ha as _ ->.
    + destruct b as [|c b]; [left|right; exists b].
      * change ("" ++ "/") with "/" in Hb. by injection Hb as _ ->.
      * rewrite app_cons in Hb. by injection Hb as _ ->.
Qed.

Lemma inside_unique (d d' p : string) :
  inside d p -> inside d' p -> Os.dir_prefix d = Os.dir_prefix d'.
Proof.
  intros (n1 & _ & Hn1 & ->) (n2 & _ & Hn2 & Heq).
  eapply split_unique; [apply dir_prefix_shape..|exact Hn1|exact Hn2|exact Heq].
Qed.

Lemma prefix_trans (a b c : string) :
  String.prefix a b = true -> String.prefix b c = true -> String.prefix a c = true.
Proof.
  intros H1%prefix_drop H2%prefix_drop. rewrite <- H2, <- H1, app_assoc_s.
  apply prefix_self.
Qed.

(** Two prefixes of one string: one is a prefix of the other. *)
Lemma prefix_comparable (a b s : string) :
  String.prefix a s = true -> String.prefix b s = true ->
  String.prefix a b = true \/ String.prefix b a = true.
Proof.
  revert b s. induction a as [|x a IH]; intros b s Ha Hb.
  { left. by destruct b. }
  destruct b as [|y b]; [right; done|].
  destruct s as [|z s]; [done|]. simpl in *.
  destruct (ascii_dec x z) as [->|]; [|done].
  destruct (ascii_dec y z) as [->|]; [|done].
  destruct (ascii_dec z z); [|done]. by eapply IH.
Qed.

Lemma prefix_longer (a t : string) :
  t <> "" -> String.prefix (a ++ t) a = false.
Proof.
  intros Ht. destruct (String.prefix (a ++ t) a) eqn:H; [|done].
  apply prefix_length in H. rewrite length_app_s in H.
  destruct t; [done|]. simpl in H. lia.
Qed.

(** The prefix of a subdirectory listed for [s]. *)
Lemma child_prefix (fs : FS) (s name : string) :
  name ∈ Os.walk_dirs fs s ->
  Os.dir_prefix (OsPath.join s name) = Os.dir_prefix s ++ name ++ "/".
Proof.
  intros (_ & Hne & Hsep)%walk_dirs_elem.
  rewrite join_dir_prefix by by apply relative_name.
  by apply dir_prefix_entry.
Qed.

Lemma reach_prefix (fs : FS) (s q : string) :
  reach fs s q -> String.prefix (Os.dir_prefix s) (Os.dir_prefix q) = true.
Proof.
  induction 1 as [|d name _ IH Hname].
  - rewrite <- (app_empty_r (Os.dir_prefix s)) at 2. apply prefix_self.
  - rewrite (child_prefix _ _ _ Hname). by apply prefix_app.
Qed.

(** What is reached from [s] is [s] or is reached from one of the
    subdirectories listed for [s]. *)
Lemma reach_head (fs : FS) (s q : string) :
  reach fs s q ->
  q = s \/ exists name, name ∈ Os.walk_dirs fs s /\ reach fs (OsPath.join s name) q.
Proof.
  induction 1 as [|d name _ IH Hname]; [by left|]. right.
  destruct IH as [->|(name0 & Hname0 & Hreach)].
  - exists name. split; [done|]. constructor.
  - exists name0. split; [done|]. by econstructor.
Qed.

Lemma reach_child (fs : FS) (s name q : string) :
  name ∈ Os.walk_dirs fs s -> reach fs (OsPath.join s name) q -> reach fs s q.
Proof.
  intros Hname. induction 1 as [|d name' _ IH Hname'].
  - econstructor; [constructor|done].
  - by econstructor.
Qed.

(** What the walk reaches depends on the directories of the disk only. *)
Lemma walk_dirs_same (fs fs' : FS) (d name : string) :
  dirs fs' = dirs fs -> name ∈ Os.walk_dirs fs d -> name ∈ Os.walk_dirs fs' d.
Proof.
  intros Hd (Hdir & Hne & Hsep)%walk_dirs_elem. apply walk_dirs_elem.
  split; [|done]. apply elem_of_dirs. rewrite Hd. by apply elem_of_dirs.
Qed.

Lemma reach_same (fs fs' : FS) (s q : string) :
  dirs fs' = dirs fs -> reach fs s q -> reach fs' s q.
Proof.
  intros Hd. induction 1 as [|d name _ IH Hname]; [constructor|].
  econstructor; [done|]. by eapply walk_dirs_same.
Qed.

(** A directory reached from a subdirectory of [s] is not [s]. *)
Lemma below_child_differs (fs : FS) (s name q : string) :
  name ∈ Os.walk_dirs fs s -> reach fs (OsPath.join s name) q ->
  Os.dir_prefix q <> Os.dir_prefix s.
Proof.
  intros Hname Hreach%reach_prefix Heq.
  rewrite (child_prefix _ _ _ Hname), Heq in Hreach.
  rewrite prefix_longer in Hreach; [done|].
  apply walk_dirs_elem in Hname as (_ & Hne & _). by destruct name.
Qed.

(** Nor is a directory reached from one that lies apart from [s]. *)
Lemma below_apart_differs (fs : FS) (s r q : string) :
  apart s r -> reach fs r q -> Os.dir_prefix q <> Os.dir_prefix s.
Proof.
  intros [_ Hrs] Hreach%reach_prefix Heq. rewrite Heq in Hreach. congruence.
Qed.

(** The subdirectories listed for a directory lie apart from each other. *)
Lemma children_antichain (fs : FS) (s : string) (names : list string) :
  NoDup names -> (forall name, name ∈ names -> name ∈ Os.walk_dirs fs s) ->
  antichain (map (OsPath.join s) names).
Proof.
  assert (forall n1 n2, n1 ∈ Os.walk_dirs fs s -> n2 ∈ Os.walk_dirs fs s -> n1 <> n2 ->
            String.prefix (Os.dir_prefix (OsPath.join s n1))
                          (Os.dir_prefix (OsPath.join s n2)) = false) as Hdiff.
  { intros n1 n2 H1 H2 Hne.
    rewrite (child_prefix _ _ _ H1), (child_prefix _ _ _ H2).
    destruct (String.prefix _ _) eqn:Hp; [|done]. exfalso. apply Hne.
    apply prefix_drop in Hp. rewrite !app_assoc_s in Hp.
    apply (inj (String.append _)) in Hp.
    apply walk_dirs_elem in H1 as (_ & _ & Hs1). apply walk_dirs_elem in H2 as (_ & _ & Hs2).
    eapply (name_unique n1 n2); [done..| |right; by eexists|exact Hp].
    right. by eexists. }
  induction 1 as [|x l Hnot Hnd IH]; intros Hnames; simpl; [done|].
  split; [|apply IH; intros name Hin; apply Hnames; by right].
  apply Forall_forall. intros c Hc.
  apply list_elem_of_In, in_map_iff in Hc as (y & <- & Hy). apply list_elem_of_In in Hy.
  assert (x <> y) as Hxy by (intros ->; by apply Hnot).
  split; apply Hdiff; try done; apply Hnames; (by left) || by right.
Qed.

Lemma antichain_app (l1 l2 : list string) :
  antichain l1 -> antichain l2 ->
  (forall a b, a ∈ l1 -> b ∈ l2 -> apart a b) ->
  antichain (l1 ++ l2).
Proof.
  induction l1 as [|x l1 IH]; intros H1 H2 H12; simpl; [done|].
  destruct H1 as [Hx H1]. split.
  - apply Forall_app. split; [done|]. apply Forall_forall. intros b Hb.
    apply H12; [by left|done].
  - apply IH; [done..|]. intros a b Ha Hb. apply H12; [by right|done].
Qed.

(** A subdirectory of [s] lies apart from what lies apart from [s]. *)
Lemma child_apart (fs : FS) (s name r : string) :
  name ∈ Os.walk_dirs fs s -> apart s r -> apart (OsPath.join s name) r.
Proof.
  intros Hname [Hsr Hrs].
  assert (String.prefix (Os.dir_prefix s) (Os.dir_prefix (OsPath.join s name)) = true)
    as Hsc by (rewrite (child_prefix _ _ _ Hname); apply prefix_self).
  split.
  - destruct (String.prefix (Os.dir_prefix (OsPath.join s name)) (Os.dir_prefix r))
      eqn:Hp; [|done].
    by rewrite (prefix_trans _ _ _ Hsc Hp) in Hsr.
  - destruct (String.prefix (Os.dir_prefix r) (Os.dir_prefix (OsPath.join s name)))
      eqn:Hp; [|done].
    destruct (prefix_comparable _ _ _ Hsc Hp); congruence.
Qed.

End Paths.

Section EveryDirectory.

Context (gen : nat -> FS -> string -> string -> string).

Hypothesis gen_unused_anywhere : forall n fs current_dir extension,
  fs !! gen n fs current_dir extension = None.

Hypothesis gen_never_target : forall n fs current_dir extension d j f,
  gen n fs current_dir extension <> dst_filename current_dir d j f.

Hypothesis gen_keeps_extension : forall n fs current_dir f,
  (OsPath.splitext (gen n fs current_dir (OsPath.splitext f).2)).2
  = (OsPath.splitext f).2.

(** A batch that runs to its end changes nothing outside its directory:
    a path that is not an entry of the directory names what it named, or
    is as free as it was. *)
Lemma batch_frame_outside (current_dir : string) (d initial_number st : Z)
    (w0 w1 : world) (fl0 fl1 : list string) (P : string) :
  (0 < st)%Z ->
  (forall f, f ∈ fl0 -> is_Some (disk w0 !! f)) -> NoDup fl0 ->
  (forall f, f ∈ fl0 -> inside current_dir f) ->
  rename_batch gen current_dir d initial_number st w0 fl0 = (Next, w1, fl1) ->
  ~ inside current_dir P ->
  disk w1 !! P = disk w0 !! P.
Proof.
  intros Hst Hon Hnd Hin Hrun Hout. unfold rename_batch in Hrun.
  pose proof (placed_loop gen current_dir d initial_number st w0 fl0
                (fun n fs e => gen_unused_anywhere n fs _ e)
                (fun n fs e => gen_never_target n fs _ e _)
                Hst Hon (length fl0) 0 w0 w1 fl0 fl1 Next) as Hend.
  replace (number_at initial_number st 0) with initial_number in Hend
    by (unfold number_at; lia).
  destruct Hend as [[_ _ _ Hforeign] Hlen _ _ _ _ Hdisk];
    [done|by apply placed_start|done|].
  assert (P ∉ fl0) as Hnot by (intros ?%Hin; done).
  destruct (disk w0 !! P) as [n|] eqn:H0.
  - destruct (Hforeign P) as [-> _]; [|done]. split; [by rewrite H0|done].
  - apply eq_None_not_Some. intros [[Hon0 _]|[(k & g & _ & _ & ->)|(q & Hq & Hlook)]]%Hdisk.
    + rewrite H0 in Hon0. by destruct Hon0.
    + apply Hout, dst_inside.
    + apply lookup_lt_Some in Hlook. simpl in Hq. lia.
Qed.

Section PositiveStep.

Context (self : ImageRenamer).
Hypothesis step_positive : (0 < step self)%Z.

(** A walk that runs to its end has numbered the batch of every directory
    it reached, and has changed nothing outside these directories. *)
Lemma walk_numbers (total_dirs fuel : nat) :
  forall (i : nat) (stack : list string) (w w' : world),
    walk_loop gen self total_dirs fuel i stack w = (Finished, w') ->
    antichain stack ->
    (forall P, (forall s q, s ∈ stack -> reach (disk w) s q -> ~ inside q P) ->
               disk w' !! P = disk w !! P)
    /\ (forall s q, s ∈ stack -> reach (disk w) s q ->
          numbered_in self (disk w) (disk w') q).
Proof.
  induction fuel as [|fuel IH]; intros i stack w w' Hw Hanti; [done|].
  destruct stack as [|s rest].
  { simpl in Hw. simplify_eq. split; [done|]. intros s q []%elem_of_nil. }
  destruct Hanti as [Hs Hrest]. rewrite Forall_forall in Hs.
  rewrite walk_loop_unfold in Hw. cbv zeta in Hw.
  destruct (batch_of_spec self (disk w) s) as [Hnd Hin].
  (* the state after the batch of [s] *)
  assert (exists w1,
            walk_loop gen self total_dirs fuel (S i)
              (map (OsPath.join s) (Os.walk_dirs (disk w) s) ++ rest)%list w1
              = (Finished, w')
            /\ dirs (disk w1) = dirs (disk w)
            /\ (forall P, ~ inside s P -> disk w1 !! P = disk w !! P)
            /\ (forall p f,
                  batch_of self s (Os.walk_files (disk w) s) !! p = Some f ->
                  disk w1 !! dst_filename s (digit self)
                               (number_at (initial_number self) (step self) p) f
                  = disk w !! f)) as (w1 & Hwalk & Hdirs & Hout & Hplaced).
  { destruct (batch_of self s (Os.walk_files (disk w) s)) as [|f0 fl] eqn:Hb.
    { eexists. split; [exact Hw|]. done. }
    rewrite <- Hb in *.
    destruct (rename_batch _ _ _ _ _ _ _) as [[o1 w1] fl1] eqn:Hbatch.
    destruct o1; [|done..].
    assert (forall g, g ∈ batch_of self s (Os.walk_files (disk w) s) ->
              is_Some (disk (logged [InfoWatching s] w) !! g)) as Hon.
    { intros g (name & c & _ & Hc & _)%Hin. simpl. by rewrite Hc. }
    eexists. split; [exact Hw|]. simpl. split; [|split].
    - apply loop_keeps_dirs in Hbatch; [done|].
      intros g (name & c & _ & Hc & _)%Hin. simpl. by rewrite Hc.
    - intros P HP.
      apply (batch_frame_outside s (digit self) (initial_number self) (step self)
               _ _ _ _ P step_positive Hon Hnd) in Hbatch; [done| |done].
      intros g (name & c & -> & _ & Hne & Hsep & _)%Hin. by apply join_inside.
    - intros p f Hf.
      by rewrite (batch_placement gen s (digit self) (initial_number self) (step self)
                    _ _
                    (fun n fs e => gen_unused_anywhere n fs _ e)
                    (fun n fs e => gen_never_target n fs _ e _)
                    step_positive Hon Hnd (fun n fs g => gen_keeps_extension n fs _ g)
                    w1 fl1 p f Hbatch Hf). }
  clear Hw.
  (* the stack the walk goes on with *)
  assert (antichain (map (OsPath.join s) (Os.walk_dirs (disk w) s) ++ rest)%list) as Hanti'.
  { apply antichain_app; [|done|].
    - apply (children_antichain (disk w)); [apply walk_dirs_NoDup|done].
    - intros c r Hc Hr.
      apply list_elem_of_In, in_map_iff in Hc as (name & <- & Hname).
      apply list_elem_of_In in Hname. apply (child_apart (disk w)); [done|by apply Hs]. }
  destruct (IH _ _ _ _ Hwalk Hanti') as [Hframe Hnumbered]. clear IH.
  (* what the new stack reaches was reached before, and is not [s] *)
  assert (forall c q, c ∈ (map (OsPath.join s) (Os.walk_dirs (disk w) s) ++ rest)%list ->
            reach (disk w1) c q ->
            (exists s0, s0 ∈ s :: rest /\ reach (disk w) s0 q)
            /\ Os.dir_prefix q <> Os.dir_prefix s) as Hsub.
  { intros c q Hc Hreach. apply (reach_same _ (disk w)) in Hreach; [|done].
    apply elem_of_app in Hc as [Hc|Hc].
    - apply list_elem_of_In, in_map_iff in Hc as (name & <- & Hname).
      apply list_elem_of_In in Hname. split.
      + exists s. split; [by left|]. by eapply reach_child.
      + by eapply below_child_differs.
    - split.
      + exists c. split; [by right|done].
      + eapply below_apart_differs; [|done]. by apply Hs. }
  (* the entries of such a directory are as they were *)
  assert (forall c q P, c ∈ (map (OsPath.join s) (Os.walk_dirs (disk w) s) ++ rest)%list ->
            reach (disk w1) c q -> inside q P -> disk w1 !! P = disk w !! P) as Hsame.
  { intros c q P Hc Hreach HP. apply Hout. intros HP'.
    destruct (Hsub c q Hc Hreach) as [_ Hne]. apply Hne.
    by eapply inside_unique. }
  split.
  - intros P HP. rewrite Hframe.
    + apply Hout. apply (HP s s); [by left|constructor].
    + intros c q Hc Hreach. destruct (Hsub c q Hc Hreach) as [(s0 & Hs0 & Hr0) _].
      by apply (HP s0 q).
  - assert (forall c q, c ∈ (map (OsPath.join s) (Os.walk_dirs (disk w) s) ++ rest)%list ->
              reach (disk w1) c q -> numbered_in self (disk w) (disk w') q) as Hlater.
    { intros c q Hc Hreach.
      destruct (Hnumbered c q Hc Hreach) as (fs1 & Hfs1 & Hperm & Hfl).
      destruct (batch_of_spec self (disk w1) q) as [Hnd1 Hin1].
      destruct (batch_of_spec self (disk w) q) as [Hnd0 Hin0].
      assert (forall path, path ∈ batch_of self q (Os.walk_files (disk w1) q)
                <-> path ∈ batch_of self q (Os.walk_files (disk w) q)) as Hmem.
      { intros path. rewrite Hin1, Hin0. 
        split; intros (name & c0 & -> & Hc0 & Hne & Hsep & Hext); exists name, c0;
          (split; [done|]); (split; [|done]).
        - rewrite <- Hc0. symmetry. eapply Hsame; [done..|]. by apply join_inside.
        - rewrite <- Hc0. eapply Hsame; [done..|]. by apply join_inside. }
      exists fs1. split; [|split].
      - intros P HP. rewrite (Hfs1 P HP). by eapply Hsame.
      - rewrite Hperm. by apply NoDup_Permutation.
      - intros p f Hf. rewrite (Hfl p f Hf).
        assert (f ∈ batch_of self q (Os.walk_files (disk w1) q)) as Hfin.
        { rewrite <- Hperm. by eapply list_elem_of_lookup_2. }
        apply Hin1 in Hfin as (name & c0 & -> & _ & Hne & Hsep & _).
        eapply Hsame; [done..|]. by apply join_inside. }
    intros s0 q Hs0 Hreach.
    apply elem_of_cons in Hs0 as [->|Hs0].
    + apply reach_head in Hreach as [->|(name & Hname & Hreach)].
      * exists (disk w). split; [done|]. split; [done|].
        intros p f Hf. rewrite Hframe; [by apply Hplaced|].
        intros c q Hc Hr Hq. destruct (Hsub c q Hc Hr) as [_ Hne]. apply Hne.
        eapply inside_unique; [exact Hq|apply dst_inside].
      * apply (Hlater (OsPath.join s name)).
        -- apply elem_of_app. left. apply list_elem_of_In, in_map_iff.
           exists name. split; [done|]. by apply list_elem_of_In.
        -- by apply (reach_same (disk w)).
    + apply (Hlater s0); [apply elem_of_app; by right|by apply (reach_same (disk w))].
Qed.

End PositiveStep.

(** X16: a run that finishes has numbered the files of every directory the
    walk reaches from the target, subdirectories included: each file of
    the batch of the directory is found at the number
    [initial_number + p * step] of its position [p] in the batch, with its
    own extension and content. The batch is the one built when the walk
    gets to the directory, from a disk on which the directory has the
    entries it had before the run: the same files, each once. The
    generator is taken to return unused names that are never numbered
    targets and keep the extension. *)
Theorem run_numbers_every_directory (self : ImageRenamer) (answer : UserResponse)
    (w w' : world) (q : string) :
  rename gen self answer w = (Finished, w') ->
  reach (disk w) (target_dir self) q ->
  exists fs1,
    (forall P, inside q P -> fs1 !! P = disk w !! P)
    /\ batch_of self q (Os.walk_files fs1 q) ≡ₚ batch_of self q (Os.walk_files (disk w) q)
    /\ forall p f, batch_of self q (Os.walk_files fs1 q) !! p = Some f ->
         disk w' !! dst_filename q (digit self)
                      (number_at (initial_number self) (step self) p) f
         = disk w !! f.
Proof.
  intros Hrun Hreach.
  apply rename_cases in Hrun
    as [(? & _)|[(? & _)|(Hv & _ & total & w0 & Hd & _ & Hw)]]; [done..|].
  apply input_is_valid_iff in Hv as (_ & _ & _ & _ & Hstep).
  apply (walk_numbers self Hstep) in Hw as [_ Hnumbered]; [|by split].
  rewrite <- Hd. apply (Hnumbered (target_dir self)); [by left|by rewrite Hd].
Qed.

End EveryDirectory.

(** ** The extension of a renamed file *)

Section RenamedExtensions.

Context (gen : nat -> FS -> string -> string -> string).

(** The generator keeps the extension it is given. *)
Hypothesis gen_keeps_extension : forall n fs current_dir f,
  (OsPath.splitext (gen n fs current_dir (OsPath.splitext f).2)).2
  = (OsPath.splitext f).2.

Lemma iteration_calls_keep (current_dir : string) (d j : Z) (a : nat)
    (w w' : world) (fl fl' : list string) (o : flow) :
  iteration gen current_dir d j a w fl = (o, w', fl') ->
  exists cs, calls w' = (calls w ++ cs)%list /\ Forall call_keeps_extension cs.
Proof.
  assert (forall w1, exists cs, calls w1 = (calls w1 ++ cs)%list
                                /\ Forall call_keeps_extension cs) as Hnone.
  { intros w1. exists []. split; [by rewrite app_nil_r|constructor]. }
  unfold iteration. destruct (fl !! a) as [src|]; [|intros ?; simplify_eq; apply Hnone].
  pose proof (dst_filename_extension current_dir d j src) as [Hext _].
  assert (forall w1 fl1, rename_file w1 fl1 src (dst_filename current_dir d j src)
                         = (o, w', fl') ->
            exists cs, calls w' = (calls w1 ++ cs)%list
                       /\ Forall call_keeps_extension cs) as Hfile.
  { intros w1 fl1. unfold rename_file. destruct (Os.rename _ _ _).
    - intros ?; simplify_eq. simpl. eexists. split; [done|].
      constructor; [exact Hext|constructor].
    - intros ?; simplify_eq. apply Hnone. }
  destruct (decide _); [intros ?; simplify_eq; apply (Hnone (tick w))|].
  destruct (Os.path_exists _ _); [|apply Hfile].
  destruct (index _ _); [|intros ?; simplify_eq; apply (Hnone (logged _ (drew w)))].
  destruct (Os.rename _ _ _); [|intros ?; simplify_eq; apply (Hnone (drew w))].
  intros (cs & Hcs & Hkeep)%Hfile. simpl in Hcs.
  eexists (_ :: cs). split; [by rewrite Hcs, <- app_assoc|].
  constructor; [|done]. simpl. by rewrite gen_keeps_extension, Hext.
Qed.

Lemma loop_calls_keep (current_dir : string) (d : Z) (items : list (Z * nat)) :
  forall (w w' : world) (fl fl' : list string) (o : flow),
    loop gen current_dir d items w fl = (o, w', fl') ->
    exists cs, calls w' = (calls w ++ cs)%list /\ Forall call_keeps_extension cs.
Proof.
  induction items as [|[j a] items IH]; intros w w' fl fl' o Hloop; simpl in Hloop.
  { simplify_eq. exists []. split; [by rewrite app_nil_r|constructor]. }
  destruct (iteration _ _ _ _ _ _ _) as [[o1 w1] fl1] eqn:Hit.
  apply iteration_calls_keep in Hit as (cs1 & Hcs1 & Hk1).
  destruct o1; [|simplify_eq; by exists cs1..].
  apply IH in Hloop as (cs2 & Hcs2 & Hk2).
  exists (cs1 ++ cs2)%list. split; [by rewrite Hcs2, Hcs1, <- app_assoc|].
  by apply Forall_app.
Qed.

Lemma walk_calls_keep (self : ImageRenamer) (total_dirs fuel : nat) :
  forall (i : nat) (stack : list string) (w w' : world) (o : outcome),
    walk_loop gen self total_dirs fuel i stack w = (o, w') ->
    exists cs, calls w' = (calls w ++ cs)%list /\ Forall call_keeps_extension cs.
Proof.
  induction fuel as [|fuel IH]; intros i stack w w' o Hw.
  { simpl in Hw. simplify_eq. exists []. split; [by rewrite app_nil_r|constructor]. }
  destruct stack as [|current_dir stack].
  { simpl in Hw. simplify_eq. exists []. split; [by rewrite app_nil_r|constructor]. }
  rewrite walk_loop_unfold in Hw. cbv zeta in Hw.
  destruct (batch_of _ _ _) as [|f fl] eqn:Hb; [by apply IH in Hw|].
  destruct (rename_batch _ _ _ _ _ _ _) as [[o1 w1] fl1] eqn:Hrun.
  apply loop_calls_keep in Hrun as (cs1 & Hcs1 & Hk1). simpl in Hcs1.
  destruct o1; [|simplify_eq; by exists cs1..].
  apply IH in Hw as (cs2 & Hcs2 & Hk2). simpl in Hcs2.
  exists (cs1 ++ cs2)%list. split; [by rewrite Hcs2, Hcs1, <- app_assoc|].
  by apply Forall_app.
Qed.

(** X1: no rename of a run changes the extension of the file it moves,
    however the run ends: the numbered name of line 137 has the extension
    [os.path.splitext] finds in the name of the file, and the temporary
    name of line 155 has it too, the generator being taken to keep the
    extension it is given. *)
Theorem renames_keep_extension (self : ImageRenamer) (answer : UserResponse)
    (w w' : world) (o : outcome) :
  rename gen self answer w = (o, w') ->
  exists cs, calls w' = (calls w ++ cs)%list /\ Forall call_keeps_extension cs.
Proof.
  intros [(_ & _ & _ & ->)|[(_ & _ & _ & _ & ->)
         |(_ & _ & total & w0 & _ & <- & Hwalk)]]%rename_cases.
  - exists []. split; [by rewrite app_nil_r|constructor].
  - exists []. split; [by rewrite app_nil_r|constructor].
  - by eapply walk_calls_keep.
Qed.

End RenamedExtensions.

(** ** What a finished run has logged *)

Section Log.

Context (gen : nat -> FS -> string -> string -> string).

Lemma iteration_log (current_dir : string) (d j : Z) (a : nat)
    (w w' : world) (fl fl' : list string) :
  iteration gen current_dir d j a w fl = (Next, w', fl') -> log w' = log w.
Proof.
  unfold iteration. destruct (fl !! a) as [src|]; [|by intros ?; simplify_eq].
  assert (forall w1 fl1 s t, rename_file w1 fl1 s t = (Next, w', fl') -> log w' = log w1)
    as Hfile.
  { intros w1 fl1 s t. unfold rename_file. destruct (Os.rename _ _ _); [|done].
    intros ?; by simplify_eq. }
  destruct (decide _); [by intros ?; simplify_eq|].
  destruct (Os.path_exists _ _); [|by intros ?%Hfile].
  destruct (index _ _); [|done]. destruct (Os.rename _ _ _); [|done].
  by intros ?%Hfile.
Qed.

Lemma loop_log (current_dir : string) (d : Z) (items : list (Z * nat)) :
  forall (w w' : world) (fl fl' : list string),
    loop gen current_dir d items w fl = (Next, w', fl') -> log w' = log w.
Proof.
  induction items as [|[j a] items IH]; intros w w' fl fl' Hloop; simpl in Hloop.
  { by simplify_eq. }
  destruct (iteration _ _ _ _ _ _ _) as [[[] w1] fl1] eqn:Hit; try done.
  apply iteration_log in Hit. apply IH in Hloop. congruence.
Qed.

Lemma walk_log (self : ImageRenamer) (total_dirs fuel : nat) :
  forall (i : nat) (stack : list string) (w w' : world),
    walk_loop gen self total_dirs fuel i stack w = (Finished, w') ->
    exists es, log w' = (log w ++ es ++ [Info "Abort..."])%list
               /\ forall msg, Error msg ∉ es.
Proof.
  induction fuel as [|fuel IH]; intros i stack w w' Hw; [done|].
  destruct stack as [|current_dir stack].
  { simpl in Hw. simplify_eq. exists []. split; [done|]. intros msg []%elem_of_nil. }
  rewrite walk_loop_unfold in Hw. cbv zeta in Hw.
  destruct (batch_of _ _ _) as [|f fl] eqn:Hb.
  - apply IH in Hw as (es & Hlog & Hes). simpl in Hlog.
    exists ([InfoWatching current_dir; InfoNoFiles current_dir] ++ es)%list.
    split; [by rewrite Hlog, <- !app_assoc|].
    intros msg [|[|]%elem_of_cons]%elem_of_cons; [done..|by eapply Hes].
  - destruct (rename_batch _ _ _ _ _ _ _) as [[o1 w1] fl1] eqn:Hrun.
    destruct o1; [|done..]. apply loop_log in Hrun. simpl in Hrun.
    apply IH in Hw as (es & Hlog & Hes). simpl in Hlog. rewrite Hrun in Hlog.
    exists ([InfoWatching current_dir; InfoRenamed current_dir; InfoProgress i total_dirs]
            ++ es)%list.
    split; [by rewrite Hlog, <- !app_assoc|].
    intros msg [|[|[|]%elem_of_cons]%elem_of_cons]%elem_of_cons; [done..|by eapply Hes].
Qed.

(** X15: a run that finishes has logged no error, and the last message of
    its log is the one a declined run ends on, [Abort...]: line 165 is
    reached whenever the walk runs to its end. *)
Theorem finished_run_logs_abort (self : ImageRenamer) (answer : UserResponse)
    (w w' : world) :
  rename gen self answer w = (Finished, w') ->
  exists es, log w' = (log w ++ es ++ [Info "Abort..."])%list
             /\ forall msg, Error msg ∉ es.
Proof.
  unfold rename.
  pose proof (input_is_valid_iff self (disk w)) as [_ Hnone].
  destruct (_input_is_valid self (disk w)) as [[] errors]; cbn [negb fst]; [|done].
  simpl in Hnone. rewrite Hnone by done.
  destruct (negb (yes self) && _); [done|].
  intros (es & Hlog & Hes)%walk_log. simpl in Hlog.
  eexists (_ :: _ :: es). split.
  - rewrite Hlog. rewrite app_nil_r, <- !app_assoc. reflexivity.
  - intros msg [|[|]%elem_of_cons]%elem_of_cons; [done..|by eapply Hes].
Qed.

End Log.

(** ** The sample generator once more *)

Section SampleGeneratorExtension.

Lemma contains_repeat (c x : ascii) (n : nat) :
  x <> c -> PyStr.contains c (PyStr.repeat x n) = false.
Proof.
  intros Hx. induction n as [|n IH]; simpl; [done|].
  by rewrite IH, (proj2 (Ascii.eqb_neq _ _)).
Qed.

(** The sample generator keeps the extension it is given, when that is an
    extension [os.path.splitext] has found. *)
Lemma sample_gen_keeps_extension (n : nat) (fs : FS) (current_dir f : string) :
  (OsPath.splitext (sample_gen n fs current_dir (OsPath.splitext f).2)).2
  = (OsPath.splitext f).2.
Proof.
  unfold sample_gen.
  destruct (join_prefix current_dir) as (pre & Hjoin & Hpre).
  rewrite Hjoin by reflexivity.
  rewrite <- (app_assoc_s "tmp").
  apply (splitext_built pre _ _ "t" ("mp" ++ PyStr.repeat "x" (S (longest fs)))).
  - done.
  - reflexivity.
  - discriminate.
  - rewrite contains_app, contains_repeat by discriminate. reflexivity.
  - rewrite contains_app, contains_repeat by discriminate. reflexivity.
  - apply splitext_shape.
Qed.

(** The sample generator returns an entry of the directory it is given. *)
Lemma sample_gen_inside (n : nat) (fs : FS) (current_dir f : string) :
  inside current_dir (sample_gen n fs current_dir (OsPath.splitext f).2).
Proof.
  unfold sample_gen. apply join_inside.
  - by rewrite app_cons.
  - rewrite !contains_app, contains_repeat by discriminate.
    destruct (splitext_shape f) as [_ [->|(r & -> & _ & Hr)]]; [done|].
    simpl. exact Hr.
Qed.

End SampleGeneratorExtension.

(** ** A generator whose names look like numbered names *)

Section CollidingGenerator.

Lemma colliding_gen_unused (n : nat) (fs : FS) (current_dir extension : string) :
  fs !! colliding_gen n fs current_dir extension = None.
Proof.
  unfold colliding_gen. destruct (Os.path_exists _ _) eqn:Hex.
  - apply sample_gen_unused.
  - by apply path_exists_false.
Qed.

Lemma colliding_gen_inside (n : nat) (fs : FS) (current_dir f : string) :
  inside current_dir (colliding_gen n fs current_dir (OsPath.splitext f).2).
Proof.
  unfold colliding_gen. destruct (Os.path_exists _ _); [apply sample_gen_inside|].
  apply join_inside.
  - by rewrite app_cons.
  - rewrite contains_app.
    destruct (splitext_shape f) as [_ [->|(r & -> & _ & Hr)]]; [done|].
    simpl. exact Hr.
Qed.

End CollidingGenerator.

(** ** The further properties at concrete inputs *)

Lemma run_keeps_every_file_witness :
  let fs : FS := {[ "r" := Dir; "r/000.jpg" := File 1; "r/001.jpg" := File 2 ]} in
  exists w',
    rename sample_gen sample_config YES (world_of fs) = (Finished, w')
    /\ disk w' !! "r/001.jpg" = Some (File 1)
    /\ nodes (disk w') ≡ₚ nodes fs.
Proof.
  intros fs. eexists. split; [vm_compute; reflexivity|]. split; [reflexivity|].
  apply (run_keeps_every_file sample_gen sample_gen_unused sample_config YES
           (world_of fs) _ Finished).
  vm_compute; reflexivity.
Defined.

Lemma run_leaves_other_paths_witness :
  let fs : FS := {[ "r" := Dir; "r/f2.jpg" := File 2; "r/f10.jpg" := File 10;
                    "r/f1.jpg" := File 1; "r/notes.txt" := File 7 ]} in
  exists w',
    rename sample_gen sample_config YES (world_of fs) = (Finished, w')
    /\ disk w' !! "r/f2.jpg" = None
    /\ disk w' !! "r/notes.txt" = Some (File 7).
Proof.
  intros fs. eexists. split; [vm_compute; reflexivity|]. split; [reflexivity|].
  rewrite (run_leaves_other_paths sample_gen sample_gen_unused sample_config YES
             (world_of fs) _ Finished "r/notes.txt");
    [reflexivity | vm_compute; reflexivity | by vm_compute; eauto | reflexivity].
Defined.

Lemma batch_abort_means_foreign_occupant_witness :
  let fs : FS := {[ "d" := Dir; "d/a.jpg" := File 1; "d/001.jpg" := Dir ]} in
  exists w1 fl1,
    rename_batch sample_gen "d" 3 1 1 (world_of fs) ["d/a.jpg"] = (Return, w1, fl1)
    /\ exists p g,
         fl1 !! p = Some g
         /\ is_Some (fs !! dst_filename "d" 3 (number_at 1 1 p) g)
         /\ disk w1 !! dst_filename "d" 3 (number_at 1 1 p) g
            = fs !! dst_filename "d" 3 (number_at 1 1 p) g.
Proof.
  intros fs. eexists _, _. split; [vm_compute; reflexivity|].
  destruct (batch_abort_means_foreign_occupant sample_gen "d" 3 1 1 (world_of fs)
              ["d/a.jpg"]
              (fun n fs e => sample_gen_unused n fs "d" e)
              (fun n fs e => sample_gen_not_target n fs "d" e 3)
              ltac:(lia)
              ltac:(intros f ->%list_elem_of_singleton; by vm_compute; eauto)
              ltac:(apply NoDup_singleton)
              _ _ eq_refl)
    as (p & g & _ & Hg & _ & Hon & Hsame).
  exists p, g. split; [exact Hg|]. split; [exact Hon | exact Hsame].
Defined.

Lemma batch_numbers_every_file_witness :
  let fs : FS := {[ "d" := Dir; "d/000.jpg" := File 1; "d/001.jpg" := File 2 ]} in
  exists w1 fl1,
    rename_batch sample_gen "d" 3 1 1 (world_of fs) ["d/000.jpg"; "d/001.jpg"]
      = (Next, w1, fl1)
    /\ calls w1 !! 0 = Some (Park "d/001.jpg" (sample_gen 0 fs "d" ".jpg"))
    /\ disk w1 !! dst_filename "d" 3 (number_at 1 1 1) "d/001.jpg" = Some (File 2).
Proof.
  intros fs. eexists _, _. split; [vm_compute; reflexivity|]. split; [reflexivity|].
  refine (eq_trans
            (batch_numbers_every_file sample_gen "d" 3 1 1 (world_of fs)
               ["d/000.jpg"; "d/001.jpg"]
               (fun n fs e => sample_gen_unused n fs "d" e)
               (fun n fs e => sample_gen_not_target n fs "d" e 3)
               ltac:(lia)
               ltac:(intros f [->|[->|[]%elem_of_nil]%elem_of_cons]%elem_of_cons;
                     by vm_compute; eauto)
               ltac:(apply (bool_decide_unpack _); by vm_compute)
               (fun n fs f => sample_gen_keeps_extension n fs "d" f)
               _ _ 1 "d/001.jpg" _ eq_refl) _);
    [vm_compute; reflexivity | reflexivity].
Defined.

Lemma nothing_without_consent_witness :
  let fs : FS := {[ "r" := Dir; "r/000.jpg" := File 1; "r/001.jpg" := File 2 ]} in
  let run := rename sample_gen sample_config NO (world_of fs) in
  disk run.2 <> fs
  /\ (_input_is_valid sample_config fs).1 = true
  /\ (yes sample_config = true \/ NO = YES).
Proof.
  intros fs run.
  assert (disk run.2 <> fs) as Hchanged.
  { intros H. apply (f_equal (fun m : FS => m !! "r/000.jpg")) in H.
    by vm_compute in H. }
  split; [exact Hchanged|].
  apply (nothing_without_consent sample_gen sample_config NO (world_of fs) run.2 run.1).
  - apply surjective_pairing.
  - right. exact Hchanged.
Defined.

Lemma bar_ticks_once_per_file_witness :
  let fs : FS := {[ "d" := Dir; "d/000.jpg" := File 1; "d/001.jpg" := File 2 ]} in
  exists w' fl',
    rename_batch sample_gen "d" 3 1 1 (world_of fs) ["d/000.jpg"; "d/001.jpg"]
      = (Next, w', fl')
    /\ bar w' = 2.
Proof.
  intros fs. eexists _, _. split; [vm_compute; reflexivity|].
  exact (bar_ticks_once_per_file sample_gen "d" 3 1 1 (world_of fs) _
           ["d/000.jpg"; "d/001.jpg"] _ eq_refl).
Defined.

Lemma numbered_batch_is_left_alone_witness :
  let fs : FS := {[ "d" := Dir; "d/005.jpg" := File 1; "d/007.png" := File 2 ]} in
  exists w',
    rename_batch sample_gen "d" 3 5 2 (world_of fs) ["d/005.jpg"; "d/007.png"]
      = (Next, w', ["d/005.jpg"; "d/007.png"])
    /\ disk w' = fs /\ calls w' = [].
Proof.
  intros fs.
  destruct (numbered_batch_is_left_alone sample_gen "d" 3 5 2 (world_of fs)
              ["d/005.jpg"; "d/007.png"]) as (w' & H & Hd & Hc & _).
  - intros [|[|p]] g Hg; simpl in Hg; [| |done]; injection Hg as <-.
    + by exists "x.jpg".
    + by exists "y.png".
  - exists w'. split; [exact H|]. split; [exact Hd | exact Hc].
Defined.

Lemma nothing_to_rename_witness :
  let fs : FS := {[ "r" := Dir; "r/notes.txt" := File 7; "r/sub" := Dir;
                    "r/sub/a.png" := File 1 ]} in
  exists w',
    rename sample_gen sample_config YES (world_of fs) = (Finished, w')
    /\ disk w' = fs /\ calls w' = [].
Proof.
  intros fs. exists (rename sample_gen sample_config YES (world_of fs)).2.
  split; [by vm_compute|].
  destruct (nothing_to_rename sample_gen sample_config YES (world_of fs)
              (rename sample_gen sample_config YES (world_of fs)).2 Finished)
    as (Hd & Hc & _).
  - assert (map_Forall (fun p _ => PyStr.endswith_any (extensions sample_config) p = false)
                       fs) as Hall by (apply (bool_decide_unpack _); by vm_compute).
    intros p [n Hn]. exact (Hall p n Hn).
  - by vm_compute.
  - split; [exact Hd | exact Hc].
Defined.


Lemma flat_run_numbers_every_file_witness :
  let fs : FS := {[ "r" := Dir; "r/f2.jpg" := File 2; "r/f10.jpg" := File 10;
                    "r/f1.jpg" := File 1; "r/notes.txt" := File 7 ]} in
  exists w',
    rename sample_gen sample_config YES (world_of fs) = (Finished, w')
    /\ disk w' !! dst_filename "r" 3 (number_at 1 1 2) "r/f10.jpg" = Some (File 10).
Proof.
  intros fs. eexists. split; [vm_compute; reflexivity|].
  rewrite (flat_run_numbers_every_file sample_gen sample_gen_unused
             sample_gen_not_target sample_gen_keeps_extension
             sample_config YES (world_of fs) _ 2 "r/f10.jpg");
    [reflexivity | by vm_compute | vm_compute; reflexivity | by vm_compute].
Defined.

Lemma finished_run_logs_abort_witness :
  let fs : FS := {[ "r" := Dir; "r/a.jpg" := File 1 ]} in
  exists w' es,
    rename sample_gen sample_config YES (world_of fs) = (Finished, w')
    /\ disk w' !! "r/001.jpg" = Some (File 1)
    /\ log w' = (es ++ [Info "Abort..."])%list.
Proof.
  intros fs.
  destruct (finished_run_logs_abort sample_gen sample_config YES (world_of fs)
              (rename sample_gen sample_config YES (world_of fs)).2)
    as (es & Hlog & _); [by vm_compute|].
  exists (rename sample_gen sample_config YES (world_of fs)).2, es.
  split; [by vm_compute|]. split; [by vm_compute | exact Hlog].
Defined.

Lemma run_numbers_every_directory_witness :
  let fs : FS := {[ "r" := Dir; "r/b.jpg" := File 1; "r/sub" := Dir;
                    "r/sub/x.jpg" := File 2; "r/sub/001.jpg" := File 3 ]} in
  exists w' fl,
    rename sample_gen sample_config YES (world_of fs) = (Finished, w')
    /\ fl ≡ₚ ["r/sub/001.jpg"; "r/sub/x.jpg"]
    /\ forall p f, fl !! p = Some f ->
         disk w' !! dst_filename "r/sub" 3 (number_at 1 1 p) f = fs !! f.
Proof.
  intros fs.
  destruct (run_numbers_every_directory sample_gen sample_gen_unused
              sample_gen_not_target sample_gen_keeps_extension
              sample_config YES (world_of fs)
              (rename sample_gen sample_config YES (world_of fs)).2
              (OsPath.join "r" "sub"))
    as (fs1 & _ & Hperm & Hfl).
  - by vm_compute.
  - apply (reach_down fs "r" "r" "sub"); [constructor|].
    apply walk_dirs_elem. by vm_compute.
  - exists (rename sample_gen sample_config YES (world_of fs)).2,
      (batch_of sample_config "r/sub" (Os.walk_files fs1 "r/sub")).
    split; [by vm_compute|]. split; [|exact Hfl].
    rewrite Hperm. by vm_compute.
Defined.

Lemma renames_keep_extension_witness :
  let fs : FS := {[ "r" := Dir; "r/000.jpg" := File 1; "r/001.jpg" := File 2 ]} in
  exists w' cs,
    rename sample_gen sample_config YES (world_of fs) = (Finished, w')
    /\ calls w' = cs
    /\ cs !! 0 = Some (Park "r/001.jpg" (sample_gen 0 fs "r" ".jpg"))
    /\ Forall call_keeps_extension cs.
Proof.
  intros fs.
  destruct (renames_keep_extension sample_gen sample_gen_keeps_extension
              sample_config YES (world_of fs)
              (rename sample_gen sample_config YES (world_of fs)).2 Finished)
    as (cs & Hcs & Hkeep); [by vm_compute|].
  assert (cs = calls (rename sample_gen sample_config YES (world_of fs)).2) as ->
    by (symmetry; exact Hcs).
  eexists _, _. split; [by vm_compute|]. split; [reflexivity|].
  split; [by vm_compute | exact Hkeep].
Defined.

(** ** Parking at concrete inputs *)


(** C1 needs its condition on the first position. Here the target of the
    file at position 3, [d/004.jpg], is on disk and is in the list at
    position 4, still to come; it is also left at position 1, already
    processed, where the file first parked under that name was recorded. [index] finds position 1:
    position 4 keeps [d/004.jpg], which now names the current file, and the
    displaced file is under a temporary name that no position still to
    come holds. *)
Lemma stale_position_is_updated :
  let fs : FS := {[ "d" := Dir; "d/000.jpg" := File 1; "d/001.jpg" := File 2;
                    "d/2.jpg" := File 3; "d/2a.jpg" := File 4;
                    "d/003.jpg" := File 5 ]} in
  let fl0 := ["d/000.jpg"; "d/001.jpg"; "d/2.jpg"; "d/2a.jpg"; "d/003.jpg"] in
  exists w3 fl3 w4 fl4,
    loop colliding_gen "d" 3 (enumerate_with_step [0; 1; 2] 1 1) (world_of fs) fl0
      = (Next, w3, fl3)
    /\ fl3 !! 3 = Some "d/2a.jpg"
    /\ dst_filename "d" 3 4 "d/2a.jpg" = "d/004.jpg"
    /\ disk w3 !! "d/004.jpg" = Some (File 5)
    /\ fl3 !! 4 = Some "d/004.jpg"
    /\ iteration colliding_gen "d" 3 4 3 w3 fl3 = (Next, w4, fl4)
    /\ let tmp := colliding_gen (draws w3) (disk w3) "d" ".jpg" in
       fl4 !! 4 <> Some tmp
       /\ fl4 !! 4 = Some "d/004.jpg"
       /\ fl4 !! 1 = Some tmp
       /\ disk w4 !! tmp = Some (File 5)
       /\ disk w4 !! "d/004.jpg" = Some (File 4).
Proof.
  intros fs fl0. eexists _, _, _, _.
  split; [vm_compute; reflexivity|].
  split; [reflexivity|]. split; [by vm_compute|]. split; [reflexivity|].
  split; [reflexivity|]. split; [vm_compute; reflexivity|].
  split; [by vm_compute|]. split; [reflexivity|]. split; [by vm_compute|].
  split; reflexivity.
Qed.

(** C4 needs the temporary names to stay clear of the numbered names. With
    a generator that returns unused names of the directory and no more,
    the batch of a directory runs to its end and leaves a file under a
    temporary name; the file at position 3 has taken the number of
    position 4. *)
Lemma temporary_file_remains :
  let fs : FS := {[ "d" := Dir; "d/000.jpg" := File 1; "d/001.jpg" := File 2;
                    "d/2.jpg" := File 3; "d/2a.jpg" := File 4;
                    "d/003.jpg" := File 5 ]} in
  let self := {| target_dir := "d"; digit := 3; extensions := [".jpg"];
                 initial_number := 1; step := 1; yes := true |} in
  let fl0 := batch_of self "d" (Os.walk_files fs "d") in
  let tmp := "d/tmpxxxxxxxxxx.jpg" in
  exists w1 fl1,
    fl0 = ["d/000.jpg"; "d/001.jpg"; "d/2.jpg"; "d/2a.jpg"; "d/003.jpg"]
    /\ rename_batch colliding_gen "d" 3 1 1 (world_of fs) fl0 = (Next, w1, fl1)
    /\ calls w1 !! 5 = Some (Park "d/004.jpg" tmp)
    /\ (forall dst, Assign tmp dst ∉ calls w1)
    /\ disk w1 !! tmp = Some (File 5)
    /\ disk w1 !! "d/005.jpg" = Some (File 4).
Proof.
  intros fs self fl0 tmp. eexists _, _.
  split; [by vm_compute|]. split; [vm_compute; reflexivity|].
  split; [reflexivity|]. split; [|split; reflexivity].
  intros dst Hin. vm_compute in Hin.
  repeat (apply elem_of_cons in Hin as [Hin|Hin]; [discriminate Hin|]).
  by apply elem_of_nil in Hin.
Qed.
